(** * The add engine of the component tracker, embedded in Rocq

    The development follows [AddComponents] (the class of the add command):
    the path validator, the DSL file matcher, the component resolver, the
    exclusion pass, the multi-path aggregator, the index reconciler and the
    final write of the index.

    Code of the project that the class imports but that is not part of the
    verified sources (the index [BitMap], the identifier class [BitId], the
    consumer, the path and file-system helpers) and the third-party packages
    (glob, ignore, string-format, Node's path and fs) are interfaces here:
    type classes whose members are the operations the class calls.  The
    theorems of the part Properties hold for all their implementations; the
    runs on small working trees, at the end, use the implementation of the
    module [Sample]. *)

From Stdlib Require Import String Ascii List Bool Arith NArith Lia Permutation.
Import ListNotations.
Open Scope string_scope.
Open Scope list_scope.

Set Implicit Arguments.

(** ** JavaScript values *)

(** [!s] on a value that is a string or undefined: the empty string and
    undefined are falsy. *)
Definition truthy (o : option string) : bool :=
  match o with
  | Some s => negb (s =? "")
  | None => false
  end.

(** [a || b] on strings. *)
Definition orString (a b : string) : string := if a =? "" then b else a.

(** [R.uniq]: the first occurrence of every element is kept. *)
Fixpoint uniqBy {A : Type} (key : A -> string) (seen : list string) (l : list A) : list A :=
  match l with
  | [] => []
  | x :: r =>
      if existsb (String.eqb (key x)) seen then uniqBy key seen r
      else x :: uniqBy key (key x :: seen) r
  end.

Definition uniq (l : list string) : list string := uniqBy (fun s => s) [] l.

(** [Array.prototype.includes] on an array of strings. *)
Definition includes (l : list string) (s : string) : bool := existsb (String.eqb s) l.

(** [a || b || ...] on strings: the first one that is not empty. *)
Fixpoint firstTruthy (l : list string) : string :=
  match l with
  | [] => ""
  | a :: r => if a =? "" then firstTruthy r else a
  end.

(** The elements of [l] whose key is [k]: what [groupby] files under [k]. *)
Definition keyed {A : Type} (key : A -> string) (l : list A) (k : string) : list A :=
  filter (fun x => key x =? k) l.

(** The elements of [l] at the positions where [mask] is true. *)
Fixpoint pick {A : Type} (mask : list bool) (l : list A) : list A :=
  match mask, l with
  | b :: mask', x :: l' => if b then x :: pick mask' l' else pick mask' l'
  | _, _ => []
  end.

(** ** Plain objects used as maps

    An object literal [{}] that the code fills with [o[k] = v] and reads with
    [Object.keys].  The own properties are kept in insertion order;
    [Object.keys] lists the array-index keys first, in increasing numeric
    order, and then the other keys in insertion order.  [set] defines an own
    property whatever the key; [assign] is the assignment [o[k] = v] of an
    object value, which for the key [__proto__] goes to the accessor of
    [Object.prototype]: it replaces the prototype of [o] and defines no own
    property.  The code reads these objects through their own keys only. *)
Module JsObject.

Definition t (V : Type) := list (string * V).

Definition empty {V : Type} : t V := [].

Fixpoint get {V : Type} (o : t V) (k : string) : option V :=
  match o with
  | [] => None
  | (k', v) :: r => if k' =? k then Some v else get r k
  end.

Fixpoint set {V : Type} (o : t V) (k : string) (v : V) : t V :=
  match o with
  | [] => [(k, v)]
  | (k', v') :: r => if k' =? k then (k', v) :: r else (k', v') :: set r k v
  end.

Definition assign {V : Type} (o : t V) (k : string) (v : V) : t V :=
  if k =? "__proto__" then o else set o k v.

Fixpoint delete {V : Type} (o : t V) (k : string) : t V :=
  match o with
  | [] => []
  | (k', v') :: r => if k' =? k then r else (k', v') :: delete r k
  end.

Definition digit (c : ascii) : option N :=
  let n := N_of_ascii c in
  if ((48 <=? n) && (n <=? 57))%N then Some (n - 48)%N else None.

Fixpoint digits (s : string) (acc : N) : option N :=
  match s with
  | EmptyString => Some acc
  | String c r =>
      match digit c with
      | Some d => digits r (acc * 10 + d)%N
      | None => None
      end
  end.

(** A canonical numeric string below 2^32 - 1 is an array index. *)
Definition arrayIndex (s : string) : option N :=
  match s with
  | EmptyString => None
  | String c r =>
      if (Ascii.eqb c "0"%char) && negb (r =? "") then None
      else match digits s 0%N with
           | Some n => if (n <? 4294967295)%N then Some n else None
           | None => None
           end
  end.

Fixpoint insertIndex (x : N * string) (l : list (N * string)) : list (N * string) :=
  match l with
  | [] => [x]
  | y :: r => if (fst x <=? fst y)%N then x :: l else y :: insertIndex x r
  end.

Fixpoint indexKeys (ks : list string) : list (N * string) :=
  match ks with
  | [] => []
  | k :: r =>
      match arrayIndex k with
      | Some n => insertIndex (n, k) (indexKeys r)
      | None => indexKeys r
      end
  end.

Definition isNamed (k : string) : bool :=
  match arrayIndex k with Some _ => false | None => true end.

Definition ownKeys (ks : list string) : list string :=
  map snd (indexKeys ks) ++ filter isNamed ks.

(** [Object.keys(o)] *)
Definition keys {V : Type} (o : t V) : list string := ownKeys (map fst o).

(** [lodash.groupby(l, key)] where [key] names a string property. *)
Fixpoint groupby {A : Type} (key : A -> string) (l : list A) (o : t (list A)) : t (list A) :=
  match l with
  | [] => o
  | x :: r =>
      match get o (key x) with
      | Some g => groupby key r (set o (key x) (g ++ [x]))
      | None => groupby key r (set o (key x) [x])
      end
  end.

End JsObject.

(** ** Data model *)

(** [ComponentMapFile] *)
Record ComponentMapFile := mkFile {
  relativePath : string;
  test : bool;
  name : string
}.

(** [COMPONENT_ORIGINS] *)
Inductive ComponentOrigin := AUTHORED | IMPORTED | NESTED.

Definition originEqb (a b : ComponentOrigin) : bool :=
  match a, b with
  | AUTHORED, AUTHORED | IMPORTED, IMPORTED | NESTED, NESTED => true
  | _, _ => false
  end.

(** [ComponentMap], a record of the index. *)
Record ComponentMap := mkComponentMap {
  origin : ComponentOrigin;
  cmRootDir : option string;
  cmFiles : list ComponentMapFile;
  cmMainFile : option string
}.

(** [AddProps] and the fields of the same names of [AddComponents]. *)
Record AddProps := mkAddProps {
  componentPaths : list string;
  id : option string;
  main : option string;
  namespace : option string;
  tests : list string;
  exclude : list string;
  override : bool
}.

(** [PathsStats]: path to [{ isDir }]. *)
Definition PathsStats := JsObject.t bool.

(** ** Collaborators *)

(** Node's [path] module; [path_split s] is [s.split(path.sep)], and
    [path_parse_dir], [path_parse_name] are the [dir] and [name] fields of
    [path.parse]. *)
Class PathLib := {
  path_join : string -> string -> string;
  path_relative : string -> string -> string;
  path_basename : string -> string;
  path_normalize : string -> string;
  path_resolve : string -> string;
  path_dirname : string -> string;
  path_split : string -> list string;
  path_parse_dir : string -> string;
  path_parse_name : string -> string
}.

(** The file system as the add command reads it: the existence tests of
    [utils] and of [fs], the three ways [glob] is called (without options,
    with an ignore list, with a working directory and [nodir]), the filter of
    the [ignore] package built from an ignore list, and the helpers of
    [utils] that look at the disk. *)
Class FileSystem := {
  existsSync : string -> bool;
  fs_existsSync : string -> bool;
  isDir : string -> bool;
  glob : string -> list string;
  globIgnoring : list string -> string -> list string;
  globFilesIn : string -> string -> list string;
  ignoreFilter : list string -> list string -> list string;
  retrieveIgnoreList : string -> list string;
  getMissingTestFiles : list string -> list string;
  isAutoGeneratedFile : string -> bool
}.

(** The pure helpers: [calculateFileInfo] and [format] (string-format) of the
    DSL, the test [s.match(REGEX_PATTERN)], the path helpers of [utils],
    [array-difference] and the constant [DEFAULT_DIST_DIRNAME].
    [normalizeUndefined] is what [pathNormalizeToLinux(undefined)] gives when
    it is a string. *)
Class Helpers := {
  FileInfo : Type;
  calculateFileInfo : string -> FileInfo;
  format : string -> FileInfo -> string;
  matchesRegexPattern : string -> bool;
  pathNormalizeToLinux : string -> string;
  normalizeUndefined : option string;
  pathJoinLinux : option string -> string -> string -> string;
  arrayDiff : list string -> list string -> list string;
  DEFAULT_DIST_DIRNAME : string
}.

(** [BitId] *)
Class IdService := {
  BitId : Type;
  BitId_parse : string -> BitId;
  BitId_toString : BitId -> string;
  BitId_toStringWithoutVersion : BitId -> string;
  BitId_getValidBitId : option string -> option string -> BitId
}.

(** [Consumer]: [getPath()], [getPathRelativeToConsumer] and whether
    [bitJson.distTarget] is set. *)
Class ConsumerOps := {
  getPath : string;
  getPathRelativeToConsumer : string -> string;
  distTarget : bool
}.

Section Engine.

Context {PL : PathLib} {FS : FileSystem} {HP : Helpers} {IS : IdService} {CO : ConsumerOps}.

(** [AddedComponent] *)
Record AddedComponent := mkAdded {
  componentId : option BitId;
  files : list ComponentMapFile;
  mainFile : option string;
  rootDir : option string
}.

(** [AddResult] *)
Record AddResult := mkAddResult {
  resultId : string;
  resultFiles : list ComponentMapFile
}.

(** The exceptions of the add command, the plain [Error] of
    [_getIdAccordingToExistingComponent], the [TypeError] of a property read
    on undefined, and whatever the index throws from [addComponent]. *)
Inductive AddError :=
| PathsNotExist (paths : list string)
| NoFiles (ignoredFiles : list string)
| EmptyDirectory
| DuplicateIds (duplicateIds : JsObject.t (list AddedComponent))
| MissingComponentIdForImportedComponent (componentIdStr : string)
| IncorrectIdForImportedComponent (importedId : string) (userId : string)
| NamespaceTaken (existingComponentId : string)
| TypeError
| IndexError (message : string).

(** A call returns or throws. *)
Inductive Outcome (A : Type) :=
| Returned (a : A)
| Thrown (e : AddError).

Arguments Returned {A} a.
Arguments Thrown {A} e.

Definition bind {A B : Type} (m : Outcome A) (k : A -> Outcome B) : Outcome B :=
  match m with
  | Returned a => k a
  | Thrown e => Thrown e
  end.

Notation "x <- m ;; k" := (bind m (fun x => k))
  (at level 100, m at next level, right associativity).

(** [BitMap], the index kept in memory.  [getComponent] is the call with an
    identifier string and the default flags, [getComponentLenient] the call
    of [addOrUpdateComponentInBitMap], with [shouldThrow = false] and
    [includeSearchByBoxAndNameOnly = true].  [renameTrackedFile bm id i p] is
    the index after the assignment [foundFile.relativePath = p] to the file
    at position [i] of the record that [getComponentLenient bm id] returned:
    the record and its files are objects of the index. *)
Class IndexOps := {
  BitMap : Type;
  getComponent : BitMap -> string -> option ComponentMap;
  getComponentLenient : BitMap -> option BitId -> option ComponentMap;
  getComponentIdByPath : BitMap -> string -> option string;
  getExistingComponentId : BitMap -> string -> option string;
  getAllComponents : BitMap -> ComponentOrigin -> JsObject.t ComponentMap;
  addComponent : BitMap -> option BitId -> list ComponentMapFile -> option string ->
                 option string -> ComponentOrigin -> bool -> BitMap * Outcome ComponentMap;
  renameTrackedFile : BitMap -> option BitId -> nat -> string -> BitMap
}.

Context {IX : IndexOps}.

(** The mutable state of one run: the index in memory, [this.warnings], and
    the index states written to storage, the latest first. *)
Record Mem := mkMem {
  bitMap : BitMap;
  warnings : JsObject.t (list string);
  storage : list BitMap
}.

(** [AddActionResults] *)
Record AddActionResults := mkResults {
  addedComponents : list AddResult;
  resultWarnings : JsObject.t (list string)
}.

(** The instance under study: the properties given to the constructor. *)
Variable this : AddProps.

(** ** validatePaths

    [componentPathsStats[componentPath] = { isDir: ... }] is an assignment of
    an object value, so a path named [__proto__] leaves the own keys as they
    are. *)

Fixpoint validatePathsFrom (fileArray : list string) (componentPathsStats : PathsStats)
  : Outcome PathsStats :=
  match fileArray with
  | [] => Returned componentPathsStats
  | componentPath :: rest =>
      if negb (existsSync componentPath) then Thrown (PathsNotExist [componentPath])
      else validatePathsFrom rest
             (JsObject.assign componentPathsStats componentPath (isDir componentPath))
  end.

Definition validatePaths (fileArray : list string) : Outcome PathsStats :=
  validatePathsFrom fileArray JsObject.empty.

(** ** validateNoDuplicateIds *)

(** The property key that [groupby] makes of a [componentId]. *)
Definition componentIdKey (c : AddedComponent) : string :=
  match componentId c with
  | Some i => BitId_toString i
  | None => "undefined"
  end.

Definition validateNoDuplicateIds (addComponents : list AddedComponent) : Outcome unit :=
  let newGroupedComponents := JsObject.groupby componentIdKey addComponents JsObject.empty in
  let duplicateIds :=
    fold_left
      (fun dup key =>
         match JsObject.get newGroupedComponents key with
         | Some g => if (1 <? length g)%nat then JsObject.set dup key g else dup
         | None => dup
         end)
      (JsObject.keys newGroupedComponents) JsObject.empty in
  match duplicateIds with
  | [] => Returned tt
  | _ => Thrown (DuplicateIds duplicateIds)
  end.

(** ** getFilesAccordingToDsl *)

Definition getFilesAccordingToDsl (ignoreList : list string) (fileList : list string)
  (filesWithPotentialDsl : list string) : list string :=
  let filesListAllMatches :=
    map (fun dsl =>
           map (fun file =>
                  let fileInfo := calculateFileInfo file in
                  let generatedFile := format dsl fileInfo in
                  let matches := globIgnoring ignoreList generatedFile in
                  filter fs_existsSync matches)
               fileList)
        filesWithPotentialDsl in
  let filesListFlatten := concat (concat filesListAllMatches) in
  let filesListUnique := uniq filesListFlatten in
  map (fun file => pathNormalizeToLinux (getPathRelativeToConsumer file)) filesListUnique.

(** ** addToBitMap *)

Definition addToBitMap (component : AddedComponent) (m : Mem) : Outcome AddResult * Mem :=
  let '(bm, componentMap) :=
    addComponent (bitMap m) (componentId component) (files component)
      (mainFile component) (rootDir component) AUTHORED (override this) in
  let m' := mkMem bm (warnings m) (storage m) in
  match componentMap with
  | Thrown e => (Thrown e, m')
  | Returned cm =>
      match componentId component with
      | Some i => (Returned (mkAddResult (BitId_toString i) (cmFiles cm)), m')
      | None => (Thrown TypeError, m')
      end
  end.

(** ** addOrUpdateComponentInBitMap *)

Definition hasOrigin (o : ComponentOrigin) (c : option ComponentMap) : bool :=
  match c with
  | Some cm => originEqb (origin cm) o
  | None => false
  end.

(** [existingIdOfFile && existingIdOfFile !== parsedBitId.toString()]; the
    right operand is evaluated only when the left one is truthy. *)
Definition idOfFileIsDifferent (parsedBitId : option BitId) (existingIdOfFile : option string)
  : Outcome bool :=
  match existingIdOfFile with
  | Some e =>
      if truthy existingIdOfFile then
        match parsedBitId with
        | Some p => Returned (negb (e =? BitId_toString p))
        | None => Thrown TypeError
        end
      else Returned false
  | None => Returned false
  end.

Definition existingComponentOfFile (bm : BitMap) (existingIdOfFile : option string)
  : option ComponentMap :=
  match existingIdOfFile with
  | Some e => if truthy existingIdOfFile then getComponent bm e else None
  | None => None
  end.

Definition isImported (foundComponentFromBitMap existingComponent : option ComponentMap) : bool :=
  hasOrigin IMPORTED foundComponentFromBitMap || hasOrigin IMPORTED existingComponent.

(** [lodash.find] with the position of the element found. *)
Fixpoint findFile (l : list ComponentMapFile) (p : string) (i : nat)
  : option (nat * ComponentMapFile) :=
  match l with
  | [] => None
  | f :: r => if relativePath f =? p then Some (i, f) else findFile r p (S i)
  end.

Fixpoint replaceAt {A : Type} (l : list A) (i : nat) (x : A) : list A :=
  match l, i with
  | [], _ => []
  | _ :: r, O => x :: r
  | y :: r, S j => y :: replaceAt r j x
  end.

(** [this.warnings[k].push(p)], or [this.warnings[k] = [p]]. *)
Definition pushWarning (w : JsObject.t (list string)) (k p : string) : JsObject.t (list string) :=
  match JsObject.get w k with
  | Some l => JsObject.set w k (l ++ [p])
  | None => JsObject.set w k [p]
  end.

(** What the callback of [files.map] sees and changes: the record found for
    the component (its files are assigned to) and the state of the run. *)
Record Reconciling := mkReconciling {
  foundComponentFromBitMap : option ComponentMap;
  mem : Mem
}.

(** The callback of [files.map]: [Returned None] is the [null] that the
    filter removes afterwards.  Where [idOfFileIsDifferent] is true the file
    has an owner, and past [if (!this.id)] the identifier is a string: the
    other cases of the match on them do not occur. *)
Definition reconcileFile (parsedBitId : option BitId) (file : ComponentMapFile) (s : Reconciling)
  : Outcome (option ComponentMapFile) * Reconciling :=
  let consumerPath := getPath in
  if isAutoGeneratedFile (path_join consumerPath (relativePath file)) then (Returned None, s)
  else
    let existingIdOfFile := getComponentIdByPath (bitMap (mem s)) (relativePath file) in
    match idOfFileIsDifferent parsedBitId existingIdOfFile with
    | Thrown e => (Thrown e, s)
    | Returned different =>
        let existingComponent := existingComponentOfFile (bitMap (mem s)) existingIdOfFile in
        if isImported (foundComponentFromBitMap s) existingComponent then
          if negb (truthy (id this)) then
            match parsedBitId with
            | Some p =>
                (Thrown (MissingComponentIdForImportedComponent (BitId_toStringWithoutVersion p)), s)
            | None => (Thrown TypeError, s)
            end
          else if different then
            match existingIdOfFile, id this with
            | Some e, Some userId =>
                let existingIdWithoutVersion := BitId_toStringWithoutVersion (BitId_parse e) in
                (Thrown (IncorrectIdForImportedComponent existingIdWithoutVersion userId), s)
            | _, _ => (Thrown TypeError, s)
            end
          else
            match foundComponentFromBitMap s with
            | Some found =>
                match cmRootDir found with
                | None => (Thrown TypeError, s)
                | Some foundRootDir =>
                    let tempFile := path_relative foundRootDir (relativePath file) in
                    match findFile (cmFiles found) tempFile 0 with
                    | Some (i, foundFile) =>
                        let moved :=
                          mkFile (path_join foundRootDir (relativePath foundFile))
                                 (test foundFile) (name foundFile) in
                        let found' :=
                          mkComponentMap (origin found) (cmRootDir found)
                            (replaceAt (cmFiles found) i moved) (cmMainFile found) in
                        let bm' := renameTrackedFile (bitMap (mem s)) parsedBitId i
                                     (relativePath moved) in
                        (Returned (Some moved),
                         mkReconciling (Some found')
                           (mkMem bm' (warnings (mem s)) (storage (mem s))))
                    | None => (Returned (Some file), s)
                    end
                end
            | None => (Returned (Some file), s)
            end
        else if different then
          match existingIdOfFile with
          | Some e =>
              (Returned None,
               mkReconciling (foundComponentFromBitMap s)
                 (mkMem (bitMap (mem s)) (pushWarning (warnings (mem s)) e (relativePath file))
                        (storage (mem s))))
          | None => (Thrown TypeError, s)
          end
        else (Returned (Some file), s)
    end.

(** [files.map(callback).filter(file => file)], the callback run on the files
    in order; an exception ends the run. *)
Fixpoint reconcileFiles (parsedBitId : option BitId) (l : list ComponentMapFile) (s : Reconciling)
  : Outcome (list ComponentMapFile) * Reconciling :=
  match l with
  | [] => (Returned [], s)
  | file :: rest =>
      match reconcileFile parsedBitId file s with
      | (Thrown e, s') => (Thrown e, s')
      | (Returned kept, s') =>
          match reconcileFiles parsedBitId rest s' with
          | (Thrown e, s'') => (Thrown e, s'')
          | (Returned keptRest, s'') =>
              (Returned (match kept with Some f => f :: keptRest | None => keptRest end), s'')
          end
      end
  end.

(** [Returned None] is the [null] returned for a component left without
    files. *)
Definition addOrUpdateComponentInBitMap (component : AddedComponent) (m : Mem)
  : Outcome (option AddResult) * Mem :=
  let parsedBitId := componentId component in
  let found := getComponentLenient (bitMap m) (componentId component) in
  match reconcileFiles parsedBitId (files component) (mkReconciling found m) with
  | (Thrown e, s) => (Thrown e, mem s)
  | (Returned kept, s) =>
      match kept with
      | [] => (Returned None, mem s)
      | _ =>
          match addToBitMap (mkAdded (componentId component) kept (mainFile component)
                               (rootDir component)) (mem s) with
          | (Thrown e, m') => (Thrown e, m')
          | (Returned r, m') => (Returned (Some r), m')
          end
      end
  end.

(** ** removeExcludedFiles *)

(** [pathNormalizeToLinux(componentWithFiles.mainFile)] *)
Definition normalizedMainFile (c : AddedComponent) : option string :=
  match mainFile c with
  | Some m => Some (pathNormalizeToLinux m)
  | None => normalizeUndefined
  end.

Definition mainFileIsExcluded (resolvedExcludedFiles : list string) (c : AddedComponent) : bool :=
  match normalizedMainFile c with
  | Some m => includes resolvedExcludedFiles m
  | None => false
  end.

Definition resolveExcludedFiles (ignoreList : list string)
  (componentsWithFiles : list AddedComponent) : list string :=
  let fileList := concat (map (fun x => map relativePath (files x)) componentsWithFiles) in
  getFilesAccordingToDsl ignoreList fileList (exclude this).

Definition removeExcludedFiles (ignoreList : list string)
  (componentsWithFiles : list AddedComponent) : list AddedComponent :=
  let resolvedExcludedFiles := resolveExcludedFiles ignoreList componentsWithFiles in
  map (fun componentWithFiles =>
         if mainFileIsExcluded resolvedExcludedFiles componentWithFiles then
           mkAdded (componentId componentWithFiles) [] (mainFile componentWithFiles)
                   (rootDir componentWithFiles)
         else
           mkAdded (componentId componentWithFiles)
                   (filter (fun key => negb (includes resolvedExcludedFiles (relativePath key)))
                           (files componentWithFiles))
                   (mainFile componentWithFiles) (rootDir componentWithFiles))
      componentsWithFiles.

(** ** _getIdAccordingToExistingComponent *)

Definition _getIdAccordingToExistingComponent (bm : BitMap) (currentId : string) : Outcome BitId :=
  let existingComponentId := getExistingComponentId bm currentId in
  match existingComponentId with
  | Some e =>
      if truthy existingComponentId then
        match getComponent bm e with
        | Some cm =>
            if originEqb (origin cm) NESTED then Thrown (NamespaceTaken e)
            else Returned (BitId_parse e)
        | None => Thrown TypeError
        end
      else Returned (BitId_parse currentId)
  | None => Returned (BitId_parse currentId)
  end.

(** ** _addMainFileToFiles *)

(** One turn of the [forEach]: the variable [mainFile] and the array, which
    the turn may assign and push to. *)
Definition mainFileStep (acc : string * list ComponentMapFile) (file : ComponentMapFile)
  : string * list ComponentMapFile :=
  let '(mainFile, fileList) := acc in
  let fileInfo := calculateFileInfo (relativePath file) in
  let generatedFile := format mainFile fileInfo in
  let foundFile := find (fun f => relativePath f =? generatedFile) fileList in
  match foundFile with
  | Some f => (relativePath f, fileList)
  | None =>
      if fs_existsSync generatedFile then
        (generatedFile,
         fileList ++ [mkFile generatedFile false (path_basename generatedFile)])
      else (mainFile, fileList)
  end.

(** The [forEach] visits the elements the array had when it started. *)
Definition mainFileLoop (pattern : string) (fileList : list ComponentMapFile)
  : string * list ComponentMapFile :=
  fold_left mainFileStep fileList (pattern, fileList).

(** The result and the array as the call leaves it. *)
Definition _addMainFileToFiles (fileList : list ComponentMapFile)
  : option string * list ComponentMapFile :=
  let '(mainFile, fileList') :=
    match main this with
    | Some m =>
        if truthy (Some m) && matchesRegexPattern m then
          let '(m', l') := mainFileLoop m fileList in (Some m', l')
        else (Some m, fileList)
    | None => (None, fileList)
    end in
  match mainFile with
  | Some m =>
      if negb (truthy mainFile) then (None, fileList')
      else
        let mainFileRelativeToConsumer := getPathRelativeToConsumer m in
        let mainPath := path_join getPath mainFileRelativeToConsumer in
        if fs_existsSync mainPath then (Some mainFileRelativeToConsumer, fileList')
        else (Some m, fileList')
  | None => (None, fileList')
  end.

(** ** _mergeTestFilesWithFiles *)

Definition _mergeTestFilesWithFiles (ignoreList : list string) (fileList : list ComponentMapFile)
  : list ComponentMapFile :=
  let testFilesArr :=
    match tests this with
    | [] => []
    | _ => getFilesAccordingToDsl ignoreList (map relativePath fileList) (tests this)
    end in
  let resolvedTestFiles :=
    map (fun testFile => mkFile testFile true (path_basename testFile)) testFilesArr in
  uniqBy relativePath [] (resolvedTestFiles ++ fileList).

(** ** addOneComponent *)

(** [a[a.length - 1 - back]], undefined out of range. *)
Definition fromEnd (a : list string) (back : nat) : option string :=
  if (back <? length a)%nat then nth_error a (length a - 1 - back) else None.

(** [this.namespace || other] *)
Definition namespaceOr (other : option string) : option string :=
  if truthy (namespace this) then namespace this else other.

(** The identifier derived from a path, unless one is fixed already:
    [if (!finalBitId) { ... }]. *)
Definition idFromPath (bm : BitMap) (finalBitId : option BitId)
  (nameSpace lastName : option string) : Outcome BitId :=
  match finalBitId with
  | Some i => Returned i
  | None =>
      let idFromPath := BitId_getValidBitId nameSpace lastName in
      _getIdAccordingToExistingComponent bm (BitId_toString idFromPath)
  end.

(** The callback of [Object.keys(componentPathsStats).map]: the component of
    one path, and [finalBitId] as the callback leaves it. *)
Definition resolvePath (bm : BitMap) (ignoreList : list string)
  (componentPathsStats : PathsStats) (finalBitId : option BitId) (componentPath : string)
  : Outcome (AddedComponent * option BitId) :=
  match JsObject.get componentPathsStats componentPath with
  | None => Thrown TypeError
  | Some true =>
      let relativeComponentPath := getPathRelativeToConsumer componentPath in
      let absoluteComponentPath := path_resolve componentPath in
      let splitPath := path_split absoluteComponentPath in
      let lastDir := fromEnd splitPath 0 in
      let nameSpaceOrDir := namespaceOr (fromEnd splitPath 1) in
      let matches := globFilesIn getPath (path_join relativeComponentPath "**") in
      let filteredMatches := ignoreFilter ignoreList matches in
      match filteredMatches with
      | [] => Thrown EmptyDirectory
      | _ =>
          let files0 :=
            map (fun m => mkFile (pathNormalizeToLinux m) false (path_basename m))
                filteredMatches in
          let files1 := _mergeTestFilesWithFiles ignoreList files0 in
          let '(resolvedMainFile, files2) := _addMainFileToFiles files1 in
          finalBitId' <- idFromPath bm finalBitId nameSpaceOrDir lastDir ;;
          let rootDir :=
            if (length (JsObject.keys componentPathsStats) =? 1)%nat
            then Some relativeComponentPath else None in
          Returned (mkAdded (Some finalBitId') files2 resolvedMainFile rootDir, Some finalBitId')
      end
  | Some false =>
      let resolvedPath := path_resolve componentPath in
      let relativeFilePath := getPathRelativeToConsumer componentPath in
      let dirName :=
        if truthy (Some (path_parse_dir resolvedPath)) then path_parse_dir resolvedPath
        else path_dirname (path_resolve componentPath) in
      let nameSpaceOrLastDir := namespaceOr (fromEnd (path_split dirName) 0) in
      finalBitId' <- idFromPath bm finalBitId nameSpaceOrLastDir
                       (Some (path_parse_name resolvedPath)) ;;
      let files0 :=
        [mkFile (pathNormalizeToLinux relativeFilePath) false (path_basename relativeFilePath)] in
      let files1 := _mergeTestFilesWithFiles ignoreList files0 in
      let '(resolvedMainFile, files2) := _addMainFileToFiles files1 in
      Returned (mkAdded (Some finalBitId') files2 resolvedMainFile None, Some finalBitId')
  end.

(** The callbacks run on the paths in order.  The calls that [add] makes
    either fix [finalBitId] before the first callback or pass a single path,
    so that the order in which the callbacks reach their assignment to
    [finalBitId] does not matter. *)
Fixpoint resolvePaths (bm : BitMap) (ignoreList : list string)
  (componentPathsStats : PathsStats) (finalBitId : option BitId) (paths : list string)
  : Outcome (list AddedComponent * option BitId) :=
  match paths with
  | [] => Returned ([], finalBitId)
  | componentPath :: rest =>
      r <- resolvePath bm ignoreList componentPathsStats finalBitId componentPath ;;
      rs <- resolvePaths bm ignoreList componentPathsStats (snd r) rest ;;
      Returned (fst r :: fst rs, snd rs)
  end.

(** [assignwith({}, ...group, (val1, val2) => val1 || val2)]: every property
    is the first truthy value among the objects of the group. *)
Definition mergeFiles (group : list ComponentMapFile) : option ComponentMapFile :=
  match group with
  | [] => None
  | f :: r =>
      Some (fold_left (fun a b => mkFile (orString (relativePath a) (relativePath b))
                                     (test a || test b) (orString (name a) (name b)))
                      r f)
  end.

(** The end of [addOneComponent], from the filter on: the components with
    files are united. *)
Definition uniteComponents (componentId : option BitId)
  (componentsWithFiles : list AddedComponent) : AddedComponent :=
  let componentsWithFiles :=
    filter (fun c => negb (length (files c) =? 0)%nat) componentsWithFiles in
  match componentsWithFiles with
  | [] => mkAdded componentId [] None None
  | [c] => c
  | first :: _ =>
      let allFiles := fold_left (fun a b => a ++ files b) componentsWithFiles [] in
      let groupedComponents := JsObject.groupby relativePath allFiles JsObject.empty in
      let uniqComponents :=
        flat_map (fun key =>
                    match JsObject.get groupedComponents key with
                    | Some group => match mergeFiles group with Some f => [f] | None => [] end
                    | None => []
                    end)
                 (JsObject.keys groupedComponents) in
      mkAdded componentId uniqComponents (mainFile first) (rootDir first)
  end.

Definition addOneComponent (bm : BitMap) (ignoreList : list string)
  (componentPathsStats : PathsStats) : Outcome AddedComponent :=
  finalBitId <- (if truthy (id this) then
                   match id this with
                   | Some i => b <- _getIdAccordingToExistingComponent bm i ;; Returned (Some b)
                   | None => Returned None
                   end
                 else Returned None) ;;
  r <- resolvePaths bm ignoreList componentPathsStats finalBitId
         (JsObject.keys componentPathsStats) ;;
  let componentsWithFiles :=
    match exclude this with
    | [] => fst r
    | _ => removeExcludedFiles ignoreList (fst r)
    end in
  Returned (uniteComponents (snd r) componentsWithFiles).

(** ** getIgnoreList *)

Definition getIgnoreList (bm : BitMap) : list string :=
  let ignoreList := retrieveIgnoreList getPath in
  if negb distTarget then
    let importedComponents := getAllComponents bm IMPORTED in
    let distDirsOfImportedComponents :=
      flat_map (fun key =>
                  match JsObject.get importedComponents key with
                  | Some cm => [pathJoinLinux (cmRootDir cm) DEFAULT_DIST_DIRNAME "**"]
                  | None => []
                  end)
               (JsObject.keys importedComponents) in
    ignoreList ++ distDirsOfImportedComponents
  else ignoreList.

(** ** add *)

(** The paths to resolve: from the check of the test files to the end of the
    first conditional of [add]. *)
Definition resolvePathsStats (ignoreList : list string) : Outcome PathsStats :=
  let missingFiles := getMissingTestFiles (tests this) in
  match missingFiles with
  | _ :: _ => Thrown (PathsNotExist missingFiles)
  | [] =>
      let resolvedComponentPathsWithoutGitIgnore := concat (map glob (componentPaths this)) in
      let resolvedComponentPathsWithGitIgnore :=
        ignoreFilter ignoreList resolvedComponentPathsWithoutGitIgnore in
      let diff :=
        arrayDiff resolvedComponentPathsWithGitIgnore resolvedComponentPathsWithoutGitIgnore in
      if negb (length (tests this) =? 0)%nat && truthy (id this)
         && (length resolvedComponentPathsWithoutGitIgnore =? 0)%nat then
        let resolvedTestFiles := concat (map glob (tests this)) in
        validatePaths resolvedTestFiles
      else
        match resolvedComponentPathsWithoutGitIgnore with
        | [] => Thrown (PathsNotExist (componentPaths this))
        | _ =>
            match resolvedComponentPathsWithGitIgnore with
            | _ :: _ => validatePaths resolvedComponentPathsWithGitIgnore
            | [] => Thrown (NoFiles diff)
            end
        end
  end.

Definition isMultipleComponents (componentPathsStats : PathsStats) : bool :=
  (1 <? length (JsObject.keys componentPathsStats))%nat && negb (truthy (id this)).

Definition testToRemove (ignoreList : list string) (componentPathsStats : PathsStats)
  : list string :=
  match tests this with
  | [] => []
  | _ => getFilesAccordingToDsl ignoreList (JsObject.keys componentPathsStats) (tests this)
  end.

(** [testToRemove.forEach(test => delete componentPathsStats[path.normalize(test)])] *)
Definition removeTests (ignoreList : list string) (componentPathsStats : PathsStats)
  : PathsStats :=
  fold_left (fun stats test => JsObject.delete stats (path_normalize test))
            (testToRemove ignoreList componentPathsStats) componentPathsStats.

(** [Object.keys(componentPathsStats).map(onePath => this.addOneComponent({ [onePath]: ... }))]
    and the [Promise.all] on it.  The calls only read the index and the
    disk; they are run in the order of the paths, and when several of them
    throw, the exception kept is that of the first path. *)
Fixpoint addEach (bm : BitMap) (ignoreList : list string) (componentPathsStats : PathsStats)
  (paths : list string) : Outcome (list AddedComponent) :=
  match paths with
  | [] => Returned []
  | onePath :: rest =>
      match JsObject.get componentPathsStats onePath with
      | None => Thrown TypeError
      | Some stat =>
          let oneComponentPathStat := JsObject.set JsObject.empty onePath stat in
          c <- addOneComponent bm ignoreList oneComponentPathStat ;;
          cs <- addEach bm ignoreList componentPathsStats rest ;;
          Returned (c :: cs)
      end
  end.

(** The components that [add] hands to the reconciler, in order: the part of
    [add] that reads the index and the disk and assigns nothing but locals. *)
Definition resolveComponents (bm : BitMap) : Outcome (list AddedComponent) :=
  let ignoreList := getIgnoreList bm in
  componentPathsStats <- resolvePathsStats ignoreList ;;
  if isMultipleComponents componentPathsStats then
    let componentPathsStats := removeTests ignoreList componentPathsStats in
    added <- addEach bm ignoreList componentPathsStats (JsObject.keys componentPathsStats) ;;
    _ <- validateNoDuplicateIds added ;;
    Returned added
  else
    addedOne <- addOneComponent bm ignoreList componentPathsStats ;;
    Returned [addedOne].

(** The [forEach] of the first branch and the body of the second: a component
    with files goes to the reconciler, a result that is not null is pushed. *)
Fixpoint reconcileComponents (added : list AddedComponent) (m : Mem)
  : Outcome (list AddResult) * Mem :=
  match added with
  | [] => (Returned [], m)
  | component :: rest =>
      match files component with
      | [] => reconcileComponents rest m
      | _ =>
          match addOrUpdateComponentInBitMap component m with
          | (Thrown e, m') => (Thrown e, m')
          | (Returned addedComponent, m') =>
              match reconcileComponents rest m' with
              | (Thrown e, m'') => (Thrown e, m'')
              | (Returned results, m'') =>
                  (Returned (match addedComponent with
                             | Some r => r :: results
                             | None => results
                             end), m'')
              end
          end
      end
  end.

(** [await this.bitMap.write()]: the index in memory goes to storage. *)
Definition write (m : Mem) : Mem :=
  mkMem (bitMap m) (warnings m) (bitMap m :: storage m).

Definition add (m : Mem) : Outcome AddActionResults * Mem :=
  match resolveComponents (bitMap m) with
  | Thrown e => (Thrown e, m)
  | Returned added =>
      match reconcileComponents added m with
      | (Thrown e, m') => (Thrown e, m')
      | (Returned results, m') =>
          let m'' := write m' in
          (Returned (mkResults results (warnings m'')), m'')
      end
  end.

(** ** Notions of the statements *)

(** [this.bitMap.getComponentIdByPath(file.relativePath)] in a state. *)
Definition ownerOfFile (s : Reconciling) (file : ComponentMapFile) : option string :=
  getComponentIdByPath (bitMap (mem s)) (relativePath file).

(** The flag [isImported] of a file in a state. *)
Definition isImportedFile (s : Reconciling) (file : ComponentMapFile) : bool :=
  isImported (foundComponentFromBitMap s)
             (existingComponentOfFile (bitMap (mem s)) (ownerOfFile s file)).

(** The file list holds an entry of path [p]. *)
Definition inFileSet (fileList : list ComponentMapFile) (p : string) : bool :=
  existsb (fun f => relativePath f =? p) fileList.

(** Every entry of the stats holds the answer of [isDir] for its path. *)
Definition statsOfDisk (stats : PathsStats) : Prop :=
  forall p b, In (p, b) stats -> b = isDir p.

(** The union of file sets by relative path, in the words of the claim but
    with every property taken apart: a path of the union is the path of an
    entry of the sets; its entry is a test file when one of the entries of
    that path is, and has the first name, among these entries, that is not
    empty. *)
Definition unionEntry (all : list ComponentMapFile) (p : string) : ComponentMapFile :=
  mkFile p (existsb test (keyed relativePath all p))
         (firstTruthy (map name (keyed relativePath all p))).

(** The components that have files. *)
Definition withFiles (groups : list AddedComponent) : list AddedComponent :=
  filter (fun c => negb (length (files c) =? 0)%nat) groups.

(** The warnings recorded for an identifier: none when the object has no
    such key. *)
Definition warned (w : JsObject.t (list string)) (k : string) : list string :=
  match JsObject.get w k with
  | Some l => l
  | None => []
  end.

(** [testFilesArr] of [_mergeTestFilesWithFiles]. *)
Definition testFilesFor (ignoreList : list string) (fileList : list ComponentMapFile)
  : list string :=
  match tests this with
  | [] => []
  | _ => getFilesAccordingToDsl ignoreList (map relativePath fileList) (tests this)
  end.

(** The file has an owner in the index and the owner is not [pid]:
    [idOfFileIsDifferent] for a component that has an identifier. *)
Definition ownedByAnother (bm : BitMap) (pid : BitId) (file : ComponentMapFile) : bool :=
  match getComponentIdByPath bm (relativePath file) with
  | Some e => truthy (Some e) && negb (e =? BitId_toString pid)
  | None => false
  end.

(** The file passes the reconciler when no imported record is involved. *)
Definition keptPlainly (bm : BitMap) (pid : BitId) (file : ComponentMapFile) : bool :=
  negb (isAutoGeneratedFile (path_join getPath (relativePath file))) &&
  negb (ownedByAnother bm pid file).

(** No imported record is involved for the file: neither the record found
    for the component nor the owner of the file. *)
Definition noImportedRecord (bm : BitMap) (pid : BitId) (file : ComponentMapFile) : bool :=
  negb (isImported (getComponentLenient bm (Some pid))
          (existingComponentOfFile bm (getComponentIdByPath bm (relativePath file)))).

(** The callback of the [forEach] of [validateNoDuplicateIds]: a group of
    more than one component is recorded under its key. *)
Definition collectDuplicates {A : Type} (grouped : JsObject.t (list A))
  (dup : JsObject.t (list A)) (k : string) : JsObject.t (list A) :=
  match JsObject.get grouped k with
  | Some g => if (1 <? length g)%nat then JsObject.set dup k g else dup
  | None => dup
  end.

(** What the loop of [_addMainFileToFiles] may append: files that are on disk, not flagged as tests,
    named by their base name. *)
Definition appendedByMain (f : ComponentMapFile) : Prop :=
  test f = false /\ fs_existsSync (relativePath f) = true /\
  name f = path_basename (relativePath f).

(** The warnings after the reconciler passed a file for which no imported
    record is involved. *)
Definition warnPlainly (bm : BitMap) (pid : BitId) (w : JsObject.t (list string))
  (file : ComponentMapFile) : JsObject.t (list string) :=
  if isAutoGeneratedFile (path_join getPath (relativePath file)) then w
  else
    match getComponentIdByPath bm (relativePath file) with
    | Some e =>
        if truthy (Some e) && negb (e =? BitId_toString pid)
        then pushWarning w e (relativePath file) else w
    | None => w
    end.

(** The warnings of [k] grew by paths of [l]. *)
Definition grewBy (w w' : JsObject.t (list string)) (k : string) (l : list string) : Prop :=
  exists more, warned w' k = warned w k ++ more /\ incl more l.

End Engine.

Arguments Returned {IS A} a.
Arguments Thrown {IS A} e.

(** ** The CI hook

    The function that is run on a component once it is stored: it starts a
    CI function when the global configuration asks for one.  The processes
    started so far are the state. *)

(** The arguments of a call of [spawn] and whether [unref] was called on the
    child. *)
Record Spawned := mkSpawned {
  command : string;
  args : list string;
  detached : bool;
  env : list (string * string);
  stdio : list string;
  unrefed : bool
}.

(** What the hook reads: the component class ([component.id.toString()]),
    the two values of the global configuration
    ([globalConfig.getSync(CFG_CI_ENABLE_KEY)] and
    [globalConfig.getSync(CFG_CI_FUNCTION_PATH_KEY)], strings or undefined),
    [process.argv[0]], and [require]: the function exported by the module at
    a path, if the module loads.  A CI function is given the identifier, the
    path of the scope and the processes, and returns the processes and
    whether it returned (true) or threw. *)
Class CiEnv := {
  ConsumerComponent : Type;
  componentIdString : ConsumerComponent -> string;
  enableCI : option string;
  ciFuncPath : option string;
  argv0 : string;
  requireCiFunc : string -> option (string -> string -> list Spawned -> list Spawned * bool)
}.

Section CiHook.

Context {CE : CiEnv}.

Definition defaultCIFunc (i scopePath : string) (procs : list Spawned)
  : list Spawned * bool :=
  let child :=
    mkSpawned argv0 ["./ci-worker.js"] true [("__id__", i); ("__scope__", scopePath)]
              ["ignore"; "ignore"; "ignore"] false in
  (procs ++ [mkSpawned (command child) (args child) (detached child) (env child)
                       (stdio child) true], true).

(** The default export: [None] when an exception leaves the function. *)
Definition ciHook (component : ConsumerComponent) (scopePath : string) (procs : list Spawned)
  : option ConsumerComponent * list Spawned :=
  if negb (truthy enableCI) && negb (truthy ciFuncPath) then (Some component, procs)
  else
    let i := componentIdString component in
    let ciFunc :=
      if negb (truthy ciFuncPath) then Some defaultCIFunc
      else match ciFuncPath with
           | Some p => requireCiFunc p
           | None => None
           end in
    match ciFunc with
    | None => (None, procs)
    | Some f =>
        let '(procs', returned) := f i scopePath procs in
        if returned then (Some component, procs') else (None, procs')
    end.

(** The worker of the default CI function for an identifier and a scope. *)
Definition ciWorker (i scopePath : string) : Spawned :=
  mkSpawned argv0 ["./ci-worker.js"] true [("__id__", i); ("__scope__", scopePath)]
            ["ignore"; "ignore"; "ignore"] true.

End CiHook.

(** ** A small implementation of the collaborators

    One implementation of every interface, simple enough to run the engine on
    concrete inputs: paths are slash-separated strings, the disk is a list of
    files and a list of directories with the files under them, [glob] matches
    a literal path, the index is an object from identifier strings to
    records, and an identifier is its string. *)
Module Sample.

Local Open Scope string_scope.

Fixpoint splitOn (sep : ascii) (s : string) : list string :=
  match s with
  | EmptyString => [EmptyString]
  | String c r =>
      if Ascii.eqb c sep then EmptyString :: splitOn sep r
      else match splitOn sep r with
           | [] => [String c EmptyString]
           | h :: t => String c h :: t
           end
  end.

Fixpoint joinWith (sep : string) (l : list string) : string :=
  match l with
  | [] => ""
  | [x] => x
  | x :: r => x ++ sep ++ joinWith sep r
  end.

Definition basename (p : string) : string := last (splitOn "/"%char p) "".

Definition dirname (p : string) : string := joinWith "/" (removelast (splitOn "/"%char p)).

Definition stem (p : string) : string :=
  match splitOn "."%char (basename p) with
  | [] => ""
  | [x] => x
  | l => joinWith "." (removelast l)
  end.

(** [s] with every occurrence of [needle] replaced; [skip] characters are
    dropped first. *)
Fixpoint replaceFrom (needle repl : string) (skip : nat) (s : string) : string :=
  match s with
  | EmptyString => EmptyString
  | String c r =>
      match skip with
      | S k => replaceFrom needle repl k r
      | O =>
          if prefix needle s
          then repl ++ replaceFrom needle repl (String.length needle - 1) r
          else String c (replaceFrom needle repl 0 r)
      end
  end.

(** Node's [path] for a process whose working directory is the directory
    [sub] of [/work] ([/work] itself when [sub] is empty). *)
Definition paths (sub : string) : PathLib := {|
  path_join := fun a b => a ++ "/" ++ b;
  path_relative := fun from to =>
    if prefix (from ++ "/") to
    then substring (String.length from + 1) (String.length to) to else to;
  path_basename := basename;
  path_normalize := fun p => p;
  path_resolve := fun p => "/work/" ++ sub ++ p;
  path_dirname := dirname;
  path_split := splitOn "/"%char;
  path_parse_dir := dirname;
  path_parse_name := stem
|}.

Definition pathsAtRoot : PathLib := paths "".

Record Disk := mkDisk {
  filesOnDisk : list string;
  dirsOnDisk : list (string * list string)
}.

Definition onDisk (d : Disk) (p : string) : bool :=
  includes (filesOnDisk d) p || includes (map fst (dirsOnDisk d)) p.

Definition disk (d : Disk) : FileSystem := {|
  existsSync := onDisk d;
  fs_existsSync := onDisk d;
  isDir := includes (map fst (dirsOnDisk d));
  glob := fun p => if onDisk d p then [p] else [];
  globIgnoring := fun _ p => if onDisk d p then [p] else [];
  globFilesIn := fun _ pattern =>
    flat_map (fun e => if (fst e ++ "/**") =? pattern then snd e else []) (dirsOnDisk d);
  ignoreFilter := fun _ l => l;
  retrieveIgnoreList := fun _ => [];
  getMissingTestFiles := fun _ => [];
  isAutoGeneratedFile := fun _ => false
|}.

(** The placeholders [{PARENT}] and [{FILE_NAME}] of a file: the name of
    its directory and its base name without the extension. *)
Definition helpers : Helpers := {|
  FileInfo := string;
  calculateFileInfo := fun file => file;
  format := fun dsl file =>
    replaceFrom "{FILE_NAME}" (stem file) 0
      (replaceFrom "{PARENT}" (basename (dirname file)) 0 dsl);
  matchesRegexPattern := fun s =>
    match index 0 "{" s with Some _ => true | None => false end;
  pathNormalizeToLinux := fun p => p;
  normalizeUndefined := None;
  pathJoinLinux := fun a b c =>
    match a with Some x => x ++ "/" ++ b ++ "/" ++ c | None => b ++ "/" ++ c end;
  arrayDiff := fun a b => filter (fun x => negb (includes a x)) b;
  DEFAULT_DIST_DIRNAME := "dist"
|}.

Definition ids : IdService := {|
  BitId := string;
  BitId_parse := fun s => s;
  BitId_toString := fun i => i;
  BitId_toStringWithoutVersion := fun i => i;
  BitId_getValidBitId := fun ns n =>
    match ns, n with
    | Some a, Some b => a ++ "/" ++ b
    | None, Some b => b
    | Some a, None => a
    | None, None => ""
    end
|}.

(** The consumer is in [/work] and the working directory is its directory
    [sub] ([/work] itself when [sub] is empty): a path relative to the
    working directory is, from the consumer, [sub] followed by it. *)
Definition consumer (sub : string) : ConsumerOps := {|
  getPath := "/work";
  getPathRelativeToConsumer := fun p => sub ++ p;
  distTarget := false
|}.

(** The path of a file of a record, from the consumer: under the root
    directory of the record when it has one. *)
Definition trackedPath (cm : ComponentMap) (f : ComponentMapFile) : string :=
  match cmRootDir cm with
  | Some root => root ++ "/" ++ relativePath f
  | None => relativePath f
  end.

Fixpoint ownerOf (bm : JsObject.t ComponentMap) (p : string) : option string :=
  match bm with
  | [] => None
  | (k, cm) :: r =>
      if existsb (fun f => trackedPath cm f =? p) (cmFiles cm) then Some k else ownerOf r p
  end.

Definition index : @IndexOps ids :=
  @Build_IndexOps ids (JsObject.t ComponentMap)
    (fun bm i => JsObject.get bm i)
    (fun bm i => match i with Some s => JsObject.get bm s | None => None end)
    ownerOf
    (fun bm s => match JsObject.get bm s with Some _ => Some s | None => None end)
    (fun bm o => filter (fun e => originEqb (origin (snd e)) o) bm)
    (fun bm i l mainF root o _ =>
       let cm := mkComponentMap o root l mainF in
       (match i with Some s => JsObject.set bm s cm | None => bm end, Returned cm))
    (fun bm i n p =>
       match i with
       | Some s =>
           match JsObject.get bm s with
           | Some cm =>
               match nth_error (cmFiles cm) n with
               | Some f =>
                   JsObject.set bm s
                     (mkComponentMap (origin cm) (cmRootDir cm)
                        (replaceAt (cmFiles cm) n (mkFile p (test f) (name f)))
                        (cmMainFile cm))
               | None => bm
               end
           | None => bm
           end
       | None => bm
       end).


(** A run of the engine on a disk, from a working directory, with the
    properties [this], on an index. *)
Definition resolve (d : Disk) (sub : string) (this : AddProps) (bm : JsObject.t ComponentMap) :=
  @resolveComponents (paths sub) (disk d) helpers ids (consumer sub) index this bm.

Definition run (d : Disk) (sub : string) (this : AddProps) (bm : JsObject.t ComponentMap) :=
  @add (paths sub) (disk d) helpers ids (consumer sub) index this
    (@mkMem ids index bm JsObject.empty []).

End Sample.

(** ** Runs on small working trees

    The trees, indexes and command lines of the examples. *)
Module Scenario.

Import Sample.
Local Open Scope string_scope.

(** A command line with paths and, maybe, an identifier. *)
Definition bare (paths : list string) (i : option string) : AddProps :=
  mkAddProps paths i None None [] [] false.

(** A fresh run on an index: no warnings, nothing written. *)
Definition fresh (bm : JsObject.t ComponentMap) : @Mem ids index :=
  @mkMem ids index bm JsObject.empty [].

(** A working tree without files. *)
Definition emptyTree : Disk := mkDisk [] [].

(** An index with an imported component and an authored one, and the tree
    of their files. *)
Definition vendoredIndex : JsObject.t ComponentMap :=
  [("lib/util",
    mkComponentMap IMPORTED (Some "components/lib/util")
      [mkFile "index.js" false "index.js"] (Some "index.js"));
   ("my/other",
    mkComponentMap AUTHORED None [mkFile "src/foo.js" false "foo.js"] (Some "src/foo.js"))].

Definition vendoredTree : Disk :=
  mkDisk ["src/foo.js"; "components/lib/util/index.js"] [].

Definition utilIndexJs : ComponentMapFile :=
  mkFile "components/lib/util/index.js" false "index.js".

Definition fooJs : ComponentMapFile := mkFile "src/foo.js" false "foo.js".

(** The reconciler at its first file, for a component that has no record
    of its own in [vendoredIndex], and for the component [lib/util]. *)
Definition atStart : @Reconciling ids index := @mkReconciling ids index None (fresh vendoredIndex).

Definition atStartOfUtil : @Reconciling ids index :=
  @mkReconciling ids index (JsObject.get vendoredIndex "lib/util") (fresh vendoredIndex).

(** [atStart] after the warning about [src/foo.js]. *)
Definition afterWarning : @Reconciling ids index :=
  @mkReconciling ids index None
    (@mkMem ids index vendoredIndex [("my/other", ["src/foo.js"])] []).

(** A source file and its test side by side. *)
Definition sourceAndTest : Disk := mkDisk ["a.js"; "a.spec.js"] [].

(** A source file next to a file named [__proto__]. *)
Definition withProtoFile : Disk := mkDisk ["a.js"; "__proto__"] [].

Definition aJs : ComponentMapFile := mkFile "a.js" false "a.js".
Definition bJs : ComponentMapFile := mkFile "b.js" false "b.js".
Definition aSpecJs (isTest : bool) : ComponentMapFile := mkFile "a.spec.js" isTest "a.spec.js".

(** [add a.spec.js a.js --id my/comp --tests "{FILE_NAME}.spec.js"], and
    the components of its two paths. *)
Definition testFirst : AddProps :=
  mkAddProps ["a.spec.js"; "a.js"] (Some "my/comp") None None ["{FILE_NAME}.spec.js"] []
             false.

Definition ofTest : @AddedComponent ids := @mkAdded ids (Some "my/comp") [aSpecJs false] None None.

Definition ofSource : @AddedComponent ids :=
  @mkAdded ids (Some "my/comp") [aSpecJs true; aJs] None None.

(** Two files. *)
Definition twoFiles : Disk := mkDisk ["a.js"; "b.js"] [].

(** [add a.js b.js --id my/comp --main "{FILE_NAME}.js" --exclude a.js],
    and the components of its two paths. *)
Definition firstExcluded : AddProps :=
  mkAddProps ["a.js"; "b.js"] (Some "my/comp") (Some "{FILE_NAME}.js") None [] ["a.js"]
             false.

Definition ofA : @AddedComponent ids := @mkAdded ids (Some "my/comp") [aJs] (Some "a.js") None.
Definition ofB : @AddedComponent ids := @mkAdded ids (Some "my/comp") [bJs] (Some "b.js") None.

(** A component of the two files whose main file is [a.js]. *)
Definition ofAWithB : @AddedComponent ids :=
  @mkAdded ids (Some "my/comp") [aJs; bJs] (Some "a.js") None.

(** A directory of sources and, outside it, an entry file for each of its
    sub-directories. *)
Definition sourcesAndEntries : Disk :=
  mkDisk ["main/a.js"; "main/b.js"] [("src", ["src/a/x.js"; "src/b/y.js"])].

Definition xJs : ComponentMapFile := mkFile "src/a/x.js" false "x.js".
Definition yJs : ComponentMapFile := mkFile "src/b/y.js" false "y.js".
Definition mainAJs : ComponentMapFile := mkFile "main/a.js" false "a.js".

(** [add src --main "main/{PARENT}.js"] *)
Definition entryByParent : AddProps :=
  mkAddProps ["src"] None (Some "main/{PARENT}.js") None [] [] false.

(** Two directories with a file each, and the components of
    [add a b]. *)
Definition twoDirectories : Disk := mkDisk [] [("a", ["a/x.js"]); ("b", ["b/y.js"])].

Definition ofDirA : @AddedComponent ids :=
  @mkAdded ids (Some "work/a") [mkFile "a/x.js" false "x.js"] None (Some "a").

Definition ofDirB : @AddedComponent ids :=
  @mkAdded ids (Some "work/b") [mkFile "b/y.js" false "y.js"] None (Some "b").

(** A test file and nothing else. *)
Definition onlyATest : Disk := mkDisk ["foo.spec.js"] [].

(** [add nothing.js --id my/comp --tests foo.spec.js] *)
Definition testsOnly : AddProps :=
  mkAddProps ["nothing.js"] (Some "my/comp") None None ["foo.spec.js"] [] false.

(** [add a.spec.js a.js --tests a.spec.js] *)
Definition testAmongPaths : AddProps :=
  mkAddProps ["a.spec.js"; "a.js"] None None None ["a.spec.js"] [] false.

(** An index with one authored component, and a component of two files of
    which the first belongs to it. *)
Definition authoredIndex : JsObject.t ComponentMap :=
  [("my/other",
    mkComponentMap AUTHORED None [mkFile "src/foo.js" false "foo.js"] (Some "src/foo.js"))].

Definition barJs : ComponentMapFile := mkFile "src/bar.js" false "bar.js".

Definition fooAndBar : @AddedComponent ids := @mkAdded ids (Some "src/comp") [fooJs; barJs] None None.

(** An index with a component that came as a dependency. *)
Definition nestedIndex : JsObject.t ComponentMap :=
  [("dep/lib", mkComponentMap NESTED (Some "components/.dependencies/dep/lib") [] None)].

(** The disk [d], where the files of [generated] are auto-generated
    files. *)
Definition diskWithGenerated (d : Disk) (generated : list string) : FileSystem := {|
  existsSync := @existsSync (disk d);
  fs_existsSync := @fs_existsSync (disk d);
  isDir := @isDir (disk d);
  glob := @glob (disk d);
  globIgnoring := @globIgnoring (disk d);
  globFilesIn := @globFilesIn (disk d);
  ignoreFilter := @ignoreFilter (disk d);
  retrieveIgnoreList := @retrieveIgnoreList (disk d);
  getMissingTestFiles := @getMissingTestFiles (disk d);
  isAutoGeneratedFile := includes generated
|}.

(** The tree [d] with a check of the test files: the patterns without
    placeholder that name nothing on disk are reported missing. *)
Definition diskCheckingTests (d : Disk) : FileSystem := {|
  existsSync := @existsSync (disk d);
  fs_existsSync := @fs_existsSync (disk d);
  isDir := @isDir (disk d);
  glob := @glob (disk d);
  globIgnoring := @globIgnoring (disk d);
  globFilesIn := @globFilesIn (disk d);
  ignoreFilter := @ignoreFilter (disk d);
  retrieveIgnoreList := @retrieveIgnoreList (disk d);
  getMissingTestFiles := filter (fun t => negb (onDisk d t));
  isAutoGeneratedFile := @isAutoGeneratedFile (disk d)
|}.

(** [add nothing.js --id my/comp --tests foo.spec.js gone.spec.js] *)
Definition oneTestGone : AddProps :=
  mkAddProps ["nothing.js"] (Some "my/comp") None None ["foo.spec.js"; "gone.spec.js"] []
    false.

(** [add a.js --id my/comp --main "{FILE_NAME}.js" --exclude a.js] *)
Definition onlyFileExcluded : AddProps :=
  mkAddProps ["a.js"] (Some "my/comp") (Some "{FILE_NAME}.js") None [] ["a.js"] false.

(** A directory without files. *)
Definition emptyDirectory : Disk := mkDisk [] [("empty", [])].

(** Two files of the same name but for the extension. *)
Definition sameName : Disk := mkDisk ["x/a.js"; "x/a.ts"] [].

Definition ofAJs : @AddedComponent ids :=
  @mkAdded ids (Some "x/a") [mkFile "x/a.js" false "a.js"] None None.

Definition ofATs : @AddedComponent ids :=
  @mkAdded ids (Some "x/a") [mkFile "x/a.ts" false "a.ts"] None None.

(** [add x/a.js x/a.ts --main x/a.js --exclude x/a.js] *)
Definition mainOfBothExcluded : AddProps :=
  mkAddProps ["x/a.js"; "x/a.ts"] None (Some "x/a.js") None [] ["x/a.js"] false.

(** A configuration that enables CI and names no function. *)
Definition ciEnabled : CiEnv := {|
  ConsumerComponent := string;
  componentIdString := fun c => c;
  enableCI := Some "true";
  ciFuncPath := None;
  argv0 := "node";
  requireCiFunc := fun _ => None
|}.

End Scenario.

(** * Properties *)

(** ** Objects *)

Lemma get_set_same (V : Type) (o : JsObject.t V) (k : string) (v : V) :
  JsObject.get (JsObject.set o k v) k = Some v.
Proof.
  induction o as [|[k' v'] r IH]; simpl.
  - now rewrite String.eqb_refl.
  - destruct (k' =? k) eqn:E; simpl; rewrite E; auto.
Qed.

Lemma keys_singleton (V : Type) (k : string) (v : V) :
  JsObject.keys (JsObject.set JsObject.empty k v) = [k].
Proof.
  unfold JsObject.keys, JsObject.ownKeys, JsObject.isNamed; simpl.
  destruct (JsObject.arrayIndex k); reflexivity.
Qed.

Lemma insertIndex_perm (x : N * string) (l : list (N * string)) :
  Permutation (JsObject.insertIndex x l) (x :: l).
Proof.
  induction l as [|y l IH]; simpl; [apply Permutation_refl|].
  destruct (N.leb (fst x) (fst y)); [apply Permutation_refl|].
  eapply perm_trans; [apply perm_skip, IH|apply perm_swap].
Qed.

(** [Object.keys] lists every own key once. *)
Lemma ownKeys_perm (ks : list string) : Permutation (JsObject.ownKeys ks) ks.
Proof.
  unfold JsObject.ownKeys. induction ks as [|k r IH]; simpl; [apply Permutation_refl|].
  unfold JsObject.isNamed at 1. destruct (JsObject.arrayIndex k) as [n|].
  - eapply perm_trans.
    + apply Permutation_app_tail, Permutation_map, insertIndex_perm.
    + simpl. now apply perm_skip.
  - eapply perm_trans; [apply Permutation_sym, Permutation_middle|]. now apply perm_skip.
Qed.

Lemma keys_In (V : Type) (o : JsObject.t V) (k : string) :
  In k (JsObject.keys o) <-> In k (map fst o).
Proof.
  unfold JsObject.keys. split; apply Permutation_in;
    [apply ownKeys_perm|apply Permutation_sym, ownKeys_perm].
Qed.

Lemma keys_length (V : Type) (o : JsObject.t V) : length (JsObject.keys o) = length o.
Proof.
  unfold JsObject.keys. rewrite (Permutation_length (ownKeys_perm (map fst o))).
  apply length_map.
Qed.

Lemma get_In (V : Type) (o : JsObject.t V) (k : string) (v : V) :
  JsObject.get o k = Some v -> In (k, v) o.
Proof.
  induction o as [|[k' v'] r IH]; simpl; [discriminate|].
  destruct (k' =? k) eqn:E.
  - intro H; inversion H; subst. apply String.eqb_eq in E. subst. now left.
  - intro H. right. now apply IH.
Qed.

Lemma delete_incl (V : Type) (o : JsObject.t V) (k : string) (e : string * V) :
  In e (JsObject.delete o k) -> In e o.
Proof.
  induction o as [|[k' v'] r IH]; simpl; [tauto|].
  destruct (k' =? k); simpl; [tauto|]. intros [H|H]; [now left|right; now apply IH].
Qed.

Lemma set_In (V : Type) (o : JsObject.t V) (k : string) (v : V) (e : string * V) :
  In e (JsObject.set o k v) -> e = (k, v) \/ In e o.
Proof.
  induction o as [|[k' v'] r IH]; simpl.
  - intros [H|[]]; now left.
  - destruct (k' =? k) eqn:E; simpl.
    + apply String.eqb_eq in E. subst. intros [H|H]; [now left|right; now right].
    + intros [H|H]; [right; now left|]. destruct (IH H); [now left|right; now right].
Qed.

Lemma delete_keeps (V : Type) (o : JsObject.t V) (x k : string) (v : V) :
  k <> x -> In (k, v) o -> In (k, v) (JsObject.delete o x).
Proof.
  intro Hne. induction o as [|[k' v'] r IH]; simpl; [tauto|].
  destruct (k' =? x) eqn:E; simpl.
  - apply String.eqb_eq in E. subst k'. intros [H|H]; [|assumption].
    inversion H; subst. now contradiction Hne.
  - intros [H|H]; [now left|right; now apply IH].
Qed.

Lemma delete_removes (V : Type) (o : JsObject.t V) (x : string) :
  NoDup (map fst o) -> ~ In x (map fst (JsObject.delete o x)).
Proof.
  induction o as [|[k' v'] r IH]; simpl; intro H; [tauto|].
  inversion H; subst.
  destruct (k' =? x) eqn:E; simpl.
  - apply String.eqb_eq in E. now subst k'.
  - apply String.eqb_neq in E. intros [Hk|Hk]; [contradiction|]. now apply IH.
Qed.

Lemma delete_keys_NoDup (V : Type) (o : JsObject.t V) (x : string) :
  NoDup (map fst o) -> NoDup (map fst (JsObject.delete o x)).
Proof.
  induction o as [|[k' v'] r IH]; simpl; intro H; [assumption|].
  inversion H; subst.
  destruct (k' =? x); simpl; [assumption|].
  constructor; [|now apply IH].
  intro Hin. apply in_map_iff in Hin as ([k v] & Hk & Hin). simpl in Hk. subst k.
  apply delete_incl in Hin. apply (in_map fst) in Hin. contradiction.
Qed.

Lemma singleton_of_member (A : Type) (l : list A) (x : A) :
  length l = 1 -> In x l -> l = [x].
Proof.
  destruct l as [|y [|z l]]; simpl; try discriminate.
  intros _ [H|[]]. now subst.
Qed.

Lemma get_set_other (V : Type) (o : JsObject.t V) (k k' : string) (v : V) :
  k <> k' -> JsObject.get (JsObject.set o k v) k' = JsObject.get o k'.
Proof.
  intro Hne. induction o as [|[k0 v0] r IH]; simpl.
  - apply String.eqb_neq in Hne. now rewrite Hne.
  - destruct (k0 =? k) eqn:E; simpl.
    + apply String.eqb_eq in E. subst k0.
      apply String.eqb_neq in Hne. now rewrite Hne.
    + destruct (k0 =? k'); [reflexivity|exact IH].
Qed.

Lemma set_keys_In (V : Type) (o : JsObject.t V) (k k' : string) (v : V) :
  In k' (map fst (JsObject.set o k v)) <-> k' = k \/ In k' (map fst o).
Proof.
  induction o as [|[k0 v0] r IH]; simpl.
  - intuition.
  - destruct (k0 =? k) eqn:E; simpl.
    + apply String.eqb_eq in E. subst k0. intuition.
    + rewrite IH. intuition.
Qed.

Lemma set_keys_NoDup (V : Type) (o : JsObject.t V) (k : string) (v : V) :
  NoDup (map fst o) -> NoDup (map fst (JsObject.set o k v)).
Proof.
  induction o as [|[k0 v0] r IH]; simpl; intro H.
  - constructor; [intros []|constructor].
  - destruct (k0 =? k) eqn:E; simpl; [exact H|].
    inversion H; subst. constructor; [|now apply IH].
    rewrite set_keys_In. intros [Hk|Hk]; [|contradiction].
    subst k0. now rewrite String.eqb_refl in E.
Qed.

Section Grouping.

Variable A : Type.
Variable key : A -> string.

Lemma groupby_keys_In (l : list A) (o : JsObject.t (list A)) (k : string) :
  In k (map fst (JsObject.groupby key l o)) <-> In k (map fst o) \/ In k (map key l).
Proof.
  revert o; induction l as [|x l IH]; intro o; simpl; [intuition|].
  destruct (JsObject.get o (key x)); rewrite IH, set_keys_In; intuition.
Qed.

Lemma groupby_keys_NoDup (l : list A) (o : JsObject.t (list A)) :
  NoDup (map fst o) -> NoDup (map fst (JsObject.groupby key l o)).
Proof.
  revert o; induction l as [|x l IH]; intros o H; simpl; [exact H|].
  destruct (JsObject.get o (key x)); apply IH; now apply set_keys_NoDup.
Qed.

Lemma groupby_get (l : list A) (o : JsObject.t (list A)) (k : string) :
  JsObject.get (JsObject.groupby key l o) k =
    match JsObject.get o k with
    | Some g => Some (g ++ keyed key l k)
    | None => match keyed key l k with [] => None | fl => Some fl end
    end.
Proof.
  revert o; induction l as [|x l IH]; intro o; simpl.
  - destruct (JsObject.get o k); [now rewrite app_nil_r|reflexivity].
  - destruct (key x =? k) eqn:E.
    + apply String.eqb_eq in E. subst k.
      destruct (JsObject.get o (key x)) as [g|]; rewrite IH, get_set_same.
      * now rewrite <- app_assoc.
      * reflexivity.
    + apply String.eqb_neq in E.
      destruct (JsObject.get o (key x)) as [g|]; rewrite IH, get_set_other by assumption;
        reflexivity.
Qed.

Lemma keyed_nonempty (l : list A) (k : string) : In k (map key l) -> keyed key l k <> [].
Proof.
  intros H Hnil. apply in_map_iff in H as (x & Hx & Hin).
  assert (Hf : In x (keyed key l k)).
  { apply filter_In. split; [assumption|]. subst k. apply String.eqb_refl. }
  rewrite Hnil in Hf. destruct Hf.
Qed.

End Grouping.

Lemma get_of_key (V : Type) (o : JsObject.t V) (k : string) :
  In k (map fst o) -> exists v, JsObject.get o k = Some v.
Proof.
  induction o as [|[k' v'] r IH]; simpl; [tauto|].
  destruct (k' =? k) eqn:E; [eauto|].
  intros [H|H]; [|now apply IH]. subst k'. now rewrite String.eqb_refl in E.
Qed.

Lemma keys_NoDup (V : Type) (o : JsObject.t V) :
  NoDup (map fst o) -> NoDup (JsObject.keys o).
Proof.
  intro H. unfold JsObject.keys.
  eapply Permutation_NoDup; [apply Permutation_sym, ownKeys_perm|exact H].
Qed.

Section Uniq.

Variable A : Type.
Variable key : A -> string.

Lemma uniqBy_incl (seen : list string) (l : list A) (x : A) :
  In x (uniqBy key seen l) -> In x l.
Proof.
  revert seen; induction l as [|y l IH]; intros seen H; simpl in *; [assumption|].
  destruct (existsb (String.eqb (key y)) seen).
  - right. eapply IH; eauto.
  - destruct H as [H|H]; [now left|right; eapply IH; eauto].
Qed.

Lemma seen_In (seen : list string) (k : string) :
  existsb (String.eqb k) seen = true <-> In k seen.
Proof.
  rewrite existsb_exists. split.
  - intros (y & Hy & E). apply String.eqb_eq in E. now subst.
  - intro H. exists k. split; [assumption|apply String.eqb_refl].
Qed.

Lemma uniqBy_keys (seen : list string) (l : list A) (k : string) :
  In k (map key (uniqBy key seen l)) <-> In k (map key l) /\ ~ In k seen.
Proof.
  revert seen; induction l as [|y l IH]; intro seen; simpl; [tauto|].
  destruct (existsb (String.eqb (key y)) seen) eqn:E.
  - apply seen_In in E. rewrite IH. split.
    + intros [H1 H2]. auto.
    + intros [[H1|H1] H2]; [subst k; contradiction|auto].
  - assert (Hn : ~ In (key y) seen) by (rewrite <- seen_In; congruence).
    simpl. rewrite IH. simpl. split.
    + intros [H|[H1 H2]]; [subst k; auto|]. split; [now right|]. intro; apply H2; now right.
    + intros [[H|H] H2]; [now left|]. destruct (string_dec (key y) k) as [E'|E'];
        [now left|]. right. split; [assumption|]. intros [H3|H3]; contradiction.
Qed.

Lemma uniqBy_NoDup (seen : list string) (l : list A) :
  NoDup (map key (uniqBy key seen l)).
Proof.
  revert seen; induction l as [|y l IH]; intro seen; simpl; [constructor|].
  destruct (existsb (String.eqb (key y)) seen); [apply IH|].
  simpl. constructor; [|apply IH].
  rewrite uniqBy_keys. intros [_ H]. apply H. now left.
Qed.

(** An element kept is the first element of its key. *)
Lemma uniqBy_first (seen : list string) (l : list A) (x : A) :
  In x (uniqBy key seen l) -> find (fun y => key y =? key x) l = Some x.
Proof.
  revert seen; induction l as [|y l IH]; intros seen H; simpl in *; [destruct H|].
  destruct (existsb (String.eqb (key y)) seen) eqn:E.
  - destruct (key y =? key x) eqn:E'.
    + apply String.eqb_eq in E'.
      assert (Hk : In (key x) (map key (uniqBy key seen l))) by (now apply in_map).
      apply uniqBy_keys in Hk as [_ Hk]. apply seen_In in E. rewrite E' in E. contradiction.
    + eapply IH; eauto.
  - destruct H as [H|H].
    + subst y. now rewrite String.eqb_refl.
    + destruct (key y =? key x) eqn:E'; [|eapply IH; eauto].
      apply String.eqb_eq in E'.
      assert (Hk : In (key x) (map key (uniqBy key (key y :: seen) l))) by (now apply in_map).
      apply uniqBy_keys in Hk as [_ Hk]. exfalso. apply Hk. now left.
Qed.

(** A list without two elements of the same key is left as it is. *)
Lemma uniqBy_id (seen : list string) (l : list A) :
  NoDup (map key l) -> (forall k, In k (map key l) -> ~ In k seen) ->
  uniqBy key seen l = l.
Proof.
  revert seen; induction l as [|y l IH]; intros seen Hnd Hs; simpl; [reflexivity|].
  inversion Hnd; subst.
  destruct (existsb (String.eqb (key y)) seen) eqn:E.
  - apply seen_In in E. exfalso. apply (Hs (key y)); [now left|assumption].
  - f_equal. apply IH; [assumption|].
    intros k Hk [Hk'|Hk']; [subst k; contradiction|]. apply (Hs k); [now right|assumption].
Qed.

Lemma keyed_NoDup (l : list A) :
  NoDup (map key l) <-> forall k, length (keyed key l k) <= 1.
Proof.
  induction l as [|x l IH]; simpl.
  - split; [intros _ k; simpl; lia|constructor].
  - split.
    + intros H k. inversion H; subst. unfold keyed; simpl.
      destruct (key x =? k) eqn:E.
      * apply String.eqb_eq in E. subst k. simpl.
        destruct (filter (fun y => key y =? key x) l) as [|z r] eqn:F; [simpl; lia|].
        exfalso. assert (Hz : In z (filter (fun y => key y =? key x) l)) by (rewrite F; now left).
        apply filter_In in Hz as [Hz Ez]. apply String.eqb_eq in Ez.
        apply H2. rewrite <- Ez. now apply in_map.
      * apply IH; assumption.
    + intro H. constructor.
      * intro Hin. specialize (H (key x)). unfold keyed in H; simpl in H.
        rewrite String.eqb_refl in H. simpl in H.
        pose proof (keyed_nonempty key l (key x) Hin) as Hne. unfold keyed in Hne.
        destruct (filter (fun y => key y =? key x) l); [congruence|simpl in H; lia].
      * apply IH. intro k. specialize (H k). unfold keyed in *; simpl in H.
        destruct (key x =? k); simpl in H; lia.
Qed.

End Uniq.

Lemma uniq_In (l : list string) (x : string) : In x (uniq l) <-> In x l.
Proof.
  unfold uniq.
  pose proof (uniqBy_keys (fun s : string => s) [] l x) as H.
  rewrite !map_id in H. rewrite H. simpl. tauto.
Qed.

Section Properties.

Context {PL : PathLib} {FS : FileSystem} {HP : Helpers} {IS : IdService} {CO : ConsumerOps}
        {IX : IndexOps}.

Variable this : AddProps.

Notation "x <- m ;; k" := (bind m (fun x => k))
  (at level 100, m at next level, right associativity).

(** ** The path validator *)

Lemma validatePathsFrom_first_missing (pre post : list string) (p : string) (stats : PathsStats) :
  forallb existsSync pre = true ->
  existsSync p = false ->
  validatePathsFrom (pre ++ p :: post) stats = Thrown (PathsNotExist [p]).
Proof.
  revert stats; induction pre as [|x pre IH]; intros stats Hpre Hp; simpl in *.
  - now rewrite Hp.
  - apply andb_prop in Hpre as [Hx Hpre]. rewrite Hx; simpl. now apply IH.
Qed.

(** C8, as the code has it: when a path of the list does not exist, the
    validator throws [PathsNotExist] with a list of one path, the first path
    of the list that does not exist. *)
Theorem validatePaths_throws_first_missing (pre post : list string) (p : string) :
  forallb existsSync pre = true ->
  existsSync p = false ->
  validatePaths (pre ++ p :: post) = Thrown (PathsNotExist [p]).
Proof.
  intros; unfold validatePaths; now apply validatePathsFrom_first_missing.
Qed.

Lemma validatePathsFrom_thrown (l : list string) (stats : PathsStats) (e : AddError) :
  validatePathsFrom l stats = Thrown e ->
  exists p, In p l /\ existsSync p = false /\ e = PathsNotExist [p].
Proof.
  revert stats; induction l as [|x l IH]; intros stats H; simpl in H.
  - discriminate.
  - destruct (existsSync x) eqn:Hx; simpl in H.
    + destruct (IH _ H) as (p & Hin & Hp & He). exists p; simpl; auto.
    + inversion H; subst. exists x; simpl; auto.
Qed.

(** ** The states written to storage *)

Lemma reconcileFile_storage (pid : option BitId) (f : ComponentMapFile) (s : Reconciling) :
  storage (mem (snd (reconcileFile this pid f s))) = storage (mem s).
Proof.
  unfold reconcileFile.
  repeat match goal with
         | |- context [match ?x with _ => _ end] => destruct x; simpl; try reflexivity
         end.
Qed.

Lemma reconcileFiles_storage (pid : option BitId) (l : list ComponentMapFile) (s : Reconciling) :
  storage (mem (snd (reconcileFiles this pid l s))) = storage (mem s).
Proof.
  revert s; induction l as [|f l IH]; intro s; simpl; [reflexivity|].
  pose proof (reconcileFile_storage pid f s) as Hf.
  destruct (reconcileFile this pid f s) as [[k|e] s']; simpl in *; [|exact Hf].
  pose proof (IH s') as Hl.
  destruct (reconcileFiles this pid l s') as [[ks|e] s'']; simpl in *; congruence.
Qed.

Lemma addToBitMap_storage (c : AddedComponent) (m : Mem) :
  storage (snd (addToBitMap this c m)) = storage m.
Proof.
  unfold addToBitMap.
  destruct (addComponent _ _ _ _ _ _ _) as [bm [cm|e]]; simpl; [|reflexivity].
  destruct (componentId c); reflexivity.
Qed.

Lemma addOrUpdateComponentInBitMap_storage (c : AddedComponent) (m : Mem) :
  storage (snd (addOrUpdateComponentInBitMap this c m)) = storage m.
Proof.
  unfold addOrUpdateComponentInBitMap.
  pose proof (reconcileFiles_storage (componentId c) (files c)
                (mkReconciling (getComponentLenient (bitMap m) (componentId c)) m)) as H.
  destruct (reconcileFiles _ _ _ _) as [[kept|e] s]; simpl in *; [|exact H].
  destruct kept as [|f kept]; simpl; [exact H|].
  pose proof (addToBitMap_storage
                (mkAdded (componentId c) (f :: kept) (mainFile c) (rootDir c)) (mem s)) as Ha.
  destruct (addToBitMap _ _ _) as [[r|e] m']; simpl in *; congruence.
Qed.

Lemma reconcileComponents_storage (added : list AddedComponent) (m : Mem) :
  storage (snd (reconcileComponents this added m)) = storage m.
Proof.
  revert m; induction added as [|c added IH]; intro m; simpl; [reflexivity|].
  destruct (files c) eqn:Hfiles; [apply IH|].
  pose proof (addOrUpdateComponentInBitMap_storage c m) as Hc.
  destruct (addOrUpdateComponentInBitMap this c m) as [[r|e] m']; simpl in *; [|exact Hc].
  pose proof (IH m') as Hr.
  destruct (reconcileComponents this added m') as [[rs|e] m'']; simpl in *; congruence.
Qed.

(** C3: when the components are resolved and the reconciler has gone
    through all of them, [add] returns their results and has written the
    index once, after the last component was reconciled: the reconciler
    itself has written nothing, and what is written is the index as it left
    it.  When resolution or the reconciler throws, [add] throws the same
    error with the storage as it was.  So a run that returns has written
    exactly once, and a run that throws, at whatever step, has written
    nothing. *)
Theorem add_writes_index_once_at_the_end (m : Mem) :
  (forall added results m1,
     resolveComponents this (bitMap m) = Returned added ->
     reconcileComponents this added m = (Returned results, m1) ->
     add this m = (Returned (mkResults results (warnings m1)), write m1) /\
     storage m1 = storage m /\
     storage (write m1) = bitMap m1 :: storage m) /\
  (forall e, resolveComponents this (bitMap m) = Thrown e ->
             add this m = (Thrown e, m)) /\
  (forall added e m1,
     resolveComponents this (bitMap m) = Returned added ->
     reconcileComponents this added m = (Thrown e, m1) ->
     add this m = (Thrown e, m1) /\ storage m1 = storage m) /\
  match add this m with
  | (Returned r, m') =>
      exists added results m1,
        resolveComponents this (bitMap m) = Returned added /\
        reconcileComponents this added m = (Returned results, m1) /\
        storage m1 = storage m /\
        m' = write m1 /\
        storage m' = bitMap m1 :: storage m
  | (Thrown e, m') => storage m' = storage m
  end.
Proof.
  split; [|split; [|split]].
  - intros added results m1 Hr Hc. unfold add. rewrite Hr, Hc.
    pose proof (reconcileComponents_storage added m) as H. rewrite Hc in H. simpl in H.
    split; [reflexivity|]. split; [exact H|]. unfold write; simpl. now rewrite H.
  - intros e Hr. unfold add. now rewrite Hr.
  - intros added e m1 Hr Hc. unfold add. rewrite Hr, Hc.
    pose proof (reconcileComponents_storage added m) as H. rewrite Hc in H.
    split; [reflexivity|exact H].
  - idtac.
  unfold add.
  destruct (resolveComponents this (bitMap m)) as [added|e]; [|reflexivity].
  pose proof (reconcileComponents_storage added m) as H.
  destruct (reconcileComponents this added m) as [[results|e] m1] eqn:E; simpl in *;
    [|exact H].
  exists added, results, m1.
  repeat split; try assumption. unfold write; simpl. now rewrite H.
Qed.

(** ** The paths that are resolved *)

(** C9: with test patterns, an identifier, and component paths that match
    nothing, the run does not throw [PathsNotExist] for the component paths:
    once the test files pass their own check, the matches of the test
    patterns are validated, so that an error of this step names one of them,
    and the validated matches are the paths of the single component that is
    resolved. *)
Theorem tests_stand_in_for_unmatched_paths (ignoreList : list string) :
  tests this <> [] ->
  truthy (id this) = true ->
  concat (map glob (componentPaths this)) = [] ->
  let resolvedTestFiles := concat (map glob (tests this)) in
  resolvePathsStats this ignoreList =
    match getMissingTestFiles (tests this) with
    | [] => validatePaths resolvedTestFiles
    | missingFiles => Thrown (PathsNotExist missingFiles)
    end /\
  (forall e, getMissingTestFiles (tests this) = [] ->
             resolvePathsStats this ignoreList = Thrown e ->
             exists p, In p resolvedTestFiles /\ existsSync p = false /\
                       e = PathsNotExist [p]) /\
  (forall bm, getMissingTestFiles (tests this) = [] ->
              resolveComponents this bm =
                (componentPathsStats <- validatePaths resolvedTestFiles ;;
                 addedOne <- addOneComponent this bm (getIgnoreList bm) componentPathsStats ;;
                 Returned [addedOne])).
Proof.
  intros Htests Hid Hpaths resolvedTestFiles.
  assert (Hstats : forall il, resolvePathsStats this il =
            match getMissingTestFiles (tests this) with
            | [] => validatePaths resolvedTestFiles
            | missingFiles => Thrown (PathsNotExist missingFiles)
            end).
  { intro il. unfold resolvePathsStats.
    destruct (getMissingTestFiles (tests this)); [|reflexivity].
    rewrite Hpaths, Hid. destruct (tests this); [congruence|reflexivity]. }
  split; [apply Hstats|]. split.
  - intros e Hmiss He. rewrite Hstats, Hmiss in He.
    unfold validatePaths in He. now apply validatePathsFrom_thrown in He.
  - intros bm Hmiss. unfold resolveComponents. rewrite Hstats, Hmiss.
    destruct (validatePaths resolvedTestFiles) as [stats|e]; simpl; [|reflexivity].
    unfold isMultipleComponents. rewrite Hid; simpl. now rewrite andb_false_r.
Qed.

(** ** The index reconciler *)

Lemma reconcileFiles_app (pid : option BitId) (pre l : list ComponentMapFile) (s : Reconciling) :
  reconcileFiles this pid (pre ++ l) s =
    match reconcileFiles this pid pre s with
    | (Thrown e, s') => (Thrown e, s')
    | (Returned kept, s') =>
        match reconcileFiles this pid l s' with
        | (Thrown e, s'') => (Thrown e, s'')
        | (Returned keptRest, s'') => (Returned (kept ++ keptRest), s'')
        end
    end.
Proof.
  revert s; induction pre as [|f pre IH]; intro s; simpl.
  - destruct (reconcileFiles this pid l s) as [[k|e] s']; reflexivity.
  - destruct (reconcileFile this pid f s) as [[k|e] s']; [|reflexivity].
    rewrite IH.
    destruct (reconcileFiles this pid pre s') as [[ks|e] s'']; [|reflexivity].
    destruct (reconcileFiles this pid l s'') as [[kl|e] s3]; [|reflexivity].
    destruct k; reflexivity.
Qed.

Lemma reconcileFiles_throws_at (pid : option BitId) (pre post kept : list ComponentMapFile)
  (file : ComponentMapFile) (s0 s : Reconciling) (e : AddError) :
  reconcileFiles this pid pre s0 = (Returned kept, s) ->
  reconcileFile this pid file s = (Thrown e, s) ->
  reconcileFiles this pid (pre ++ file :: post) s0 = (Thrown e, s).
Proof.
  intros Hpre Hfile. rewrite reconcileFiles_app, Hpre. simpl. now rewrite Hfile.
Qed.

Lemma idOfFileIsDifferent_returns (pid : BitId) (o : option string) :
  exists b, idOfFileIsDifferent (Some pid) o = Returned b.
Proof.
  unfold idOfFileIsDifferent. destruct o as [e|]; [|eauto].
  destruct (truthy (Some e)); eauto.
Qed.

Lemma idOfFileIsDifferent_owned (pid : BitId) (e : string) :
  truthy (Some e) = true ->
  e <> BitId_toString pid ->
  idOfFileIsDifferent (Some pid) (Some e) = Returned true.
Proof.
  intros He Hne. unfold idOfFileIsDifferent. rewrite He.
  apply String.eqb_neq in Hne. now rewrite Hne.
Qed.

(** C1, as the code has it: when the reconciler reaches a file that is not
    auto-generated and whose flag [isImported] is true (the record found for the component's identifier, or the owner of the
    file, has origin IMPORTED), the operation throws
    [MissingComponentIdForImportedComponent] if no identifier was given, and,
    an identifier given, throws [IncorrectIdForImportedComponent] if the
    owner of the file is not the component's identifier. *)
Theorem imported_file_needs_the_owner_id (component : AddedComponent) (m : Mem) (pid : BitId)
  (pre post kept : list ComponentMapFile) (file : ComponentMapFile) (s : Reconciling) :
  componentId component = Some pid ->
  files component = pre ++ file :: post ->
  reconcileFiles this (Some pid) pre
    (mkReconciling (getComponentLenient (bitMap m) (Some pid)) m) = (Returned kept, s) ->
  isAutoGeneratedFile (path_join getPath (relativePath file)) = false ->
  isImportedFile s file = true ->
  (truthy (id this) = false ->
   addOrUpdateComponentInBitMap this component m =
     (Thrown (MissingComponentIdForImportedComponent (BitId_toStringWithoutVersion pid)),
      mem s)) /\
  (forall userId owner,
     id this = Some userId -> truthy (id this) = true ->
     ownerOfFile s file = Some owner -> truthy (Some owner) = true ->
     owner <> BitId_toString pid ->
     addOrUpdateComponentInBitMap this component m =
       (Thrown (IncorrectIdForImportedComponent
                  (BitId_toStringWithoutVersion (BitId_parse owner)) userId),
        mem s)).
Proof.
  intros Hid Hfiles Hpre Hauto Himp.
  unfold isImportedFile, ownerOfFile in Himp.
  split.
  - intro Hno.
    assert (Hf : reconcileFile this (Some pid) file s =
                 (Thrown (MissingComponentIdForImportedComponent
                            (BitId_toStringWithoutVersion pid)), s)).
    { unfold reconcileFile. rewrite Hauto.
      destruct (idOfFileIsDifferent_returns pid
                  (getComponentIdByPath (bitMap (mem s)) (relativePath file))) as [b Hb].
      rewrite Hb, Himp, Hno. reflexivity. }
    unfold addOrUpdateComponentInBitMap. rewrite Hid, Hfiles.
    now rewrite (reconcileFiles_throws_at _ _ post _ _ Hpre Hf).
  - intros userId owner Huser Hyes Howner Htruthy Hne.
    unfold ownerOfFile in Howner.
    assert (Hf : reconcileFile this (Some pid) file s =
                 (Thrown (IncorrectIdForImportedComponent
                            (BitId_toStringWithoutVersion (BitId_parse owner)) userId), s)).
    { unfold reconcileFile. rewrite Hauto, Howner in *.
      rewrite (idOfFileIsDifferent_owned _ Htruthy Hne), Himp, Hyes, Huser. reflexivity. }
    unfold addOrUpdateComponentInBitMap. rewrite Hid, Hfiles.
    now rewrite (reconcileFiles_throws_at _ _ post _ _ Hpre Hf).
Qed.

(** C2, as the code has it: a file that is not an auto-generated file, whose
    owner is another identifier, and whose flag [isImported] is false
    (neither the record found for the component's identifier nor the owner
    has origin IMPORTED) is left out of the component, its path is appended
    to the warnings of its owner's identifier, and the reconciler goes on
    with the files after it. *)
Theorem conflicting_file_is_dropped_with_a_warning (pid : BitId) (file : ComponentMapFile)
  (post : list ComponentMapFile) (s : Reconciling) (owner : string) :
  isAutoGeneratedFile (path_join getPath (relativePath file)) = false ->
  ownerOfFile s file = Some owner -> truthy (Some owner) = true ->
  owner <> BitId_toString pid ->
  isImportedFile s file = false ->
  let before := match JsObject.get (warnings (mem s)) owner with Some l => l | None => [] end in
  let s' := mkReconciling (foundComponentFromBitMap s)
              (mkMem (bitMap (mem s)) (pushWarning (warnings (mem s)) owner (relativePath file))
                     (storage (mem s))) in
  reconcileFile this (Some pid) file s = (Returned None, s') /\
  JsObject.get (warnings (mem s')) owner = Some (before ++ [relativePath file]) /\
  reconcileFiles this (Some pid) (file :: post) s = reconcileFiles this (Some pid) post s'.
Proof.
  intros Hauto Howner Htruthy Hne Himp before s'.
  unfold isImportedFile in Himp. unfold ownerOfFile in *.
  assert (Hf : reconcileFile this (Some pid) file s = (Returned None, s')).
  { unfold reconcileFile. rewrite Hauto, Howner in *.
    rewrite (idOfFileIsDifferent_owned _ Htruthy Hne), Himp. reflexivity. }
  split; [exact Hf|]. split.
  - subst s' before; simpl. unfold pushWarning.
    destruct (JsObject.get (warnings (mem s)) owner); simpl; apply get_set_same.
  - simpl. rewrite Hf.
    destruct (reconcileFiles this (Some pid) post s') as [[k|e] s'']; reflexivity.
Qed.

(** ** The exclusion pass *)

Lemma includes_In (l : list string) (x : string) : includes l x = true <-> In x l.
Proof.
  unfold includes. rewrite existsb_exists. split.
  - intros (y & Hy & E). apply String.eqb_eq in E. now subst.
  - intro H. exists x. split; [assumption|apply String.eqb_refl].
Qed.

Lemma uniteComponents_skips_empty (cid : option BitId) (pre post : list AddedComponent)
  (c : AddedComponent) :
  files c = [] ->
  uniteComponents cid (pre ++ c :: post) = uniteComponents cid (pre ++ post).
Proof.
  intro H. unfold uniteComponents. rewrite !filter_app. simpl. now rewrite H.
Qed.

Lemma reconcileComponents_skips_empty (pre post : list AddedComponent) (c : AddedComponent)
  (m : Mem) :
  files c = [] ->
  reconcileComponents this (pre ++ c :: post) m = reconcileComponents this (pre ++ post) m.
Proof.
  intro Hc. revert m. induction pre as [|x pre IH]; intro m; cbn [app reconcileComponents].
  - now rewrite Hc.
  - destruct (files x); [apply IH|].
    destruct (addOrUpdateComponentInBitMap this x m) as [[r|e] m']; [|reflexivity].
    now rewrite IH.
Qed.

(** C5: the exclusion pass keeps the components in place, with their
    identifier, main file and root directory.  A component whose main file,
    written with forward slashes, is among the files that the exclude
    patterns resolve to loses all its files, whether they are matched or
    not; such a component is left out when the components are united, and
    the reconciler passes over it.  A component whose main file is not among
    them (for a component without main file: what [pathNormalizeToLinux]
    makes of [undefined] is not among them) keeps its files in order, except
    those among the resolved files. *)
Theorem exclusion_empties_or_filters (ignoreList : list string) (comps : list AddedComponent) :
  let resolved := resolveExcludedFiles this ignoreList comps in
  let out := removeExcludedFiles this ignoreList comps in
  length out = length comps /\
  forall i c, nth_error comps i = Some c ->
    exists c', nth_error out i = Some c' /\
      componentId c' = componentId c /\ mainFile c' = mainFile c /\ rootDir c' = rootDir c /\
      (forall m, mainFile c = Some m -> In (pathNormalizeToLinux m) resolved ->
         files c' = [] /\
         (forall cid pre post,
            uniteComponents cid (pre ++ c' :: post) = uniteComponents cid (pre ++ post)) /\
         (forall pre post mem,
            reconcileComponents this (pre ++ c' :: post) mem =
            reconcileComponents this (pre ++ post) mem)) /\
      (match mainFile c with
       | Some m => ~ In (pathNormalizeToLinux m) resolved
       | None => forall u, normalizeUndefined = Some u -> ~ In u resolved
       end ->
         files c' = filter (fun f => negb (includes resolved (relativePath f))) (files c) /\
         forall f, In f (files c') <-> In f (files c) /\ ~ In (relativePath f) resolved).
Proof.
  intros resolved out. split; [apply length_map|].
  intros i c Hc. subst out. unfold removeExcludedFiles. fold resolved.
  rewrite nth_error_map, Hc; simpl.
  assert (Hkeep : forall l f,
            In f (filter (fun f => negb (includes resolved (relativePath f))) l) <->
            In f l /\ ~ In (relativePath f) resolved).
  { intros l f. rewrite filter_In, <- includes_In.
    destruct (includes resolved (relativePath f)); simpl; intuition congruence. }
  eexists; split; [reflexivity|].
  unfold mainFileIsExcluded, normalizedMainFile.
  destruct (mainFile c) as [m|] eqn:Hm.
  - destruct (includes resolved (pathNormalizeToLinux m)) eqn:Hin; simpl.
    + split; [reflexivity|]. split; [reflexivity|]. split; [reflexivity|]. split.
      * intros _ _ _. split; [reflexivity|]. split.
        -- intros; now apply uniteComponents_skips_empty.
        -- intros; now apply reconcileComponents_skips_empty.
      * intro Hno. exfalso. apply Hno. now apply includes_In.
    + split; [reflexivity|]. split; [reflexivity|]. split; [reflexivity|]. split.
      * intros m' Hm' Hin'. inversion Hm'; subst m'.
        apply includes_In in Hin'. congruence.
      * intros _. split; [reflexivity|]. apply Hkeep.
  - destruct normalizeUndefined as [u|] eqn:Hu.
    + destruct (includes resolved u) eqn:Hin; simpl.
      * split; [reflexivity|]. split; [reflexivity|]. split; [reflexivity|]. split.
        -- intros m' Hm'. discriminate.
        -- intro Hno. exfalso. apply (Hno u eq_refl). now apply includes_In.
      * split; [reflexivity|]. split; [reflexivity|]. split; [reflexivity|]. split.
        -- intros m' Hm'. discriminate.
        -- intros _. split; [reflexivity|]. apply Hkeep.
    + simpl. split; [reflexivity|]. split; [reflexivity|]. split; [reflexivity|]. split.
      * intros m' Hm'. discriminate.
      * intros _. split; [reflexivity|]. apply Hkeep.
Qed.

(** ** Main-file resolution *)

Lemma find_none_inFileSet (l : list ComponentMapFile) (p : string) :
  inFileSet l p = false -> find (fun f => relativePath f =? p) l = None.
Proof.
  unfold inFileSet. induction l as [|x l IH]; simpl; [reflexivity|].
  destruct (relativePath x =? p); simpl; [discriminate|exact IH].
Qed.

Lemma find_some_inFileSet (l : list ComponentMapFile) (p : string) :
  inFileSet l p = true ->
  exists f, find (fun f => relativePath f =? p) l = Some f /\ relativePath f = p.
Proof.
  unfold inFileSet. induction l as [|x l IH]; simpl; [discriminate|].
  destruct (relativePath x =? p) eqn:E; simpl.
  - intros _. exists x. split; [reflexivity|now apply String.eqb_eq].
  - exact IH.
Qed.

Lemma mainFileStep_passes (m : string) (l : list ComponentMapFile) (x : ComponentMapFile) :
  inFileSet l (format m (calculateFileInfo (relativePath x))) = false ->
  fs_existsSync (format m (calculateFileInfo (relativePath x))) = false ->
  mainFileStep (m, l) x = (m, l).
Proof.
  intros Hset Hdisk. unfold mainFileStep.
  now rewrite (find_none_inFileSet _ _ Hset), Hdisk.
Qed.

Lemma mainFileStep_settled (g : string) (l : list ComponentMapFile) (x : ComponentMapFile) :
  (forall info, format g info = g) ->
  inFileSet l g = true ->
  mainFileStep (g, l) x = (g, l).
Proof.
  intros Hfix Hset. unfold mainFileStep. rewrite Hfix.
  destruct (find_some_inFileSet _ _ Hset) as (f & Hf & Hp). now rewrite Hf, Hp.
Qed.

Lemma mainFileLoop_settled (g : string) (l post : list ComponentMapFile) :
  (forall info, format g info = g) ->
  inFileSet l g = true ->
  fold_left mainFileStep post (g, l) = (g, l).
Proof.
  intros Hfix Hset. induction post as [|x post IH]; cbn [fold_left]; [reflexivity|].
  now rewrite mainFileStep_settled.
Qed.

Lemma mainFileLoop_passes (m : string) (l pre : list ComponentMapFile) :
  (forall x, In x pre ->
     inFileSet l (format m (calculateFileInfo (relativePath x))) = false /\
     fs_existsSync (format m (calculateFileInfo (relativePath x))) = false) ->
  fold_left mainFileStep pre (m, l) = (m, l).
Proof.
  induction pre as [|x pre IH]; intro H; cbn [fold_left]; [reflexivity|].
  destruct (H x (or_introl eq_refl)) as [Hs Hd].
  rewrite (mainFileStep_passes _ _ _ Hs Hd). apply IH. intros y Hy. apply H. now right.
Qed.

(** C6, as the code has it, for a pattern with placeholders.  The pattern
    is substituted against the files in order.  While a substitution names
    neither a file of the set nor a file on disk, nothing changes.  The
    first substitution that names a file of the set or a file on disk is
    adopted as the main file, and the file is appended to the set when it
    was not in it.  From then on the adopted path takes the place of the
    pattern: when it holds no placeholder, the files after it change neither
    the main file nor the set, so that at most one file is appended.  The
    call then returns the adopted path as the consumer sees it when that
    names a file under the directory of the consumer, and the adopted path
    itself otherwise. *)
Theorem main_file_is_the_first_adoption (pattern : string) (pre post : list ComponentMapFile)
  (file : ComponentMapFile) :
  let fileList := pre ++ file :: post in
  let generated x := format pattern (calculateFileInfo (relativePath x)) in
  let returned g :=
    if fs_existsSync (path_join getPath (getPathRelativeToConsumer g))
    then getPathRelativeToConsumer g else g in
  main this = Some pattern ->
  truthy (Some pattern) = true ->
  matchesRegexPattern pattern = true ->
  truthy (Some (generated file)) = true ->
  (forall x, In x pre ->
     inFileSet fileList (generated x) = false /\ fs_existsSync (generated x) = false) ->
  (forall info, format (generated file) info = generated file) ->
  (inFileSet fileList (generated file) = true ->
   mainFileLoop pattern fileList = (generated file, fileList) /\
   _addMainFileToFiles this fileList = (Some (returned (generated file)), fileList)) /\
  (inFileSet fileList (generated file) = false -> fs_existsSync (generated file) = true ->
   let appended :=
     fileList ++ [mkFile (generated file) false (path_basename (generated file))] in
   mainFileLoop pattern fileList = (generated file, appended) /\
   _addMainFileToFiles this fileList = (Some (returned (generated file)), appended)).
Proof.
  intros fileList generated returned Hmain Hpat Hre Hgen Hpre Hfix.
  assert (Hcall : forall l, mainFileLoop pattern fileList = (generated file, l) ->
                            _addMainFileToFiles this fileList =
                              (Some (returned (generated file)), l)).
  { intros l Hl. unfold _addMainFileToFiles. rewrite Hmain, Hpat, Hre, Hl. simpl andb.
    cbv iota beta. rewrite Hgen. simpl negb. cbv iota. unfold returned.
    now destruct (fs_existsSync _). }
  assert (Hloop :
    (inFileSet fileList (generated file) = true ->
     mainFileLoop pattern fileList = (generated file, fileList)) /\
    (inFileSet fileList (generated file) = false -> fs_existsSync (generated file) = true ->
     mainFileLoop pattern fileList =
       (generated file,
        fileList ++ [mkFile (generated file) false (path_basename (generated file))]))).
  { unfold mainFileLoop. subst fileList.
    rewrite fold_left_app, (mainFileLoop_passes _ _ _ Hpre). cbn [fold_left].
    split.
    - intro Hset.
      destruct (find_some_inFileSet _ _ Hset) as (f & Hf & Hp).
      assert (Hstep : mainFileStep (pattern, pre ++ file :: post) file =
                      (generated file, pre ++ file :: post)).
      { unfold mainFileStep. fold (generated file). now rewrite Hf, Hp. }
      rewrite Hstep. now apply mainFileLoop_settled.
    - intros Hset Hdisk.
      assert (Hstep : mainFileStep (pattern, pre ++ file :: post) file =
                      (generated file,
                       (pre ++ file :: post) ++
                       [mkFile (generated file) false (path_basename (generated file))])).
      { unfold mainFileStep. fold (generated file).
        now rewrite (find_none_inFileSet _ _ Hset), Hdisk. }
      rewrite Hstep.
      apply mainFileLoop_settled; [assumption|].
      unfold inFileSet. rewrite existsb_app. simpl.
      rewrite String.eqb_refl. now rewrite orb_true_r. }
  destruct Hloop as [Hin Hout]. split.
  - intro Hset. split; [now apply Hin|]. apply Hcall. now apply Hin.
  - intros Hset Hdisk appended. split; [now apply Hout|]. apply Hcall. now apply Hout.
Qed.

(** Without an adoption the loop leaves the pattern and the set as they
    were. *)
Lemma main_file_loop_without_adoption (pattern : string) (fileList : list ComponentMapFile) :
  (forall x, In x fileList ->
     inFileSet fileList (format pattern (calculateFileInfo (relativePath x))) = false /\
     fs_existsSync (format pattern (calculateFileInfo (relativePath x))) = false) ->
  mainFileLoop pattern fileList = (pattern, fileList).
Proof.
  intro H. unfold mainFileLoop. now apply mainFileLoop_passes.
Qed.

(** ** The root directory *)

Lemma resolvePath_rootDir (bm : BitMap) (il : list string) (stats : PathsStats)
  (fb fb' : option BitId) (p r : string) (c : AddedComponent) :
  resolvePath this bm il stats fb p = Returned (c, fb') ->
  rootDir c = Some r ->
  JsObject.get stats p = Some true /\ length (JsObject.keys stats) = 1 /\
  r = getPathRelativeToConsumer p.
Proof.
  unfold resolvePath. destruct (JsObject.get stats p) as [[|]|]; [| |discriminate].
  - destruct (ignoreFilter il _) as [|x l]; [discriminate|].
    destruct (_addMainFileToFiles this _) as [mf fl].
    destruct (idFromPath _ _ _ _) as [i|e]; simpl; [|discriminate].
    intros H Hr. inversion H; subst; simpl in Hr.
    destruct (length (JsObject.keys stats) =? 1)%nat eqn:E; [|discriminate].
    apply Nat.eqb_eq in E. inversion Hr. auto.
  - destruct (idFromPath _ _ _ _) as [i|e]; simpl; [|discriminate].
    destruct (_addMainFileToFiles this _) as [mf fl].
    intros H Hr. inversion H; subst; simpl in Hr. discriminate.
Qed.

Lemma resolvePaths_rootDir (bm : BitMap) (il : list string) (stats : PathsStats)
  (paths : list string) (fb fb' : option BitId) (cs : list AddedComponent)
  (c : AddedComponent) (r : string) :
  resolvePaths this bm il stats fb paths = Returned (cs, fb') ->
  In c cs -> rootDir c = Some r ->
  exists p, In p paths /\ JsObject.get stats p = Some true /\
            length (JsObject.keys stats) = 1 /\ r = getPathRelativeToConsumer p.
Proof.
  revert fb cs; induction paths as [|p paths IH]; intros fb cs H Hin Hr; simpl in H.
  - inversion H; subst. destruct Hin.
  - destruct (resolvePath this bm il stats fb p) as [[c1 fb1]|e] eqn:E1; simpl in H;
      [|discriminate].
    destruct (resolvePaths this bm il stats fb1 paths) as [[cs1 fb2]|e] eqn:E2; simpl in H;
      [|discriminate].
    inversion H; subst. destruct Hin as [Hc|Hc].
    + subst c1. exists p. split; [now left|]. eapply resolvePath_rootDir; eauto.
    + destruct (IH _ _ E2 Hc Hr) as (q & Hq & Hrest). exists q. split; [now right|exact Hrest].
Qed.

Lemma removeExcludedFiles_rootDir (il : list string) (comps : list AddedComponent)
  (c : AddedComponent) :
  In c (removeExcludedFiles this il comps) ->
  exists c0, In c0 comps /\ rootDir c0 = rootDir c.
Proof.
  unfold removeExcludedFiles. intro H. apply in_map_iff in H as (c0 & Hc & Hin).
  exists c0. split; [assumption|]. subst c. now destruct (mainFileIsExcluded _ c0).
Qed.

Lemma uniteComponents_rootDir (cid : option BitId) (comps : list AddedComponent) (r : string) :
  rootDir (uniteComponents cid comps) = Some r ->
  exists c, In c comps /\ rootDir c = Some r.
Proof.
  unfold uniteComponents.
  destruct (filter _ comps) as [|c [|c2 l]] eqn:E; simpl; [discriminate| |].
  - intro H. exists c. split; [|assumption].
    assert (Hin : In c (filter (fun c => negb (length (files c) =? 0)%nat) comps))
      by (rewrite E; now left).
    now apply filter_In in Hin.
  - intro H. exists c. split; [|assumption].
    assert (Hin : In c (filter (fun c => negb (length (files c) =? 0)%nat) comps))
      by (rewrite E; now left).
    now apply filter_In in Hin.
Qed.

Lemma addOneComponent_rootDir (bm : BitMap) (il : list string) (stats : PathsStats)
  (c : AddedComponent) (r : string) :
  addOneComponent this bm il stats = Returned c ->
  rootDir c = Some r ->
  exists p, JsObject.keys stats = [p] /\ JsObject.get stats p = Some true /\
            r = getPathRelativeToConsumer p.
Proof.
  unfold addOneComponent. intros H Hr.
  destruct (if truthy (id this) then _ else _) as [fb|e]; simpl in H; [|discriminate].
  destruct (resolvePaths this bm il stats fb (JsObject.keys stats)) as [[cs fb']|e] eqn:E;
    simpl in H; [|discriminate].
  inversion H as [Hc]. rewrite <- Hc in Hr.
  apply uniteComponents_rootDir in Hr as (c1 & Hin & Hr1).
  assert (Hsrc : exists c0, In c0 cs /\ rootDir c0 = Some r).
  { destruct (exclude this); [eauto|].
    apply removeExcludedFiles_rootDir in Hin as (c0 & Hin0 & Hr0).
    exists c0. split; [assumption|congruence]. }
  destruct Hsrc as (c0 & Hin0 & Hr0).
  edestruct resolvePaths_rootDir as (p & Hp & Hget & Hlen & Hrel);
    [exact E|exact Hin0|exact Hr0|].
  exists p. split; [now apply singleton_of_member|auto].
Qed.

Lemma addEach_rootDir (bm : BitMap) (il : list string) (stats : PathsStats)
  (paths : list string) (cs : list AddedComponent) (c : AddedComponent) (r : string) :
  addEach this bm il stats paths = Returned cs ->
  In c cs -> rootDir c = Some r ->
  exists p, In p paths /\ JsObject.get stats p = Some true /\
            r = getPathRelativeToConsumer p.
Proof.
  revert cs; induction paths as [|p paths IH]; intros cs H Hin Hr; simpl in H.
  - inversion H; subst. destruct Hin.
  - destruct (JsObject.get stats p) as [stat|] eqn:Hget; [|discriminate].
    destruct (addOneComponent this bm il _) as [c1|e] eqn:E1; simpl in H; [|discriminate].
    destruct (addEach this bm il stats paths) as [cs1|e] eqn:E2; simpl in H; [|discriminate].
    inversion H; subst. destruct Hin as [Hc|Hc].
    + subst c1.
      edestruct addOneComponent_rootDir as (q & Hk & Hg & Hrel); [exact E1|exact Hr|].
      pose proof (keys_singleton p stat) as Hks.
      pose proof (get_set_same JsObject.empty p stat) as Hgs.
      change (JsObject.set JsObject.empty p stat) with [(p, stat)] in Hks, Hgs.
      rewrite Hks in Hk. inversion Hk; subst q.
      rewrite Hgs in Hg. inversion Hg; subst stat.
      exists p. split; [now left|auto].
    + destruct (IH _ eq_refl Hc Hr) as (q & Hq & Hrest).
      exists q. split; [now right|exact Hrest].
Qed.

Lemma validatePathsFrom_statsOfDisk (l : list string) (stats stats' : PathsStats) :
  statsOfDisk stats ->
  validatePathsFrom l stats = Returned stats' ->
  statsOfDisk stats'.
Proof.
  revert stats; induction l as [|x l IH]; intros stats Hs H; simpl in H.
  - now inversion H; subst.
  - destruct (existsSync x); simpl in H; [|discriminate].
    apply (IH (JsObject.assign stats x (isDir x))); [|exact H].
    unfold JsObject.assign. destruct (x =? "__proto__"); [exact Hs|].
    intros p b Hin. apply set_In in Hin as [E|Hin]; [now inversion E|now apply Hs].
Qed.

Lemma resolvePathsStats_statsOfDisk (il : list string) (stats : PathsStats) :
  resolvePathsStats this il = Returned stats -> statsOfDisk stats.
Proof.
  unfold resolvePathsStats, validatePaths.
  assert (H0 : statsOfDisk JsObject.empty) by (intros p b []).
  destruct (getMissingTestFiles _); [|discriminate].
  destruct (_ && _).
  - now apply validatePathsFrom_statsOfDisk.
  - destruct (concat _); [discriminate|].
    destruct (ignoreFilter _ _); [discriminate|].
    now apply validatePathsFrom_statsOfDisk.
Qed.

Lemma removeTests_incl (il : list string) (stats : PathsStats) (e : string * bool) :
  In e (removeTests this il stats) -> In e stats.
Proof.
  unfold removeTests. generalize (testToRemove this il stats).
  intro l. revert stats. induction l as [|t l IH]; intros stats H; simpl in H; [assumption|].
  apply IH in H. eapply delete_incl; eauto.
Qed.

(** ** The removal of the test paths *)

(** A path stays among the paths to resolve when no match of the test
    patterns, made relative to the consumer and normalised, is the string of
    its key. *)
Lemma removeTests_keeps_a_key_written_otherwise (il : list string) (stats : PathsStats)
  (k : string) (v : bool) :
  In (k, v) stats ->
  (forall t, In t (testToRemove this il stats) -> path_normalize t <> k) ->
  In (k, v) (removeTests this il stats).
Proof.
  unfold removeTests. generalize (testToRemove this il stats). intro l.
  revert stats; induction l as [|t l IH]; intros stats Hin Hall; simpl; [assumption|].
  apply IH.
  - apply delete_keeps; [|assumption]. intro E. apply (Hall t); [now left|now symmetry].
  - intros t' Ht'. apply Hall. now right.
Qed.

(** A path is removed when a match, made relative to the consumer and
    normalised, is the string of its key. *)
Lemma removeTests_removes_a_key_written_alike (il : list string) (stats : PathsStats)
  (t : string) :
  NoDup (map fst stats) ->
  In t (testToRemove this il stats) ->
  ~ In (path_normalize t) (JsObject.keys (removeTests this il stats)).
Proof.
  unfold removeTests. generalize (testToRemove this il stats). intro l.
  revert stats; induction l as [|t' l IH]; intros stats Hnd Hin; [destruct Hin|].
  simpl. destruct Hin as [E|Hin].
  - subst t'. intro Hk. apply keys_In in Hk.
    assert (Hsub : forall l0 (o : PathsStats) e,
              In e (fold_left (fun stats test => JsObject.delete stats (path_normalize test))
                              l0 o) -> In e o).
    { induction l0 as [|a l0 IH0]; intros o e He; simpl in He; [assumption|].
      apply IH0 in He. eapply delete_incl; eauto. }
    apply in_map_iff in Hk as ([k v] & Hkv & Hk). simpl in Hkv. subst k.
    apply Hsub in Hk. apply (in_map fst) in Hk.
    now apply (delete_removes stats (path_normalize t) Hnd).
  - apply IH; [now apply delete_keys_NoDup|assumption].
Qed.

(** C7, as the code has it: a resolved component has a root directory only
    when it was resolved from one path alone and that path is a directory;
    the root directory is then the path relative to the consumer.  The path
    is the only resolved path of the run, or the run is in
    multiple-components mode, where every path left after the removal of the
    tests is resolved alone. *)
Theorem rootDir_only_for_a_directory_resolved_alone (bm : BitMap)
  (added : list AddedComponent) (c : AddedComponent) (r : string) :
  resolveComponents this bm = Returned added ->
  In c added ->
  rootDir c = Some r ->
  exists stats p,
    resolvePathsStats this (getIgnoreList bm) = Returned stats /\
    In p (JsObject.keys stats) /\
    isDir p = true /\
    r = getPathRelativeToConsumer p /\
    (isMultipleComponents this stats = false -> JsObject.keys stats = [p]) /\
    (isMultipleComponents this stats = true ->
     In p (JsObject.keys (removeTests this (getIgnoreList bm) stats))).
Proof.
  unfold resolveComponents. intros H Hin Hr.
  destruct (resolvePathsStats this (getIgnoreList bm)) as [stats|e] eqn:Es; simpl in H;
    [|discriminate].
  pose proof (resolvePathsStats_statsOfDisk _ Es) as Hdisk.
  exists stats.
  destruct (isMultipleComponents this stats) eqn:Em.
  - destruct (addEach this bm _ _ _) as [cs|e] eqn:Ea; simpl in H; [|discriminate].
    destruct (validateNoDuplicateIds cs); simpl in H; [|discriminate].
    inversion H; subst added.
    edestruct addEach_rootDir as (p & Hp & Hget & Hrel); [exact Ea|exact Hin|exact Hr|].
    apply get_In, removeTests_incl in Hget.
    exists p. repeat split; auto.
    + apply keys_In. apply (in_map fst) in Hget. exact Hget.
    + symmetry. now apply Hdisk.
    + discriminate.
  - destruct (addOneComponent this bm _ stats) as [c1|e] eqn:Ea; simpl in H; [|discriminate].
    inversion H; subst added. destruct Hin as [Hc|[]]. subst c1.
    edestruct addOneComponent_rootDir as (p & Hk & Hget & Hrel); [exact Ea|exact Hr|].
    exists p. repeat split; auto.
    + rewrite Hk. now left.
    + symmetry. apply Hdisk. now apply get_In.
    + discriminate.
Qed.

(** ** The multi-path aggregator *)

Lemma firstTruthy_or (x y : string) (l : list string) :
  firstTruthy (orString x y :: l) = firstTruthy (x :: y :: l).
Proof.
  unfold orString; simpl. destruct (x =? "") eqn:E; [reflexivity|now rewrite E].
Qed.

Lemma firstTruthy_const (k : string) (l : list string) :
  l <> [] -> (forall x, In x l -> x = k) -> firstTruthy l = k.
Proof.
  induction l as [|a r IH]; intros Hne Hall; [congruence|]. simpl.
  assert (Ha : a = k) by (apply Hall; now left). subst a.
  destruct (k =? "") eqn:E; [|reflexivity].
  destruct r as [|b r]; [simpl; symmetry; now apply String.eqb_eq|].
  apply IH; [discriminate|]. intros x Hx. apply Hall. now right.
Qed.

Lemma mergeFiles_fold (r : list ComponentMapFile) (a : ComponentMapFile) :
  fold_left (fun a b => mkFile (orString (relativePath a) (relativePath b))
                          (test a || test b) (orString (name a) (name b))) r a =
  mkFile (firstTruthy (map relativePath (a :: r))) (existsb test (a :: r))
         (firstTruthy (map name (a :: r))).
Proof.
  revert a; induction r as [|b r IH]; intro a.
  - simpl. destruct a as [p t n]; simpl. rewrite orb_false_r.
    destruct (p =? "") eqn:Ep; destruct (n =? "") eqn:En;
      try apply String.eqb_eq in Ep; try apply String.eqb_eq in En; subst; reflexivity.
  - cbn [fold_left]. rewrite IH. cbn [map relativePath test name existsb].
    now rewrite !firstTruthy_or, orb_assoc.
Qed.

Lemma mergeFiles_keyed (all : list ComponentMapFile) (p : string) :
  In p (map relativePath all) ->
  mergeFiles (keyed relativePath all p) = Some (unionEntry all p).
Proof.
  intro Hin. pose proof (keyed_nonempty relativePath all p Hin) as Hne.
  unfold unionEntry, mergeFiles.
  destruct (keyed relativePath all p) as [|a r] eqn:E; [congruence|].
  rewrite mergeFiles_fold. f_equal. f_equal.
  apply firstTruthy_const; [discriminate|].
  intros x Hx. apply in_map_iff in Hx as (f & Hf & Hfin).
  rewrite <- E in Hfin. apply filter_In in Hfin as [_ Heq].
  apply String.eqb_eq in Heq. congruence.
Qed.

Lemma fold_left_files (l : list AddedComponent) (acc : list ComponentMapFile) :
  fold_left (fun a b => a ++ files b) l acc = acc ++ concat (map files l).
Proof.
  revert acc; induction l as [|c l IH]; intro acc; simpl.
  - now rewrite app_nil_r.
  - now rewrite IH, app_assoc.
Qed.

Lemma uniteComponents_several (cid : option BitId) (groups : list AddedComponent)
  (g1 g2 : AddedComponent) (rest : list AddedComponent) :
  withFiles groups = g1 :: g2 :: rest ->
  let all := concat (map files (withFiles groups)) in
  uniteComponents cid groups =
    mkAdded cid
      (map (unionEntry all) (JsObject.keys (JsObject.groupby relativePath all JsObject.empty)))
      (mainFile g1) (rootDir g1).
Proof.
  intros Hlive all. unfold uniteComponents. fold (withFiles groups).
  subst all. rewrite Hlive. rewrite fold_left_files. cbn [app].
  set (all := concat (map files (g1 :: g2 :: rest))).
  f_equal.
  assert (Hk : forall k, In k (JsObject.keys (JsObject.groupby relativePath all JsObject.empty)) ->
                         In k (map relativePath all)).
  { intros k Hk. apply keys_In, groupby_keys_In in Hk as [[]|Hk]. exact Hk. }
  induction (JsObject.keys (JsObject.groupby relativePath all JsObject.empty)) as [|k ks IH];
    [reflexivity|].
  cbn [flat_map map]. rewrite IH by (intros k' Hk'; apply Hk; now right).
  rewrite groupby_get. cbn [JsObject.get JsObject.empty].
  assert (Hin : In k (map relativePath all)) by (apply Hk; now left).
  pose proof (keyed_nonempty relativePath all k Hin) as Hne.
  pose proof (mergeFiles_keyed all k Hin) as Hm.
  destruct (keyed relativePath all k) eqn:E; [congruence|].
  rewrite Hm. reflexivity.
Qed.

Lemma addEach_alone (bm : BitMap) (il : list string) (stats : PathsStats)
  (paths : list string) (cs : list AddedComponent) :
  addEach this bm il stats paths = Returned cs ->
  Forall2 (fun p c => exists stat,
             JsObject.get stats p = Some stat /\
             addOneComponent this bm il (JsObject.set JsObject.empty p stat) = Returned c)
          paths cs.
Proof.
  revert cs; induction paths as [|p paths IH]; intros cs H; simpl in H.
  - inversion H. constructor.
  - destruct (JsObject.get stats p) as [stat|] eqn:Hget; [|discriminate].
    destruct (addOneComponent this bm il _) as [c1|e] eqn:E1; simpl in H; [|discriminate].
    destruct (addEach this bm il stats paths) as [cs1|e] eqn:E2; simpl in H; [|discriminate].
    inversion H; subst. constructor; [|now apply IH].
    exists stat. split; [exact Hget|exact E1].
Qed.

Lemma uniteComponents_cases (cid : option BitId) (groups : list AddedComponent) :
  let all := concat (map files (withFiles groups)) in
  let united := uniteComponents cid groups in
  (withFiles groups = [] -> united = mkAdded cid [] None None) /\
  (forall g, withFiles groups = [g] -> united = g) /\
  (forall g1 g2 rest, withFiles groups = g1 :: g2 :: rest ->
     componentId united = cid /\
     mainFile united = mainFile g1 /\ rootDir united = rootDir g1 /\
     NoDup (map relativePath (files united)) /\
     (forall p, In p (map relativePath (files united)) <-> In p (map relativePath all)) /\
     (forall f, In f (files united) -> f = unionEntry all (relativePath f))).
Proof.
  intros all united. split; [|split].
  - intro H. subst united. unfold uniteComponents. fold (withFiles groups). now rewrite H.
  - intros g H. subst united. unfold uniteComponents. fold (withFiles groups). now rewrite H.
  - intros g1 g2 rest H. subst united.
    rewrite (uniteComponents_several cid groups H). fold all. cbn [componentId mainFile rootDir files].
    assert (Hmap : map relativePath
              (map (unionEntry all)
                 (JsObject.keys (JsObject.groupby relativePath all JsObject.empty))) =
            JsObject.keys (JsObject.groupby relativePath all JsObject.empty)).
    { rewrite map_map. apply map_id. }
    repeat split; try reflexivity.
    + rewrite Hmap. unfold JsObject.keys.
      eapply Permutation_NoDup; [apply Permutation_sym, ownKeys_perm|].
      apply groupby_keys_NoDup. constructor.
    + rewrite Hmap. intro Hp. apply keys_In, groupby_keys_In in Hp as [[]|Hp]. exact Hp.
    + rewrite Hmap. intro Hp. apply keys_In, groupby_keys_In. now right.
    + intros f Hf. apply in_map_iff in Hf as (k & Hk & _). now subst f.
Qed.

Lemma resolvePaths_groups (bm : BitMap) (il : list string) (stats : PathsStats)
  (paths : list string) (fb fb' : option BitId) (groups : list AddedComponent) :
  resolvePaths this bm il stats fb paths = Returned (groups, fb') ->
  Forall2 (fun p g => exists fb0 fb1, resolvePath this bm il stats fb0 p = Returned (g, fb1))
          paths groups.
Proof.
  revert fb groups. induction paths as [|p paths IH]; intros fb groups H; simpl in H.
  - inversion H. constructor.
  - destruct (resolvePath this bm il stats fb p) as [[g fb1]|e] eqn:E1; simpl in H;
      [|discriminate].
    destruct (resolvePaths this bm il stats fb1 paths) as [[gs fb2]|e] eqn:E2; simpl in H;
      [|discriminate].
    inversion H; subst. constructor; [now exists fb, fb1|]. now apply (IH fb1).
Qed.

(** C4, as the code has it.  With more than one resolved path and no
    identifier, every path left after the removal of the tests is resolved
    alone, as a component of its own; otherwise the run resolves one
    component, made of the groups of the paths: every path of the stats is
    resolved to its group, the exclusion pass goes over the groups when
    there are exclude patterns, and the groups are united.  When groups are
    united, those without files are left out: none left gives a component
    without files, one left is the result as it is, and of several the
    result has the main file and the root directory of the first one left
    and, for files, the union by relative path of their files, one entry
    for a path, whose properties are each the first truthy value among the
    entries of that path, so that the entry is a test file as soon as one of
    them is. *)
Theorem one_component_per_path_or_one_union (bm : BitMap) :
  (forall stats added,
     resolvePathsStats this (getIgnoreList bm) = Returned stats ->
     resolveComponents this bm = Returned added ->
     (isMultipleComponents this stats = true <->
      (1 < length (JsObject.keys stats) /\ truthy (id this) = false)) /\
     (isMultipleComponents this stats = true ->
      let stats' := removeTests this (getIgnoreList bm) stats in
      Forall2 (fun p c => exists stat,
                 JsObject.get stats' p = Some stat /\
                 addOneComponent this bm (getIgnoreList bm)
                   (JsObject.set JsObject.empty p stat) = Returned c)
              (JsObject.keys stats') added) /\
     (isMultipleComponents this stats = false ->
      exists c cid groups,
        added = [c] /\
        addOneComponent this bm (getIgnoreList bm) stats = Returned c /\
        Forall2 (fun p g => exists fb0 fb1,
                   resolvePath this bm (getIgnoreList bm) stats fb0 p = Returned (g, fb1))
                (JsObject.keys stats) groups /\
        let left := withFiles match exclude this with
                              | [] => groups
                              | _ :: _ => removeExcludedFiles this (getIgnoreList bm) groups
                              end in
        let all := concat (map files left) in
        (left = [] -> c = mkAdded cid [] None None) /\
        (forall g, left = [g] -> c = g) /\
        (forall g1 g2 rest, left = g1 :: g2 :: rest ->
           componentId c = cid /\
           mainFile c = mainFile g1 /\ rootDir c = rootDir g1 /\
           NoDup (map relativePath (files c)) /\
           (forall p, In p (map relativePath (files c)) <-> In p (map relativePath all)) /\
           (forall f, In f (files c) -> f = unionEntry all (relativePath f))))) /\
  (forall cid groups,
     let all := concat (map files (withFiles groups)) in
     let united := uniteComponents cid groups in
     (withFiles groups = [] -> united = mkAdded cid [] None None) /\
     (forall g, withFiles groups = [g] -> united = g) /\
     (forall g1 g2 rest, withFiles groups = g1 :: g2 :: rest ->
        componentId united = cid /\
        mainFile united = mainFile g1 /\ rootDir united = rootDir g1 /\
        NoDup (map relativePath (files united)) /\
        (forall p, In p (map relativePath (files united)) <-> In p (map relativePath all)) /\
        (forall f, In f (files united) -> f = unionEntry all (relativePath f)))).
Proof.
  split; [|exact uniteComponents_cases].
  intros stats added Hs Ha. unfold resolveComponents in Ha. rewrite Hs in Ha. simpl in Ha.
  split; [|split].
  - unfold isMultipleComponents. rewrite andb_true_iff, Nat.ltb_lt, negb_true_iff.
    reflexivity.
  - intros Hm stats'. rewrite Hm in Ha.
    destruct (addEach this bm _ _ _) as [cs|e] eqn:Ea; simpl in Ha; [|discriminate].
    destruct (validateNoDuplicateIds cs); simpl in Ha; [|discriminate].
    inversion Ha; subst. now apply addEach_alone.
  - intro Hm. rewrite Hm in Ha.
    destruct (addOneComponent this bm _ stats) as [c|e] eqn:Ec; simpl in Ha; [|discriminate].
    inversion Ha; subst added. clear Ha.
    pose proof Ec as Hone. unfold addOneComponent in Ec.
    destruct (if truthy (id this) then _ else _) as [fb|e]; simpl in Ec; [|discriminate].
    destruct (resolvePaths this bm _ stats fb (JsObject.keys stats)) as [[groups cid]|e] eqn:Er;
      simpl in Ec; [|discriminate].
    inversion Ec as [Hc]. clear Ec.
    exists c, cid, groups. rewrite Hc.
    split; [reflexivity|]. split; [first [exact Hone|reflexivity]|].
    split; [exact (resolvePaths_groups _ _ _ _ _ Er)|].
    rewrite <- Hc. apply uniteComponents_cases.
Qed.

(** * More properties of the engine *)

(** ** validatePaths, when every path exists *)

Lemma validatePathsFrom_returns (l : list string) (o : PathsStats) :
  forallb existsSync l = true ->
  NoDup (map fst o) ->
  exists stats,
    validatePathsFrom l o = Returned stats /\
    NoDup (map fst stats) /\
    (forall p, In p (map fst stats) <->
               In p (map fst o) \/ (In p l /\ p <> "__proto__")) /\
    (forall p b, JsObject.get stats p = Some b ->
                 JsObject.get o p = Some b \/ (In p l /\ b = isDir p)).
Proof.
  revert o; induction l as [|x l IH]; intros o Hall Hnd; simpl in *.
  - exists o. repeat split; auto; tauto.
  - apply andb_prop in Hall as [Hx Hall]. rewrite Hx; simpl.
    unfold JsObject.assign. destruct (String.eqb_spec x "__proto__") as [Ex|Ex].
    + destruct (IH o Hall Hnd) as (stats & Hs & Hn & Hk & Hg).
      exists stats. split; [exact Hs|]. split; [exact Hn|]. split.
      * intro p. rewrite Hk. split; [tauto|].
        intros [H|[[H|H] Hp]]; [tauto|congruence|tauto].
      * intros p b Hp. destruct (Hg p b Hp) as [H|[H1 H2]]; [now left|right; auto].
    + destruct (IH (JsObject.set o x (isDir x)) Hall (set_keys_NoDup _ _ _ Hnd))
        as (stats & Hs & Hn & Hk & Hg).
      exists stats. split; [exact Hs|]. split; [exact Hn|]. split.
      * intro p. rewrite Hk, set_keys_In. split.
        -- intros [[H|H]|H]; [subst p; right; split; [now left|exact Ex]|tauto|tauto].
        -- intros [H|[[H|H] Hp]]; [tauto|subst p; tauto|tauto].
      * intros p b Hp. destruct (Hg p b Hp) as [H|[H1 H2]]; [|right; auto].
        destruct (string_dec x p) as [E|E].
        -- subst p. rewrite get_set_same in H. inversion H. right. auto.
        -- rewrite get_set_other in H by assumption. now left.
Qed.

(** X1: when every path of the list exists, the validator returns stats
    whose keys are the paths of the list other than [__proto__], each once
    even when the list names a path twice, and the entry of such a path
    tells whether it is a directory.  A path named [__proto__] gets no key:
    the assignment replaces the prototype of the object. *)
Theorem validatePaths_returns_stats_of_the_paths (l : list string) :
  forallb existsSync l = true ->
  exists stats,
    validatePaths l = Returned stats /\
    NoDup (JsObject.keys stats) /\
    (forall p, In p (JsObject.keys stats) <-> In p l /\ p <> "__proto__") /\
    (forall p, In p l -> p <> "__proto__" -> JsObject.get stats p = Some (isDir p)).
Proof.
  intro Hall. unfold validatePaths.
  edestruct (validatePathsFrom_returns l) with (o := @JsObject.empty bool)
    as (stats & Hs & Hn & Hk & Hg); [exact Hall|constructor|].
  exists stats. split; [exact Hs|]. split; [now apply keys_NoDup|]. split.
  - intro p. rewrite keys_In, Hk. simpl. tauto.
  - intros p Hp Hne.
    assert (Hin : In p (map fst stats)) by (apply Hk; now right).
    destruct (get_of_key _ _ Hin) as [b Hb]. rewrite Hb.
    destruct (Hg p b Hb) as [H|[_ H]]; [discriminate|now subst].
Qed.

(** ** validateNoDuplicateIds *)

Section Duplicates.

Variable A : Type.
Variable grouped : JsObject.t (list A).

Lemma set_not_nil (V : Type) (o : JsObject.t V) (k : string) (v : V) : JsObject.set o k v <> [].
Proof.
  destruct o as [|[k' v'] r]; simpl; [discriminate|]. destruct (k' =? k); discriminate.
Qed.

Lemma collectDuplicates_keeps (ks : list string) (dup : JsObject.t (list A)) :
  dup <> [] -> fold_left (collectDuplicates grouped) ks dup <> [].
Proof.
  revert dup; induction ks as [|k ks IH]; intros dup H; simpl; [assumption|].
  apply IH. unfold collectDuplicates.
  destruct (JsObject.get grouped k) as [g|]; [|assumption].
  destruct (1 <? length g)%nat; [apply set_not_nil|assumption].
Qed.

Lemma collectDuplicates_none (ks : list string) :
  fold_left (collectDuplicates grouped) ks [] = [] <->
  forall k g, In k ks -> JsObject.get grouped k = Some g -> length g <= 1.
Proof.
  induction ks as [|k ks IH]; simpl.
  - split; [intros _ k g []|reflexivity].
  - unfold collectDuplicates at 2.
    destruct (JsObject.get grouped k) as [g|] eqn:G.
    + destruct (1 <? length g)%nat eqn:L.
      * split.
        -- intro H. exfalso. revert H. apply collectDuplicates_keeps, set_not_nil.
        -- intro H. apply Nat.ltb_lt in L. specialize (H k g (or_introl eq_refl) G). lia.
      * rewrite IH. apply Nat.ltb_ge in L. split.
        -- intros H k' g' [E|Hin] Hg; [subst k'; rewrite G in Hg; inversion Hg; now subst|].
           eapply H; eauto.
        -- intros H k' g' Hin. apply H. now right.
    + rewrite IH. split.
      * intros H k' g' [E|Hin] Hg; [subst k'; congruence|]. eapply H; eauto.
      * intros H k' g' Hin. apply H. now right.
Qed.

End Duplicates.

Lemma validateNoDuplicateIds_folds (l : list AddedComponent) :
  validateNoDuplicateIds l =
    match fold_left (collectDuplicates (JsObject.groupby componentIdKey l JsObject.empty))
                    (JsObject.keys (JsObject.groupby componentIdKey l JsObject.empty)) []
    with
    | [] => Returned tt
    | d => Thrown (DuplicateIds d)
    end.
Proof.
  unfold validateNoDuplicateIds.
  change (fun dup key =>
            match JsObject.get (JsObject.groupby componentIdKey l JsObject.empty) key with
            | Some g => if (1 <? length g)%nat then JsObject.set dup key g else dup
            | None => dup
            end)
    with (collectDuplicates (JsObject.groupby componentIdKey l JsObject.empty)).
  now destruct (fold_left _ _ _).
Qed.

Lemma validateNoDuplicateIds_distinct (l : list AddedComponent) :
  validateNoDuplicateIds l = Returned tt <-> NoDup (map componentIdKey l).
Proof.
  rewrite validateNoDuplicateIds_folds.
  set (G := JsObject.groupby componentIdKey l JsObject.empty).
  assert (Hnone : fold_left (collectDuplicates G) (JsObject.keys G) [] = [] <->
                  NoDup (map componentIdKey l)).
  { rewrite collectDuplicates_none, keyed_NoDup. subst G. split.
    - intros H k.
      destruct (in_dec string_dec k (map componentIdKey l)) as [Hin|Hout].
      + apply (H k).
        * apply keys_In, groupby_keys_In. now right.
        * rewrite groupby_get. simpl.
          pose proof (keyed_nonempty componentIdKey l k Hin).
          now destruct (keyed componentIdKey l k).
      + destruct (keyed componentIdKey l k) as [|x r] eqn:E; [simpl; lia|].
        exfalso. apply Hout.
        assert (Hx : In x (keyed componentIdKey l k)) by (rewrite E; now left).
        apply filter_In in Hx as [Hx Ex]. apply String.eqb_eq in Ex. subst k.
        now apply in_map.
    - intros H k g _ Hg. rewrite groupby_get in Hg. simpl in Hg.
      specialize (H k). destruct (keyed componentIdKey l k); [discriminate|].
      inversion Hg; now subst. }
  destruct (fold_left (collectDuplicates G) (JsObject.keys G) []) eqn:F.
  - split; [intros _; now apply Hnone|reflexivity].
  - split; [discriminate|]. intro H. apply Hnone in H. discriminate.
Qed.

(** X2: the check of duplicate identifiers returns exactly when the
    components have pairwise distinct identifiers (as strings: the keys that
    [groupby] makes of them); otherwise it throws [DuplicateIds]. *)
Theorem validateNoDuplicateIds_returns_iff_distinct (l : list AddedComponent) :
  (validateNoDuplicateIds l = Returned tt <-> NoDup (map componentIdKey l)) /\
  (~ NoDup (map componentIdKey l) ->
   exists d, d <> [] /\ validateNoDuplicateIds l = Thrown (DuplicateIds d)).
Proof.
  split; [apply validateNoDuplicateIds_distinct|].
  intro H. rewrite <- validateNoDuplicateIds_distinct in H.
  rewrite validateNoDuplicateIds_folds in *.
  destruct (fold_left _ _ _) as [|e d] eqn:F; [now contradiction H|].
  exists (e :: d). split; [discriminate|reflexivity].
Qed.

(** ** getFilesAccordingToDsl *)

(** X3: a path is among the files that the DSL matcher returns exactly when
    it is the normalised path, relative to the consumer, of a match that
    exists on disk, for the substitution of one of the patterns against one
    of the files; so without patterns, or without files, nothing is
    returned. *)
Theorem getFilesAccordingToDsl_matches (ignoreList fileList dsls : list string) (r : string) :
  In r (getFilesAccordingToDsl ignoreList fileList dsls) <->
  exists dsl file m,
    In dsl dsls /\ In file fileList /\
    In m (globIgnoring ignoreList (format dsl (calculateFileInfo file))) /\
    fs_existsSync m = true /\
    r = pathNormalizeToLinux (getPathRelativeToConsumer m).
Proof.
  unfold getFilesAccordingToDsl. rewrite in_map_iff. split.
  - intros (m & Hr & Hm). apply (proj1 (uniq_In _ _)) in Hm.
    apply in_concat in Hm as (ms & Hms & Hm).
    apply in_concat in Hms as (mss & Hmss & Hms).
    apply in_map_iff in Hmss as (dsl & E & Hdsl). subst mss.
    apply in_map_iff in Hms as (file & E & Hfile). subst ms.
    apply filter_In in Hm as [Hm Hex].
    exists dsl, file, m. auto.
  - intros (dsl & file & m & Hdsl & Hfile & Hm & Hex & Hr).
    exists m. split; [now symmetry|]. apply (proj2 (uniq_In _ _)).
    apply in_concat. eexists. split.
    + apply in_concat. eexists. split.
      * apply in_map_iff. exists dsl. split; [reflexivity|exact Hdsl].
      * apply in_map_iff. exists file. split; [reflexivity|exact Hfile].
    + apply filter_In. auto.
Qed.

(** ** _mergeTestFilesWithFiles *)

Lemma find_in_first (A : Type) (p : A -> bool) (a b : list A) (f : A) :
  (exists y, In y a /\ p y = true) ->
  find p (a ++ b) = Some f -> In f a.
Proof.
  induction a as [|x a IH]; simpl; intros (y & Hy & Py) H; [destruct Hy|].
  destruct (p x) eqn:Px; [inversion H; now left|].
  destruct Hy as [E|Hy]; [subst; congruence|]. right. apply IH; eauto.
Qed.

Lemma _mergeTestFilesWithFiles_NoDup (il : list string) (l : list ComponentMapFile) :
  NoDup (map relativePath (_mergeTestFilesWithFiles this il l)).
Proof. unfold _mergeTestFilesWithFiles. apply uniqBy_NoDup. Qed.

(** X4: the list that merges the test files into the files of a component
    has no two entries of the same path; its paths are the paths of the test
    files found and of the files given; a path found as a test file has the
    entry of the test file, flagged as a test, also when a file of that path
    was given; any other entry is one of the files given; and without test
    patterns a list of files of distinct paths comes back as it is. *)
Theorem merged_files_are_distinct_and_tests_win (il : list string)
  (l : list ComponentMapFile) :
  NoDup (map relativePath (_mergeTestFilesWithFiles this il l)) /\
  (forall p, In p (map relativePath (_mergeTestFilesWithFiles this il l)) <->
             In p (testFilesFor this il l) \/ In p (map relativePath l)) /\
  (forall f, In f (_mergeTestFilesWithFiles this il l) ->
             In (relativePath f) (testFilesFor this il l) ->
             f = mkFile (relativePath f) true (path_basename (relativePath f))) /\
  (forall f, In f (_mergeTestFilesWithFiles this il l) ->
             ~ In (relativePath f) (testFilesFor this il l) -> In f l) /\
  (tests this = [] -> NoDup (map relativePath l) -> _mergeTestFilesWithFiles this il l = l).
Proof.
  assert (Hdef : _mergeTestFilesWithFiles this il l =
                 uniqBy relativePath []
                   (map (fun t => mkFile t true (path_basename t)) (testFilesFor this il l) ++ l))
    by reflexivity.
  assert (Hpaths : map relativePath
                     (map (fun t => mkFile t true (path_basename t)) (testFilesFor this il l)) =
                   testFilesFor this il l).
  { rewrite map_map. apply map_id. }
  split; [apply _mergeTestFilesWithFiles_NoDup|]. rewrite Hdef. split; [|split; [|split]].
  - intro p. rewrite uniqBy_keys, map_app, in_app_iff, Hpaths. simpl. tauto.
  - intros f Hf Ht. apply uniqBy_first in Hf.
    apply find_in_first in Hf.
    + apply in_map_iff in Hf as (t & E & _). now subst f.
    + exists (mkFile (relativePath f) true (path_basename (relativePath f))). split.
      * apply in_map_iff. now exists (relativePath f).
      * simpl. apply String.eqb_refl.
  - intros f Hf Ht. apply uniqBy_incl in Hf. apply in_app_iff in Hf as [Hf|Hf]; [|assumption].
    exfalso. apply Ht. apply in_map_iff in Hf as (t & E & Hin). now subst f.
  - intros Hnone Hnd. unfold testFilesFor. rewrite Hnone. simpl.
    apply uniqBy_id; [assumption|]. intros k _ [].
Qed.

(** ** _addMainFileToFiles *)

Lemma inFileSet_In (l : list ComponentMapFile) (p : string) :
  inFileSet l p = true <-> In p (map relativePath l).
Proof.
  unfold inFileSet. rewrite existsb_exists, in_map_iff. split.
  - intros (f & Hf & E). apply String.eqb_eq in E. eauto.
  - intros (f & E & Hf). exists f. split; [assumption|]. subst p. apply String.eqb_refl.
Qed.

Lemma find_none_not_inFileSet (l : list ComponentMapFile) (p : string) :
  find (fun f => relativePath f =? p) l = None -> inFileSet l p = false.
Proof.
  unfold inFileSet. induction l as [|x l IH]; simpl; [reflexivity|].
  destruct (relativePath x =? p); simpl; [discriminate|exact IH].
Qed.

Lemma mainFileStep_extends (m : string) (l : list ComponentMapFile) (x : ComponentMapFile) :
  exists extra,
    snd (mainFileStep (m, l) x) = l ++ extra /\
    Forall appendedByMain extra /\
    (NoDup (map relativePath l) -> NoDup (map relativePath (l ++ extra))).
Proof.
  unfold mainFileStep.
  destruct (find _ l) as [f|] eqn:F.
  - exists []. simpl. rewrite app_nil_r. auto.
  - destruct (fs_existsSync _) eqn:D.
    + eexists [_]. simpl. split; [reflexivity|]. split.
      * constructor; [|constructor]. unfold appendedByMain; simpl. auto.
      * intro Hnd. rewrite map_app. simpl.
        apply find_none_not_inFileSet in F.
        apply NoDup_app_remove_l with (l := []). simpl.
        apply Permutation_NoDup with (l := format m (calculateFileInfo (relativePath x))
                                            :: map relativePath l).
        -- apply Permutation_cons_append.
        -- constructor; [|assumption]. rewrite <- inFileSet_In. congruence.
    + exists []. simpl. rewrite app_nil_r. auto.
Qed.

Lemma mainFileLoop_extends (post : list ComponentMapFile) (m : string)
  (l : list ComponentMapFile) :
  exists extra,
    snd (fold_left mainFileStep post (m, l)) = l ++ extra /\
    Forall appendedByMain extra /\
    (NoDup (map relativePath l) -> NoDup (map relativePath (l ++ extra))).
Proof.
  revert m l; induction post as [|x post IH]; intros m l; cbn [fold_left].
  - exists []. simpl. rewrite app_nil_r. auto.
  - destruct (mainFileStep_extends m l x) as (e1 & H1 & P1 & N1).
    destruct (mainFileStep (m, l) x) as [m1 l1]. simpl in H1. subst l1.
    destruct (IH m1 (l ++ e1)) as (e2 & H2 & P2 & N2).
    exists (e1 ++ e2). rewrite H2, app_assoc. split; [reflexivity|]. split.
    + apply Forall_app. auto.
    + auto.
Qed.

Lemma _addMainFileToFiles_extends (l : list ComponentMapFile) :
  exists extra,
    snd (_addMainFileToFiles this l) = l ++ extra /\
    Forall appendedByMain extra /\
    (NoDup (map relativePath l) -> NoDup (map relativePath (l ++ extra))).
Proof.
  assert (Hsame : exists extra, l = l ++ extra /\ Forall appendedByMain extra /\
                    (NoDup (map relativePath l) -> NoDup (map relativePath (l ++ extra)))).
  { exists []. rewrite app_nil_r. auto. }
  unfold _addMainFileToFiles.
  destruct (main this) as [m|]; [|exact Hsame].
  destruct (truthy (Some m) && matchesRegexPattern m).
  - destruct (mainFileLoop_extends l m l) as (extra & H & P & N).
    unfold mainFileLoop. destruct (fold_left mainFileStep l (m, l)) as [m' l']. simpl in H.
    exists extra. split; [|auto]. subst l'.
    destruct (negb (truthy (Some m'))); [reflexivity|].
    destruct (fs_existsSync _); reflexivity.
  - destruct (negb (truthy (Some m))); [exact Hsame|].
    destruct (fs_existsSync _); exact Hsame.
Qed.

(** X5: main-file resolution never removes or reorders the files it is
    given: the list it leaves is the list given followed by appended files,
    which are on disk, not flagged as tests, and named by their base name;
    paths that were distinct stay distinct; and without a main-file pattern
    the list is unchanged and there is no main file. *)
Theorem main_file_resolution_only_appends (l : list ComponentMapFile) :
  (exists extra,
     snd (_addMainFileToFiles this l) = l ++ extra /\
     Forall appendedByMain extra /\
     (NoDup (map relativePath l) -> NoDup (map relativePath (l ++ extra)))) /\
  (main this = None -> _addMainFileToFiles this l = (None, l)) /\
  (main this = Some "" -> _addMainFileToFiles this l = (None, l)).
Proof.
  split; [apply _addMainFileToFiles_extends|].
  unfold _addMainFileToFiles. split; intro H; rewrite H; reflexivity.
Qed.

(** ** The components that are resolved *)

Lemma filter_keeps_paths_distinct (keep : ComponentMapFile -> bool)
  (fileList : list ComponentMapFile) :
  NoDup (map relativePath fileList) ->
  NoDup (map relativePath (filter keep fileList)).
Proof.
  intro Hnd. induction fileList as [|file rest IH]; cbn [filter map] in *; [constructor|].
  apply NoDup_cons_iff in Hnd as [Hout Hrest].
  destruct (keep file); cbn [map]; [|now apply IH].
  apply NoDup_cons; [|now apply IH].
  intro Hin. apply Hout. apply in_map_iff in Hin as (y & E & Hy).
  apply filter_In in Hy as [Hy _]. rewrite <- E. now apply in_map.
Qed.

Lemma resolvePath_NoDup (bm : BitMap) (il : list string) (stats : PathsStats)
  (fb fb' : option BitId) (p : string) (c : AddedComponent) :
  resolvePath this bm il stats fb p = Returned (c, fb') ->
  NoDup (map relativePath (files c)).
Proof.
  assert (Hmain : forall l0, NoDup (map relativePath l0) ->
                             NoDup (map relativePath (snd (_addMainFileToFiles this l0)))).
  { intros l0 H. destruct (_addMainFileToFiles_extends l0) as (extra & E & _ & N).
    rewrite E. auto. }
  unfold resolvePath. destruct (JsObject.get stats p) as [[|]|]; [| |discriminate].
  - destruct (ignoreFilter il _) as [|x l]; [discriminate|].
    pose proof (Hmain _ (_mergeTestFilesWithFiles_NoDup il
                           (map (fun m => mkFile (pathNormalizeToLinux m) false (path_basename m))
                                (x :: l)))) as Hn.
    destruct (_addMainFileToFiles this _) as [mf fl].
    destruct (idFromPath _ _ _ _) as [i|e]; simpl; [|discriminate].
    intro H. inversion H; subst. exact Hn.
  - destruct (idFromPath _ _ _ _) as [i|e]; simpl; [|discriminate].
    pose proof (Hmain _ (_mergeTestFilesWithFiles_NoDup il
                           [mkFile (pathNormalizeToLinux (getPathRelativeToConsumer p)) false
                                   (path_basename (getPathRelativeToConsumer p))])) as Hn.
    destruct (_addMainFileToFiles this _) as [mf fl].
    intro H. inversion H; subst. exact Hn.
Qed.

Lemma resolvePaths_each (P : AddedComponent -> Prop) (bm : BitMap) (il : list string)
  (stats : PathsStats) :
  (forall fb fb' p c, resolvePath this bm il stats fb p = Returned (c, fb') -> P c) ->
  forall paths fb fb' cs,
    resolvePaths this bm il stats fb paths = Returned (cs, fb') ->
    forall c, In c cs -> P c.
Proof.
  intros Hall paths. induction paths as [|p paths IH]; intros fb fb' cs H c Hin; simpl in H.
  - inversion H; subst. destruct Hin.
  - destruct (resolvePath this bm il stats fb p) as [[c1 fb1]|e] eqn:E1; simpl in H;
      [|discriminate].
    destruct (resolvePaths this bm il stats fb1 paths) as [[cs1 fb2]|e] eqn:E2; simpl in H;
      [|discriminate].
    inversion H; subst. destruct Hin as [Hc|Hc]; [subst; eauto|].
    eapply IH; eauto.
Qed.

Lemma removeExcludedFiles_NoDup (il : list string) (comps : list AddedComponent) :
  (forall c, In c comps -> NoDup (map relativePath (files c))) ->
  forall c, In c (removeExcludedFiles this il comps) -> NoDup (map relativePath (files c)).
Proof.
  intros H c Hc. unfold removeExcludedFiles in Hc.
  apply in_map_iff in Hc as (c0 & E & Hin). subst c.
  destruct (mainFileIsExcluded _ c0); simpl; [constructor|].
  apply filter_keeps_paths_distinct. now apply H.
Qed.

Lemma uniteComponents_NoDup (cid : option BitId) (groups : list AddedComponent) :
  (forall c, In c groups -> NoDup (map relativePath (files c))) ->
  NoDup (map relativePath (files (uniteComponents cid groups))).
Proof.
  intro H.
  destruct (withFiles groups) as [|g1 [|g2 rest]] eqn:E.
  - unfold uniteComponents. fold (withFiles groups). rewrite E. constructor.
  - unfold uniteComponents. fold (withFiles groups). rewrite E.
    apply H. assert (Hin : In g1 (withFiles groups)) by (rewrite E; now left).
    unfold withFiles in Hin. now apply filter_In in Hin.
  - rewrite (uniteComponents_several cid groups E). cbn [files].
    rewrite map_map, map_id. apply keys_NoDup, groupby_keys_NoDup. constructor.
Qed.

Lemma addOneComponent_NoDup (bm : BitMap) (il : list string) (stats : PathsStats)
  (c : AddedComponent) :
  addOneComponent this bm il stats = Returned c ->
  NoDup (map relativePath (files c)).
Proof.
  unfold addOneComponent. intro H.
  destruct (if truthy (id this) then _ else _) as [fb|e]; simpl in H; [|discriminate].
  destruct (resolvePaths this bm il stats fb (JsObject.keys stats)) as [[cs fb']|e] eqn:E;
    simpl in H; [|discriminate].
  inversion H. apply uniteComponents_NoDup.
  assert (Hcs : forall c0, In c0 cs -> NoDup (map relativePath (files c0))).
  { eapply resolvePaths_each; [|exact E]. intros. eapply resolvePath_NoDup; eauto. }
  destruct (exclude this); [exact Hcs|now apply removeExcludedFiles_NoDup].
Qed.

Lemma addEach_each (P : AddedComponent -> Prop) (bm : BitMap) (il : list string)
  (stats : PathsStats) :
  (forall p stat c, addOneComponent this bm il (JsObject.set JsObject.empty p stat) = Returned c ->
                    P c) ->
  forall paths cs, addEach this bm il stats paths = Returned cs -> forall c, In c cs -> P c.
Proof.
  intros Hall paths cs H c Hin. apply addEach_alone in H.
  induction H as [|p c1 paths cs (stat & _ & H1) _ IH]; [destruct Hin|].
  destruct Hin as [E|Hin]; [subst; eauto|auto].
Qed.

Lemma resolveComponents_each (P : AddedComponent -> Prop) (bm : BitMap) :
  (forall stats c, addOneComponent this bm (getIgnoreList bm) stats = Returned c -> P c) ->
  forall added, resolveComponents this bm = Returned added -> forall c, In c added -> P c.
Proof.
  intros Hall added H c Hin. unfold resolveComponents in H.
  destruct (resolvePathsStats this (getIgnoreList bm)) as [stats|e]; simpl in H; [|discriminate].
  destruct (isMultipleComponents this stats).
  - destruct (addEach this bm _ _ _) as [cs|e] eqn:Ea; simpl in H; [|discriminate].
    destruct (validateNoDuplicateIds cs); simpl in H; [|discriminate].
    inversion H; subst. eapply addEach_each; [|exact Ea|exact Hin]. intros; eauto.
  - destruct (addOneComponent this bm _ stats) as [c1|e] eqn:Ea; simpl in H; [|discriminate].
    inversion H; subst. destruct Hin as [E|[]]. subst. eauto.
Qed.

(** X6: every component that [add] hands to the reconciler has files of
    pairwise distinct relative paths. *)
Theorem resolved_components_have_distinct_paths (bm : BitMap) (added : list AddedComponent)
  (c : AddedComponent) :
  resolveComponents this bm = Returned added ->
  In c added ->
  NoDup (map relativePath (files c)).
Proof.
  intros H Hin. eapply (resolveComponents_each (fun c => NoDup (map relativePath (files c))));
    eauto.
  intros; eapply addOneComponent_NoDup; eauto.
Qed.

(** X7: in multiple-components mode the components that [add] hands to the
    reconciler have pairwise distinct identifiers. *)
Theorem multiple_components_have_distinct_ids (bm : BitMap) (stats : PathsStats)
  (added : list AddedComponent) :
  resolvePathsStats this (getIgnoreList bm) = Returned stats ->
  isMultipleComponents this stats = true ->
  resolveComponents this bm = Returned added ->
  NoDup (map componentIdKey added).
Proof.
  intros Hs Hm H. unfold resolveComponents in H. rewrite Hs in H. simpl in H.
  rewrite Hm in H.
  destruct (addEach this bm _ _ _) as [cs|e]; simpl in H; [|discriminate].
  destruct (validateNoDuplicateIds cs) as [[]|e] eqn:V; simpl in H; [|discriminate].
  inversion H; subst. now apply validateNoDuplicateIds_distinct.
Qed.

(** ** The identifiers of the components *)

Lemma resolvePath_id (bm : BitMap) (il : list string) (stats : PathsStats)
  (fb fb' : option BitId) (p : string) (c : AddedComponent) :
  resolvePath this bm il stats fb p = Returned (c, fb') ->
  exists i, componentId c = Some i /\ fb' = Some i /\ (forall b, fb = Some b -> i = b).
Proof.
  assert (Hid : forall ns n i, idFromPath bm fb ns n = Returned i ->
                               forall b, fb = Some b -> i = b).
  { intros ns n i H b E. subst fb. simpl in H. now inversion H. }
  unfold resolvePath. destruct (JsObject.get stats p) as [[|]|]; [| |discriminate].
  - destruct (ignoreFilter il _) as [|x l]; [discriminate|].
    destruct (_addMainFileToFiles this _) as [mf fl].
    destruct (idFromPath _ _ _ _) as [i|e] eqn:E; simpl; [|discriminate].
    intro H. inversion H; subst. exists i. simpl. eauto.
  - destruct (idFromPath _ _ _ _) as [i|e] eqn:E; simpl; [|discriminate].
    destruct (_addMainFileToFiles this _) as [mf fl].
    intro H. inversion H; subst. exists i. simpl. eauto.
Qed.

Lemma resolvePaths_id (bm : BitMap) (il : list string) (stats : PathsStats)
  (paths : list string) (fb fb' : option BitId) (cs : list AddedComponent) :
  resolvePaths this bm il stats fb paths = Returned (cs, fb') ->
  (forall c, In c cs -> exists i, componentId c = Some i /\ (forall b, fb = Some b -> i = b)) /\
  (paths <> [] -> exists i, fb' = Some i) /\
  (forall b, fb = Some b -> fb' = Some b).
Proof.
  revert fb cs; induction paths as [|p paths IH]; intros fb cs H; simpl in H.
  - inversion H; subst. repeat split; [intros c []|congruence|auto].
  - destruct (resolvePath this bm il stats fb p) as [[c1 fb1]|e] eqn:E1; simpl in H;
      [|discriminate].
    destruct (resolvePaths this bm il stats fb1 paths) as [[cs1 fb2]|e] eqn:E2; simpl in H;
      [|discriminate].
    inversion H; subst.
    destruct (resolvePath_id _ _ _ _ _ E1) as (i & Hc & Hfb & Hsame).
    destruct (IH _ _ E2) as (Hcs & _ & Hkeep). subst fb1.
    repeat split.
    + intros c [E|Hin]; [subst c; eauto|].
      destruct (Hcs c Hin) as (j & Hj & Hji). exists j. split; [assumption|].
      intros b Hb. rewrite (Hji i eq_refl). now apply Hsame.
    + intros _. exists i. now apply Hkeep.
    + intros b Hb. rewrite (Hkeep i eq_refl). f_equal. now apply Hsame.
Qed.

Lemma removeExcludedFiles_componentId (il : list string) (comps : list AddedComponent)
  (c : AddedComponent) :
  In c (removeExcludedFiles this il comps) ->
  exists c0, In c0 comps /\ componentId c0 = componentId c.
Proof.
  unfold removeExcludedFiles. intro H. apply in_map_iff in H as (c0 & Hc & Hin).
  exists c0. split; [assumption|]. subst c. now destruct (mainFileIsExcluded _ c0).
Qed.

Lemma uniteComponents_componentId (cid : option BitId) (groups : list AddedComponent) :
  componentId (uniteComponents cid groups) = cid \/
  exists c, In c groups /\ componentId (uniteComponents cid groups) = componentId c.
Proof.
  unfold uniteComponents.
  destruct (filter _ groups) as [|c [|c2 l]] eqn:E; simpl; [now left| |now left].
  right. exists c. split; [|reflexivity].
  assert (Hin : In c (filter (fun c => negb (length (files c) =? 0)%nat) groups))
    by (rewrite E; now left).
  now apply filter_In in Hin.
Qed.

Lemma addOneComponent_id (bm : BitMap) (il : list string) (stats : PathsStats)
  (c : AddedComponent) :
  addOneComponent this bm il stats = Returned c ->
  (truthy (id this) = true \/ JsObject.keys stats <> []) ->
  exists i, componentId c = Some i /\
            (forall userId, id this = Some userId -> truthy (id this) = true ->
                            _getIdAccordingToExistingComponent bm userId = Returned i).
Proof.
  unfold addOneComponent. intros H Hor.
  destruct (if truthy (id this) then _ else _) as [fb|e] eqn:Ef; simpl in H; [|discriminate].
  destruct (resolvePaths this bm il stats fb (JsObject.keys stats)) as [[cs fb']|e] eqn:E;
    simpl in H; [|discriminate].
  inversion H as [Hc]. clear H.
  destruct (resolvePaths_id _ _ _ _ _ E) as (Hcs & Hlast & Hkeep).
  assert (Hfb : forall userId, id this = Some userId -> truthy (id this) = true ->
                  exists b, fb = Some b /\
                            _getIdAccordingToExistingComponent bm userId = Returned b).
  { intros userId Hu Ht. rewrite Ht, Hu in Ef.
    destruct (_getIdAccordingToExistingComponent bm userId) as [b|e]; simpl in Ef;
      [|discriminate].
    inversion Ef. eauto. }
  assert (Hgroups : forall c0, In c0 (match exclude this with
                                       | [] => cs
                                       | _ :: _ => removeExcludedFiles this il cs
                                       end) ->
                    exists i, componentId c0 = Some i /\ (forall b, fb = Some b -> i = b)).
  { intros c0 Hin. destruct (exclude this); [now apply Hcs|].
    apply removeExcludedFiles_componentId in Hin as (c1 & Hin & Eid).
    rewrite <- Eid. now apply Hcs. }
  assert (Hsome : exists i, componentId (uniteComponents fb' (match exclude this with
                                       | [] => cs
                                       | _ :: _ => removeExcludedFiles this il cs
                                       end)) = Some i /\ (forall b, fb = Some b -> i = b)).
  { destruct (uniteComponents_componentId fb' (match exclude this with
                                       | [] => cs
                                       | _ :: _ => removeExcludedFiles this il cs
                                       end)) as [Hu|(c0 & Hin & Hu)]; rewrite Hu.
    - destruct Hor as [Ht|Hk].
      + destruct (id this) as [userId|] eqn:Hu'; [|discriminate].
        destruct (Hfb userId eq_refl Ht) as (b & Eb & _).
        exists b. split; [now apply Hkeep|]. congruence.
      + destruct (Hlast Hk) as [i Hi]. exists i. split; [assumption|].
        intros b Hb. rewrite (Hkeep b Hb) in Hi. congruence.
    - now apply Hgroups. }
  destruct Hsome as (i & Hi & Hsame). exists i. split; [assumption|].
  intros userId Hu Ht. destruct (Hfb userId Hu Ht) as (b & Eb & Hb).
  now rewrite (Hsame b Eb).
Qed.

Lemma addOneComponent_without_paths (bm : BitMap) (il : list string) (stats : PathsStats)
  (c : AddedComponent) :
  addOneComponent this bm il stats = Returned c ->
  JsObject.keys stats = [] ->
  files c = [].
Proof.
  unfold addOneComponent. intros H Hk. rewrite Hk in H.
  destruct (if truthy (id this) then _ else _) as [fb|e]; simpl in H; [|discriminate].
  inversion H; subst. now destruct (exclude this).
Qed.

(** X8: every component that [add] hands to the reconciler, that is every
    resolved component with files, has an identifier, and when the user gave
    one, it is, for every such component, the identifier that
    [_getIdAccordingToExistingComponent] makes of the one given.  (A
    component without files can be without identifier: the only path
    [__proto__] and no given identifier leave the stats without a key.) *)
Theorem resolved_components_have_an_identifier (bm : BitMap) (added : list AddedComponent)
  (c : AddedComponent) :
  resolveComponents this bm = Returned added ->
  In c added ->
  files c <> [] ->
  exists i, componentId c = Some i /\
            (forall userId, id this = Some userId -> truthy (id this) = true ->
                            _getIdAccordingToExistingComponent bm userId = Returned i).
Proof.
  intros H Hin Hfiles. unfold resolveComponents in H.
  destruct (resolvePathsStats this (getIgnoreList bm)) as [stats|e] eqn:Es; simpl in H;
    [|discriminate].
  destruct (isMultipleComponents this stats) eqn:Em.
  - destruct (addEach this bm _ _ _) as [cs|e] eqn:Ea; simpl in H; [|discriminate].
    destruct (validateNoDuplicateIds cs); simpl in H; [|discriminate].
    inversion H; subst. clear Hfiles.
    eapply (addEach_each (fun c => exists i, componentId c = Some i /\ _)); [|exact Ea|exact Hin].
    intros p stat c0 H0. eapply addOneComponent_id; [exact H0|].
    right. pose proof (keys_singleton p stat) as Hk.
    change (JsObject.set JsObject.empty p stat) with [(p, stat)] in *.
    rewrite Hk. discriminate.
  - destruct (addOneComponent this bm _ stats) as [c1|e] eqn:Ea; simpl in H; [|discriminate].
    inversion H; subst. destruct Hin as [E|[]]. subst c1.
    eapply addOneComponent_id; [exact Ea|].
    right. intro Hk. apply Hfiles. eapply addOneComponent_without_paths; eauto.
Qed.

(** ** The reconciler without imported records *)

Lemma reconcileFile_plain (bm : BitMap) (pid : BitId) (file : ComponentMapFile)
  (w : JsObject.t (list string)) (st : list BitMap) :
  noImportedRecord bm pid file = true ->
  reconcileFile this (Some pid) file
    (mkReconciling (getComponentLenient bm (Some pid)) (mkMem bm w st)) =
  (Returned (if keptPlainly bm pid file then Some file else None),
   mkReconciling (getComponentLenient bm (Some pid))
     (mkMem bm (warnPlainly bm pid w file) st)).
Proof.
  unfold noImportedRecord, reconcileFile, keptPlainly, ownedByAnother, warnPlainly.
  cbn [mem bitMap foundComponentFromBitMap warnings storage].
  intro Himp. apply negb_true_iff in Himp. rewrite Himp.
  destruct (isAutoGeneratedFile _); [reflexivity|]. cbn [negb andb].
  unfold idOfFileIsDifferent.
  destruct (getComponentIdByPath bm (relativePath file)) as [e|]; [|reflexivity].
  destruct (truthy (Some e)); [|reflexivity]. cbn [andb].
  destruct (e =? BitId_toString pid); reflexivity.
Qed.

Lemma reconcileFiles_plain (bm : BitMap) (pid : BitId) (l : list ComponentMapFile)
  (w : JsObject.t (list string)) (st : list BitMap) :
  (forall f, In f l -> noImportedRecord bm pid f = true) ->
  reconcileFiles this (Some pid) l
    (mkReconciling (getComponentLenient bm (Some pid)) (mkMem bm w st)) =
  (Returned (filter (keptPlainly bm pid) l),
   mkReconciling (getComponentLenient bm (Some pid))
     (mkMem bm (fold_left (warnPlainly bm pid) l w) st)).
Proof.
  revert w; induction l as [|f l IH]; intros w Hall; [reflexivity|].
  cbn [reconcileFiles]. rewrite reconcileFile_plain by (apply Hall; now left).
  rewrite IH by (intros; apply Hall; now right). cbn [fold_left filter].
  destruct (keptPlainly bm pid f); reflexivity.
Qed.

(** X9: when no imported record is involved (neither the record found for
    the component nor the owner of any of its files is imported), the
    reconciler stores the component with exactly its files that are neither
    auto-generated nor owned by another identifier, in their order, as an
    authored component and with the override flag of the command; when no
    such file is left it returns null and leaves the index as it was.  The
    files owned by another identifier are warned about in both cases. *)
Theorem plain_component_is_stored_without_foreign_files (c : AddedComponent) (m : Mem)
  (pid : BitId) :
  componentId c = Some pid ->
  (forall f, In f (files c) -> noImportedRecord (bitMap m) pid f = true) ->
  (filter (keptPlainly (bitMap m) pid) (files c) = [] ->
   addOrUpdateComponentInBitMap this c m =
     (Returned None,
      mkMem (bitMap m) (fold_left (warnPlainly (bitMap m) pid) (files c) (warnings m))
            (storage m))) /\
  (filter (keptPlainly (bitMap m) pid) (files c) <> [] ->
   addOrUpdateComponentInBitMap this c m =
     (match snd (addComponent (bitMap m) (Some pid)
                   (filter (keptPlainly (bitMap m) pid) (files c))
                   (mainFile c) (rootDir c) AUTHORED (override this)) with
      | Returned cm => Returned (Some (mkAddResult (BitId_toString pid) (cmFiles cm)))
      | Thrown e => Thrown e
      end,
      mkMem (fst (addComponent (bitMap m) (Some pid)
                    (filter (keptPlainly (bitMap m) pid) (files c))
                    (mainFile c) (rootDir c) AUTHORED (override this)))
            (fold_left (warnPlainly (bitMap m) pid) (files c) (warnings m))
            (storage m))).
Proof.
  intros Hid Hall. unfold addOrUpdateComponentInBitMap. rewrite Hid.
  destruct m as [bm w st]. cbn [bitMap warnings storage] in *.
  rewrite (reconcileFiles_plain bm pid (files c) w st Hall). split.
  - intro E. rewrite E. reflexivity.
  - intro Hne. destruct (filter (keptPlainly bm pid) (files c)) as [|f kept] eqn:E;
      [congruence|].
    unfold addToBitMap. cbn [componentId files mainFile rootDir mem bitMap warnings storage].
    destruct (addComponent bm (Some pid) (f :: kept) (mainFile c) (rootDir c) AUTHORED
                (override this)) as [bm' [cm|e]]; reflexivity.
Qed.

(** ** The warnings *)

Lemma pushWarning_warned (w : JsObject.t (list string)) (e p k : string) :
  warned (pushWarning w e p) k = warned w k ++ (if e =? k then [p] else []).
Proof.
  unfold warned, pushWarning.
  destruct (e =? k) eqn:E.
  - apply String.eqb_eq in E. subst k.
    destruct (JsObject.get w e); now rewrite get_set_same.
  - apply String.eqb_neq in E.
    destruct (JsObject.get w e); rewrite get_set_other by assumption;
      now rewrite app_nil_r.
Qed.

Lemma grewBy_refl (w : JsObject.t (list string)) (k : string) (l : list string) :
  grewBy w w k l.
Proof. exists []. split; [now rewrite app_nil_r|intros x []]. Qed.

Lemma grewBy_trans (w1 w2 w3 : JsObject.t (list string)) (k : string) (l1 l2 l : list string) :
  grewBy w1 w2 k l1 -> grewBy w2 w3 k l2 -> incl l1 l -> incl l2 l -> grewBy w1 w3 k l.
Proof.
  intros (a & Ea & Ia) (b & Eb & Ib) H1 H2. exists (a ++ b). split.
  - now rewrite Eb, Ea, app_assoc.
  - apply incl_app; eapply incl_tran; eauto.
Qed.

Lemma reconcileFile_warnings (pid : option BitId) (f : ComponentMapFile) (s : Reconciling)
  (k : string) :
  grewBy (warnings (mem s)) (warnings (mem (snd (reconcileFile this pid f s)))) k
         [relativePath f].
Proof.
  assert (Hpush : forall e, grewBy (warnings (mem s))
                              (pushWarning (warnings (mem s)) e (relativePath f)) k
                              [relativePath f]).
  { intro e. exists (if e =? k then [relativePath f] else []).
    split; [apply pushWarning_warned|].
    destruct (e =? k); [apply incl_refl|intros x []]. }
  unfold reconcileFile.
  repeat match goal with
         | |- context [match ?x with _ => _ end] =>
             destruct x; cbn [snd mem warnings]; try apply grewBy_refl; try apply Hpush
         end.
Qed.

Lemma reconcileFiles_warnings (pid : option BitId) (l : list ComponentMapFile) (s : Reconciling)
  (k : string) :
  grewBy (warnings (mem s)) (warnings (mem (snd (reconcileFiles this pid l s)))) k
         (map relativePath l).
Proof.
  revert s; induction l as [|f l IH]; intro s; cbn [reconcileFiles]; [apply grewBy_refl|].
  pose proof (reconcileFile_warnings pid f s k) as Hf.
  destruct (reconcileFile this pid f s) as [[kept|e] s']; cbn [snd] in *.
  - pose proof (IH s') as Hl.
    destruct (reconcileFiles this pid l s') as [[ks|e] s'']; cbn [snd] in *;
      (eapply grewBy_trans;
       [exact Hf|exact Hl|intros x [Hx|[]]; now left|intros x Hx; now right]).
  - eapply grewBy_trans with (l2 := []);
      [exact Hf|apply grewBy_refl|intros x [Hx|[]]; now left|intros x []].
Qed.

Lemma addToBitMap_warnings (c : AddedComponent) (m : Mem) :
  warnings (snd (addToBitMap this c m)) = warnings m.
Proof.
  unfold addToBitMap.
  destruct (addComponent _ _ _ _ _ _ _) as [bm [cm|e]]; simpl; [|reflexivity].
  destruct (componentId c); reflexivity.
Qed.

Lemma addOrUpdateComponentInBitMap_warnings (c : AddedComponent) (m : Mem) (k : string) :
  grewBy (warnings m) (warnings (snd (addOrUpdateComponentInBitMap this c m))) k
         (map relativePath (files c)).
Proof.
  unfold addOrUpdateComponentInBitMap.
  pose proof (reconcileFiles_warnings (componentId c) (files c)
                (mkReconciling (getComponentLenient (bitMap m) (componentId c)) m) k) as H.
  destruct (reconcileFiles _ _ _ _) as [[kept|e] s]; cbn [snd mem] in *; [|exact H].
  destruct kept as [|f kept]; cbn [snd]; [exact H|].
  pose proof (addToBitMap_warnings
                (mkAdded (componentId c) (f :: kept) (mainFile c) (rootDir c)) (mem s)) as Ha.
  destruct (addToBitMap _ _ _) as [[r|e] m']; cbn [snd] in *; now rewrite Ha.
Qed.

Lemma reconcileComponents_warnings (added : list AddedComponent) (m : Mem) (k : string) :
  grewBy (warnings m) (warnings (snd (reconcileComponents this added m))) k
         (concat (map (fun c => map relativePath (files c)) added)).
Proof.
  revert m; induction added as [|c added IH]; intro m; cbn [reconcileComponents];
    [apply grewBy_refl|].
  cbn [map concat].
  destruct (files c) eqn:Hfiles.
  - destruct (IH m) as (more & E & I). exists more. split; [exact E|]. exact I.
  - rewrite <- Hfiles.
    pose proof (addOrUpdateComponentInBitMap_warnings c m k) as Hc.
    destruct (addOrUpdateComponentInBitMap this c m) as [[r|e] m']; cbn [snd] in *.
    + pose proof (IH m') as Hr.
      destruct (reconcileComponents this added m') as [[rs|e] m'']; cbn [snd] in *;
        (eapply grewBy_trans; [exact Hc|exact Hr|apply incl_appl, incl_refl
                              |apply incl_appr, incl_refl]).
    + eapply grewBy_trans with (l2 := []);
        [exact Hc|apply grewBy_refl|apply incl_appl, incl_refl|intros x []].
Qed.

(** X10: a run of [add] only appends to the warnings: for every identifier,
    the warnings after the run are the warnings before it followed by paths
    of files of the resolved components; and the warnings that a run returns
    are those of the state it leaves. *)
Theorem add_only_appends_warnings (m : Mem) (k : string) :
  (exists more,
     warned (warnings (snd (add this m))) k = warned (warnings m) k ++ more /\
     forall p, In p more ->
       exists added c, resolveComponents this (bitMap m) = Returned added /\
                       In c added /\ In p (map relativePath (files c))) /\
  (forall r, fst (add this m) = Returned r ->
             resultWarnings r = warnings (snd (add this m))).
Proof.
  unfold add.
  destruct (resolveComponents this (bitMap m)) as [added|e]; cbn [fst snd].
  - pose proof (reconcileComponents_warnings added m k) as (more & E & I).
    destruct (reconcileComponents this added m) as [[results|e] m1]; cbn [fst snd] in *.
    + split.
      * exists more. split; [exact E|]. intros p Hp. apply I in Hp.
        apply in_concat in Hp as (ps & Hps & Hp).
        apply in_map_iff in Hps as (c & Ec & Hc). subst ps. eauto.
      * intros r Hr. now inversion Hr.
    + split; [|discriminate].
      exists more. split; [exact E|]. intros p Hp. apply I in Hp.
      apply in_concat in Hp as (ps & Hps & Hp).
      apply in_map_iff in Hps as (c & Ec & Hc). subst ps. eauto.
  - split; [|discriminate]. exists []. split; [now rewrite app_nil_r|intros p []].
Qed.

(** ** The errors of the first steps *)

(** X11: the first steps of [add] fail in a fixed order, and each failure
    leaves the state of the run as it was.  Missing test files are reported
    first, as [PathsNotExist] of the missing files.  Then, when the
    component paths match nothing and the tests do not stand in (no test
    patterns, or no identifier), [PathsNotExist] carries the component paths
    as the user gave them.  Then, when there are matches and the ignore
    filter leaves none, [NoFiles] carries the difference between the two
    lists. *)
Theorem add_reports_missing_unmatched_and_ignored_paths (m : Mem) :
  (getMissingTestFiles (tests this) <> [] ->
   add this m = (Thrown (PathsNotExist (getMissingTestFiles (tests this))), m)) /\
  (getMissingTestFiles (tests this) = [] ->
   concat (map glob (componentPaths this)) = [] ->
   tests this = [] \/ truthy (id this) = false ->
   add this m = (Thrown (PathsNotExist (componentPaths this)), m)) /\
  (getMissingTestFiles (tests this) = [] ->
   concat (map glob (componentPaths this)) <> [] ->
   ignoreFilter (getIgnoreList (bitMap m)) (concat (map glob (componentPaths this))) = [] ->
   add this m =
     (Thrown (NoFiles (arrayDiff [] (concat (map glob (componentPaths this))))), m)).
Proof.
  unfold add, resolveComponents, resolvePathsStats. repeat split.
  - intro H. destruct (getMissingTestFiles (tests this)); [congruence|reflexivity].
  - intros Hmiss Hnone Hor. rewrite Hmiss, Hnone.
    destruct Hor as [Ht|Hi]; [rewrite Ht|rewrite Hi, andb_false_r]; reflexivity.
  - intros Hmiss Hsome Hign. rewrite Hmiss, Hign.
    destruct (concat (map glob (componentPaths this))); [congruence|].
    simpl. now rewrite andb_false_r.
Qed.

(** X12: an explicit identifier that names a component of origin NESTED in
    the index makes [add] throw the error of the taken name, whatever the
    paths (once they validate), and the state of the run is as it was. *)
Theorem add_refuses_the_id_of_a_nested_component (m : Mem) (userId existing : string)
  (cm : ComponentMap) (stats : PathsStats) :
  id this = Some userId -> truthy (id this) = true ->
  getExistingComponentId (bitMap m) userId = Some existing ->
  truthy (Some existing) = true ->
  getComponent (bitMap m) existing = Some cm ->
  origin cm = NESTED ->
  resolvePathsStats this (getIgnoreList (bitMap m)) = Returned stats ->
  add this m = (Thrown (NamespaceTaken existing), m).
Proof.
  intros Hu Ht He Hte Hc Ho Hs.
  unfold add, resolveComponents. rewrite Hs. cbn [bind].
  unfold isMultipleComponents. rewrite Ht. cbn [negb]. rewrite andb_false_r.
  unfold addOneComponent. rewrite Ht, Hu.
  unfold _getIdAccordingToExistingComponent. rewrite He, Hte, Hc, Ho. reflexivity.
Qed.

(** ** getIgnoreList *)

Lemma flat_map_singletons (o : JsObject.t ComponentMap) (f : ComponentMap -> string)
  (ks : list string) :
  (forall k, In k ks -> In k (map fst o)) ->
  length (flat_map (fun key => match JsObject.get o key with
                               | Some cm => [f cm]
                               | None => []
                               end) ks) = length ks.
Proof.
  induction ks as [|k ks IH]; intro H; simpl; [reflexivity|].
  rewrite length_app, IH by (intros; apply H; now right).
  destruct (get_of_key o k (H k (or_introl eq_refl))) as [v Hv]. now rewrite Hv.
Qed.

(** X13: the ignore list starts with the ignore list of the working tree;
    when the consumer configures a dist target nothing is added to it, and
    otherwise one pattern is added for every imported component of the
    index. *)
Theorem getIgnoreList_extends_the_base_list (bm : BitMap) :
  exists extra,
    getIgnoreList bm = retrieveIgnoreList getPath ++ extra /\
    (distTarget = true -> extra = []) /\
    (distTarget = false -> length extra = length (getAllComponents bm IMPORTED)).
Proof.
  unfold getIgnoreList. destruct distTarget; simpl.
  - exists []. rewrite app_nil_r. repeat split; auto. discriminate.
  - eexists. split; [reflexivity|]. split; [discriminate|]. intros _.
    rewrite flat_map_singletons.
    + apply keys_length.
    + intros k Hk. now apply keys_In.
Qed.

(** ** The results of the reconciler *)

Lemma addOrUpdateComponentInBitMap_result (c : AddedComponent) (m m' : Mem) (r : AddResult) :
  addOrUpdateComponentInBitMap this c m = (Returned (Some r), m') ->
  exists i, componentId c = Some i /\ resultId r = BitId_toString i.
Proof.
  unfold addOrUpdateComponentInBitMap.
  destruct (reconcileFiles _ _ _ _) as [[kept|e] s]; [|discriminate].
  destruct kept as [|f kept]; [discriminate|].
  unfold addToBitMap. cbn [componentId files mainFile rootDir].
  destruct (addComponent _ _ _ _ _ _ _) as [bm [cm|e]]; [|discriminate].
  destruct (componentId c) as [i|]; [|discriminate].
  intro H. inversion H. exists i. auto.
Qed.

Lemma pick_length (A : Type) (mask : list bool) (l : list A) :
  length (pick mask l) <= length l.
Proof.
  revert l; induction mask as [|b mask IH]; intros [|x l]; simpl; try lia.
  specialize (IH l). destruct b; simpl; lia.
Qed.

(** X14: the results of the reconciler are those of components that were
    resolved with files: they follow the order of these components, each
    component gives at most one result, and the identifier of a result is
    the string of the identifier of its component. *)
Theorem results_are_of_resolved_components_with_files (added : list AddedComponent)
  (m m' : Mem) (results : list AddResult) :
  reconcileComponents this added m = (Returned results, m') ->
  exists mask,
    map resultId results = map componentIdKey (pick mask (withFiles added)) /\
    length results <= length (withFiles added).
Proof.
  revert m m' results; induction added as [|c added IH]; intros m m' results H;
    cbn [reconcileComponents] in H.
  - inversion H; subst. exists []. split; [reflexivity|apply Nat.le_refl].
  - unfold withFiles. cbn [filter]. fold (withFiles added).
    destruct (files c) as [|f fs] eqn:Hfiles; cbn [length Nat.eqb negb].
    + apply IH in H. exact H.
    + destruct (addOrUpdateComponentInBitMap this c m) as [[r|e] m1] eqn:Ec; [|discriminate].
      destruct (reconcileComponents this added m1) as [[rs|e] m2] eqn:Er; [|discriminate].
      destruct (IH _ _ _ Er) as (mask & Hids & Hlen).
      inversion H; subst results m'. clear H.
      destruct r as [r|].
      * destruct (addOrUpdateComponentInBitMap_result _ _ Ec) as (i & Hi & Hr).
        exists (true :: mask). split.
        -- cbn [pick map]. unfold componentIdKey at 1. rewrite Hi, Hr. now f_equal.
        -- cbn [length]. lia.
      * exists (false :: mask). split; [exact Hids|cbn [length]; lia].
Qed.

(** ** The paths left in multiple-components mode *)

(** X15: after the removal of the tests, the paths to resolve are the paths
    validated whose key is not the string that [path.normalize] makes of a
    test file found by the DSL matcher. *)
Theorem removeTests_leaves_the_other_keys (il : list string) (stats : PathsStats) (k : string) :
  NoDup (map fst stats) ->
  (In k (JsObject.keys (removeTests this il stats)) <->
   In k (JsObject.keys stats) /\
   forall t, In t (testToRemove this il stats) -> path_normalize t <> k).
Proof.
  intro Hnd. split.
  - intro Hk. split.
    + apply keys_In in Hk. apply in_map_iff in Hk as ([k' v] & E & Hin). simpl in E. subst k'.
      apply removeTests_incl in Hin. apply keys_In. now apply (in_map fst) in Hin.
    + intros t Ht E. subst k.
      now apply (removeTests_removes_a_key_written_alike il stats t Hnd Ht).
  - intros [Hk Hall]. apply keys_In in Hk. apply in_map_iff in Hk as ([k' v] & E & Hin).
    simpl in E. subst k'. apply keys_In.
    apply (in_map fst) with (x := (k, v)).
    now apply removeTests_keeps_a_key_written_otherwise.
Qed.

(** ** Components that end without files *)

Lemma reconcileFiles_generated (pid : option BitId) (l : list ComponentMapFile)
  (s : Reconciling) :
  (forall f, In f l -> isAutoGeneratedFile (path_join getPath (relativePath f)) = true) ->
  reconcileFiles this pid l s = (Returned [], s).
Proof.
  induction l as [|f l IH]; intro H; cbn [reconcileFiles]; [reflexivity|].
  unfold reconcileFile. rewrite (H f (or_introl eq_refl)).
  rewrite IH by (intros; apply H; now right). reflexivity.
Qed.

(** X16: a component whose files are all auto-generated files is skipped
    whatever the index says about them (also when they belong to an imported
    component and no identifier was given): the reconciler returns null and
    the index, the warnings and the storage are as they were. *)
Theorem generated_files_are_never_stored (c : AddedComponent) (m : Mem) :
  (forall f, In f (files c) ->
             isAutoGeneratedFile (path_join getPath (relativePath f)) = true) ->
  addOrUpdateComponentInBitMap this c m = (Returned None, m).
Proof.
  intro H. unfold addOrUpdateComponentInBitMap.
  rewrite reconcileFiles_generated by assumption. reflexivity.
Qed.

Lemma reconcileComponents_without_files (added : list AddedComponent) (m : Mem) :
  (forall c, In c added -> files c = []) ->
  reconcileComponents this added m = (Returned [], m).
Proof.
  induction added as [|c added IH]; intro H; cbn [reconcileComponents]; [reflexivity|].
  rewrite (H c (or_introl eq_refl)). apply IH. intros; apply H; now right.
Qed.

(** X17: when resolution returns (in particular the check for duplicate
    identifiers has passed) and every resolved component is without files
    (all of them excluded, say), [add] returns no component, the warnings
    as they were, and writes the index as it was. *)
Theorem add_without_files_returns_nothing_and_writes (m : Mem) (added : list AddedComponent) :
  resolveComponents this (bitMap m) = Returned added ->
  (forall c, In c added -> files c = []) ->
  add this m = (Returned (mkResults [] (warnings m)), write m).
Proof.
  intros Hr Hall. unfold add. rewrite Hr.
  now rewrite reconcileComponents_without_files.
Qed.

(** ** Directories without files *)

(** X18: when the run resolves one component and the first of its paths is
    a directory in which the ignore filter leaves no file, [add] throws
    [EmptyDirectory] (provided the identifier given, if any, is accepted),
    and the state of the run is as it was. *)
Theorem add_throws_on_an_empty_directory (m : Mem) (stats : PathsStats) (p : string)
  (rest : list string) :
  resolvePathsStats this (getIgnoreList (bitMap m)) = Returned stats ->
  isMultipleComponents this stats = false ->
  JsObject.keys stats = p :: rest ->
  JsObject.get stats p = Some true ->
  ignoreFilter (getIgnoreList (bitMap m))
    (globFilesIn getPath (path_join (getPathRelativeToConsumer p) "**")) = [] ->
  (forall userId, id this = Some userId -> truthy (id this) = true ->
                  exists b, _getIdAccordingToExistingComponent (bitMap m) userId = Returned b) ->
  add this m = (Thrown EmptyDirectory, m).
Proof.
  intros Hs Hm Hk Hg Hempty Hid.
  unfold add, resolveComponents. rewrite Hs. cbn [bind]. rewrite Hm.
  unfold addOneComponent. rewrite Hk.
  assert (Hfirst : forall fb, resolvePaths this (bitMap m) (getIgnoreList (bitMap m)) stats fb
                                (p :: rest) = Thrown EmptyDirectory).
  { intro fb. cbn [resolvePaths]. unfold resolvePath. now rewrite Hg, Hempty. }
  destruct (truthy (id this)) eqn:Ht.
  - destruct (id this) as [userId|] eqn:Hu; [|discriminate].
    destruct (Hid userId eq_refl eq_refl) as [b Hb]. rewrite Hb. cbn [bind].
    now rewrite Hfirst.
  - cbn [bind]. now rewrite Hfirst.
Qed.

(** ** One file *)

(** X19: the component of one file, added without an identifier, test
    patterns, main file or excludes, has exactly that file, under its path
    from the consumer, not flagged as a test and named by its base name; it
    has no main file and no root directory, and its identifier is derived
    from the name of the file and, for the namespace, the namespace given
    or else the directory of the file. *)
Theorem one_file_gives_a_component_of_that_file (bm : BitMap) (il : list string) (p : string) :
  truthy (id this) = false -> tests this = [] -> main this = None -> exclude this = [] ->
  addOneComponent this bm il (JsObject.set JsObject.empty p false) =
    bind (_getIdAccordingToExistingComponent bm
            (BitId_toString
               (BitId_getValidBitId
                  (namespaceOr this
                     (fromEnd (path_split
                                 (if truthy (Some (path_parse_dir (path_resolve p)))
                                  then path_parse_dir (path_resolve p)
                                  else path_dirname (path_resolve p))) 0))
                  (Some (path_parse_name (path_resolve p))))))
         (fun i =>
            Returned (mkAdded (Some i)
                        [mkFile (pathNormalizeToLinux (getPathRelativeToConsumer p)) false
                                (path_basename (getPathRelativeToConsumer p))]
                        None None)).
Proof.
  intros Hid Ht Hmain Hex.
  unfold addOneComponent. rewrite Hid, Hex. cbn [bind].
  pose proof (keys_singleton p false) as Hk.
  change (JsObject.set JsObject.empty p false) with [(p, false)] in *.
  rewrite Hk. cbn [resolvePaths]. unfold resolvePath.
  assert (Hg : JsObject.get [(p, false)] p = Some false).
  { simpl. now rewrite String.eqb_refl. }
  rewrite Hg. unfold idFromPath.
  destruct (_getIdAccordingToExistingComponent bm _) as [i|e]; cbn [bind]; [|reflexivity].
  unfold _mergeTestFilesWithFiles, _addMainFileToFiles. rewrite Ht, Hmain.
  cbn [map app uniqBy existsb relativePath fst snd bind].
  unfold uniteComponents. cbn [filter files length Nat.eqb negb]. reflexivity.
Qed.

(** ** Duplicate identifiers *)

(** X20: in multiple-components mode, when two of the components resolved
    have the same identifier, [add] throws [DuplicateIds] before any
    component reaches the index: the state of the run is as it was. *)
Theorem add_throws_on_duplicate_ids (m : Mem) (stats : PathsStats) (cs : list AddedComponent) :
  resolvePathsStats this (getIgnoreList (bitMap m)) = Returned stats ->
  isMultipleComponents this stats = true ->
  addEach this (bitMap m) (getIgnoreList (bitMap m))
    (removeTests this (getIgnoreList (bitMap m)) stats)
    (JsObject.keys (removeTests this (getIgnoreList (bitMap m)) stats)) = Returned cs ->
  ~ NoDup (map componentIdKey cs) ->
  exists d, d <> [] /\ add this m = (Thrown (DuplicateIds d), m).
Proof.
  intros Hs Hm Ha Hdup.
  unfold add, resolveComponents. rewrite Hs. cbn [bind]. rewrite Hm, Ha. cbn [bind].
  rewrite <- validateNoDuplicateIds_distinct in Hdup.
  rewrite validateNoDuplicateIds_folds in *.
  destruct (fold_left _ _ _) as [|e d] eqn:F; [now contradiction Hdup|].
  exists (e :: d). split; [discriminate|reflexivity].
Qed.

End Properties.

(** * The CI hook *)

Section CiHookProperties.

Context {CE : CiEnv}.

(** X21: the CI hook never changes the component: whenever it returns, it
    returns the component it was given.  Without a configured function path
    it always returns, and starts nothing when CI is not enabled, and
    exactly one detached worker, with the identifier of the component and
    the path of the scope in its environment, when CI is enabled.  With a
    function path the default worker is left alone: the hook throws when the
    module does not load, and otherwise does what the function of the module
    does, given the identifier and the scope. *)
Theorem ciHook_returns_its_component (component : ConsumerComponent) (scopePath : string)
  (procs : list Spawned) :
  (forall c procs', ciHook component scopePath procs = (Some c, procs') -> c = component) /\
  (truthy ciFuncPath = false ->
   ciHook component scopePath procs =
     (Some component,
      if truthy enableCI then procs ++ [ciWorker (componentIdString component) scopePath]
      else procs)) /\
  (forall p, ciFuncPath = Some p -> truthy ciFuncPath = true ->
     match requireCiFunc p with
     | None => ciHook component scopePath procs = (None, procs)
     | Some f =>
         snd (ciHook component scopePath procs) =
           fst (f (componentIdString component) scopePath procs) /\
         (fst (ciHook component scopePath procs) <> None <->
          snd (f (componentIdString component) scopePath procs) = true)
     end).
Proof.
  unfold ciHook. repeat split.
  - intros c procs'.
    destruct (negb (truthy enableCI) && negb (truthy ciFuncPath)); [congruence|].
    destruct (if negb (truthy ciFuncPath) then _ else _) as [f|]; [|discriminate].
    destruct (f _ _ _) as [ps [|]]; congruence.
  - intro Hp. rewrite Hp. destruct (truthy enableCI); reflexivity.
  - intros p Hp Ht. rewrite Ht, Hp. rewrite andb_false_r. cbn [negb].
    destruct (requireCiFunc p) as [f|]; [|reflexivity].
    destruct (f _ _ _) as [ps [|]]; cbn [fst snd]; split; try reflexivity;
      split; congruence.
Qed.

End CiHookProperties.

(** * The properties on the small working trees *)

Import Sample Scenario.

#[local] Existing Instance Sample.pathsAtRoot.
#[local] Existing Instance Sample.helpers.
#[local] Existing Instance Sample.ids.
#[local] Existing Instance Sample.index.

(** C8 on a tree without files: the first of two missing paths is
    reported. *)
Lemma validatePaths_throws_first_missing_witness :
  validatePaths (FS := disk emptyTree) ([] ++ "x.js" :: ["y.js"]) =
    Thrown (PathsNotExist ["x.js"]).
Proof.
  apply (validatePaths_throws_first_missing (FS := disk emptyTree)); reflexivity.
Defined.

(** Neither [x.js] nor [y.js] exists, and the error of the validator names
    [x.js] only: it does not carry the list of the paths that do not
    exist. *)
Lemma validatePaths_does_not_list_all_missing :
  existsSync (FileSystem := disk emptyTree) "x.js" = false /\
  existsSync (FileSystem := disk emptyTree) "y.js" = false /\
  validatePaths (FS := disk emptyTree) ["x.js"; "y.js"] = Thrown (PathsNotExist ["x.js"]) /\
  validatePaths (FS := disk emptyTree) ["x.js"; "y.js"] <>
    Thrown (PathsNotExist ["x.js"; "y.js"]).
Proof.
  repeat split; try reflexivity. vm_compute. discriminate.
Qed.

(** C1 on the vendored tree: the file of the imported component [lib/util]
    added without an identifier, and added as [my/util]. *)
Lemma imported_file_needs_the_owner_id_witness :
  addOrUpdateComponentInBitMap (FS := disk vendoredTree) (CO := consumer "")
    (bare ["components/lib/util/index.js"] None)
    (mkAdded (Some "util/index") [utilIndexJs] None None) (fresh vendoredIndex) =
    (Thrown (MissingComponentIdForImportedComponent "util/index"), fresh vendoredIndex) /\
  addOrUpdateComponentInBitMap (FS := disk vendoredTree) (CO := consumer "")
    (bare ["components/lib/util/index.js"] (Some "my/util"))
    (mkAdded (Some "my/util") [utilIndexJs] None None) (fresh vendoredIndex) =
    (Thrown (IncorrectIdForImportedComponent "lib/util" "my/util"), fresh vendoredIndex).
Proof.
  split.
  - refine (proj1 (imported_file_needs_the_owner_id (FS := disk vendoredTree)
                     (CO := consumer "") (bare ["components/lib/util/index.js"] None)
                     (mkAdded (Some "util/index") [utilIndexJs] None None)
                     (fresh vendoredIndex) (pid := "util/index") [] [] (kept := [])
                     utilIndexJs (s := atStart)
                     eq_refl eq_refl eq_refl eq_refl eq_refl) eq_refl).
  - refine (proj2 (imported_file_needs_the_owner_id (FS := disk vendoredTree)
                     (CO := consumer "")
                     (bare ["components/lib/util/index.js"] (Some "my/util"))
                     (mkAdded (Some "my/util") [utilIndexJs] None None)
                     (fresh vendoredIndex) (pid := "my/util") [] [] (kept := [])
                     utilIndexJs (s := atStart)
                     eq_refl eq_refl eq_refl eq_refl eq_refl)
                  "my/util" "lib/util" eq_refl eq_refl eq_refl eq_refl _).
    discriminate.
Defined.

(** C1 does not hold of an auto-generated file: the file
    [components/lib/util/index.js] of the imported [lib/util], marked as
    generated, added without identifier.  The flag of the file is true and
    no identifier was given, but the file is left out before the flag is
    looked at: nothing is thrown and nothing is stored. *)
Lemma generated_file_of_an_imported_component_does_not_throw :
  isImportedFile atStart utilIndexJs = true /\
  truthy (id (bare ["components/lib/util/index.js"] None)) = false /\
  addOrUpdateComponentInBitMap
    (FS := diskWithGenerated vendoredTree ["/work/components/lib/util/index.js"])
    (CO := consumer "") (bare ["components/lib/util/index.js"] None)
    (mkAdded (Some "util/index") [utilIndexJs] None None) (fresh vendoredIndex) =
    (Returned None, fresh vendoredIndex).
Proof.
  repeat split; reflexivity.
Qed.

(** [add src/foo.js --id lib/util] on the vendored tree: the file is owned
    by [my/other], which is another identifier and an authored component,
    and yet the file is not dropped with a warning: the record of [lib/util]
    is imported, and the run throws. *)
Lemma conflict_with_an_imported_target_throws :
  ownerOfFile atStartOfUtil fooJs = Some "my/other" /\
  "my/other" <> BitId_toString (IdService := ids) "lib/util" /\
  hasOrigin IMPORTED (getComponent (IndexOps := index) vendoredIndex "my/other") = false /\
  reconcileFile (FS := disk vendoredTree) (CO := consumer "")
    (bare ["src/foo.js"] (Some "lib/util")) (Some "lib/util") fooJs atStartOfUtil =
    (Thrown (IncorrectIdForImportedComponent "my/other" "lib/util"), atStartOfUtil) /\
  run vendoredTree "" (bare ["src/foo.js"] (Some "lib/util")) vendoredIndex =
    (Thrown (IncorrectIdForImportedComponent "my/other" "lib/util"), fresh vendoredIndex).
Proof.
  repeat split; try reflexivity. discriminate.
Qed.

(** C2 on the vendored tree: [add src/foo.js], where [src/foo.js] belongs to
    the authored component [my/other]. *)
Lemma conflicting_file_is_dropped_with_a_warning_witness :
  reconcileFile (FS := disk vendoredTree) (CO := consumer "")
    (bare ["src/foo.js"] None) (Some "src/foo") fooJs atStart = (Returned None, afterWarning) /\
  JsObject.get (warnings (mem afterWarning)) "my/other" = Some ([] ++ ["src/foo.js"]) /\
  reconcileFiles (FS := disk vendoredTree) (CO := consumer "")
    (bare ["src/foo.js"] None) (Some "src/foo") [fooJs] atStart =
  reconcileFiles (FS := disk vendoredTree) (CO := consumer "")
    (bare ["src/foo.js"] None) (Some "src/foo") [] afterWarning.
Proof.
  refine (conflicting_file_is_dropped_with_a_warning (FS := disk vendoredTree)
            (CO := consumer "") (bare ["src/foo.js"] None) "src/foo" fooJs [] atStart
            (owner := "my/other") eq_refl eq_refl eq_refl _ eq_refl).
  discriminate.
Defined.

(** Two runs with an identifier and two paths.  In the first the test file
    comes first: its own component has it as a plain file, the component of
    the source has it as a test file, and the union has it as a test file,
    which is not the value of the first component.  In the second the main
    file of the first path is excluded: the component of that path loses its
    files, and the result has the main file of the second path. *)
Lemma union_takes_a_later_test_flag_and_a_later_main_file :
  (resolvePaths (FS := disk sourceAndTest) (CO := consumer "") testFirst
     (JsObject.empty : JsObject.t ComponentMap) []
     [("a.spec.js", false); ("a.js", false)] (Some "my/comp") ["a.spec.js"; "a.js"] =
     Returned ([ofTest; ofSource], Some "my/comp") /\
   files ofTest = [aSpecJs false] /\
   resolve sourceAndTest "" testFirst [] =
     Returned [mkAdded (Some "my/comp") [aSpecJs true; aJs] None None]) /\
  (resolvePaths (FS := disk twoFiles) (CO := consumer "") firstExcluded
     (JsObject.empty : JsObject.t ComponentMap) []
     [("a.js", false); ("b.js", false)] (Some "my/comp") ["a.js"; "b.js"] =
     Returned ([ofA; ofB], Some "my/comp") /\
   mainFile ofA = Some "a.js" /\
   resolve twoFiles "" firstExcluded [] =
     Returned [mkAdded (Some "my/comp") [bJs] (Some "b.js") None]).
Proof.
  repeat split; reflexivity.
Qed.

(** C4 on the run [add a.spec.js a.js --id my/comp], with the test pattern
    [{FILE_NAME}.spec.js]: one component, united from the groups of the two
    paths. *)
Lemma one_component_per_path_or_one_union_witness :
  let il := getIgnoreList (FS := disk sourceAndTest) (CO := consumer "")
              (JsObject.empty : JsObject.t ComponentMap) in
  let stats := [("a.spec.js", false); ("a.js", false)] in
  exists c cid groups,
    [mkAdded (Some "my/comp") [aSpecJs true; aJs] None None] = [c] /\
    addOneComponent (FS := disk sourceAndTest) (CO := consumer "") testFirst
      (JsObject.empty : JsObject.t ComponentMap) il stats = Returned c /\
    Forall2 (fun p g => exists fb0 fb1,
               resolvePath (FS := disk sourceAndTest) (CO := consumer "") testFirst
                 (JsObject.empty : JsObject.t ComponentMap) il stats fb0 p =
               Returned (g, fb1))
            (JsObject.keys stats) groups /\
    let left := withFiles match exclude testFirst with
                          | [] => groups
                          | _ :: _ =>
                              removeExcludedFiles (FS := disk sourceAndTest)
                                (CO := consumer "") testFirst il groups
                          end in
    let all := concat (map files left) in
    (left = [] -> c = mkAdded cid [] None None) /\
    (forall g, left = [g] -> c = g) /\
    (forall g1 g2 rest, left = g1 :: g2 :: rest ->
       componentId c = cid /\
       mainFile c = mainFile g1 /\ rootDir c = rootDir g1 /\
       NoDup (map relativePath (files c)) /\
       (forall p, In p (map relativePath (files c)) <-> In p (map relativePath all)) /\
       (forall f, In f (files c) -> f = unionEntry all (relativePath f))).
Proof.
  exact (proj2 (proj2 (proj1 (one_component_per_path_or_one_union (FS := disk sourceAndTest)
                                (CO := consumer "") testFirst
                                (JsObject.empty : JsObject.t ComponentMap))
                         [("a.spec.js", false); ("a.js", false)]
                         [mkAdded (Some "my/comp") [aSpecJs true; aJs] None None]
                         eq_refl eq_refl))
               eq_refl).
Defined.

(** The groups of that run are those of [a.spec.js] and of [a.js] with its
    test, and the component of the run is their union. *)
Lemma groups_of_a_test_and_its_source :
  resolvePaths (FS := disk sourceAndTest) (CO := consumer "") testFirst
    (JsObject.empty : JsObject.t ComponentMap) []
    [("a.spec.js", false); ("a.js", false)] (Some "my/comp") ["a.spec.js"; "a.js"] =
    Returned ([ofTest; ofSource], Some "my/comp") /\
  uniteComponents (Some "my/comp") [ofTest; ofSource] =
    mkAdded (Some "my/comp") [aSpecJs true; aJs] None None.
Proof.
  split; reflexivity.
Qed.

(** C5 on two components under [--exclude a.js]: the first one, of [a.js]
    and [b.js] with the main file [a.js], loses both files, though [b.js] is
    not excluded; the second one, of [b.js] with the main file [b.js], keeps
    its file. *)
Lemma exclusion_empties_or_filters_witness :
  length (removeExcludedFiles (FS := disk twoFiles) (CO := consumer "") firstExcluded []
            [ofAWithB; ofB]) = 2 /\
  (exists c', nth_error (removeExcludedFiles (FS := disk twoFiles) (CO := consumer "")
                           firstExcluded [] [ofAWithB; ofB]) 0 = Some c' /\ files c' = [] /\
              reconcileComponents (FS := disk twoFiles) (CO := consumer "") firstExcluded
                ([] ++ c' :: [ofB]) (fresh []) =
              reconcileComponents (FS := disk twoFiles) (CO := consumer "") firstExcluded
                ([] ++ [ofB]) (fresh [])) /\
  (exists c', nth_error (removeExcludedFiles (FS := disk twoFiles) (CO := consumer "")
                           firstExcluded [] [ofAWithB; ofB]) 1 = Some c' /\
              files c' = filter (fun f => negb (includes ["a.js"] (relativePath f))) [bJs]).
Proof.
  destruct (exclusion_empties_or_filters (FS := disk twoFiles) (CO := consumer "")
              firstExcluded [] [ofAWithB; ofB]) as [Hlen H].
  split; [exact Hlen|]. split.
  - destruct (H 0 ofAWithB eq_refl) as (c' & Hn & _ & _ & _ & Hex & _).
    exists c'. split; [exact Hn|].
    destruct (Hex "a.js" eq_refl (or_introl eq_refl)) as (Hfiles & _ & Hskip).
    split; [exact Hfiles|apply Hskip].
  - destruct (H 1 ofB eq_refl) as (c' & Hn & _ & _ & _ & _ & Hkeep).
    exists c'. split; [exact Hn|].
    apply Hkeep. simpl. intros [E|[]]. discriminate.
Defined.

(** C5, the emptied component is not simply discarded: with
    [add x/a.js x/a.ts --main x/a.js --exclude x/a.js] each path is a
    component of its own, each has the excluded main file and is left
    without files, and the two file-less components, of one identifier,
    make the run throw [DuplicateIds]. *)
Lemma emptied_components_still_count_as_duplicates :
  isMultipleComponents mainOfBothExcluded [("x/a.js", false); ("x/a.ts", false)] = true /\
  removeExcludedFiles (FS := disk sameName) (CO := consumer "") mainOfBothExcluded []
    [mkAdded (Some "x/a") [mkFile "x/a.js" false "a.js"] (Some "x/a.js") None] =
    [mkAdded (Some "x/a") [] (Some "x/a.js") None] /\
  removeExcludedFiles (FS := disk sameName) (CO := consumer "") mainOfBothExcluded []
    [mkAdded (Some "x/a") [mkFile "x/a.ts" false "a.ts"] (Some "x/a.js") None] =
    [mkAdded (Some "x/a") [] (Some "x/a.js") None] /\
  run sameName "" mainOfBothExcluded [] =
    (Thrown (DuplicateIds [("x/a", [mkAdded (Some "x/a") [] None None;
                                     mkAdded (Some "x/a") [] None None])]),
     fresh []).
Proof.
  repeat split; reflexivity.
Qed.

(** [add src --main "main/{PARENT}.js"]: the pattern against the second file
    names [main/b.js], which is on disk and not in the set, and after the
    loop the set has [main/a.js] and not [main/b.js]: the file of the later
    substitution was not appended. *)
Lemma later_substitutions_append_nothing :
  format "main/{PARENT}.js" (calculateFileInfo (relativePath yJs)) = "main/b.js" /\
  fs_existsSync (FileSystem := disk sourcesAndEntries) "main/b.js" = true /\
  inFileSet [xJs; yJs] "main/b.js" = false /\
  mainFileLoop (FS := disk sourcesAndEntries) "main/{PARENT}.js" [xJs; yJs] =
    ("main/a.js", [xJs; yJs; mainAJs]) /\
  inFileSet [xJs; yJs; mainAJs] "main/b.js" = false /\
  resolve sourcesAndEntries "" entryByParent [] =
    Returned [mkAdded (Some "work/src") [xJs; yJs; mainAJs] (Some "main/a.js") (Some "src")].
Proof.
  repeat split; reflexivity.
Qed.

(** C6 on the same run: the substitution against the first file is
    adopted and appended, and it is the main file that the call returns. *)
Lemma main_file_is_the_first_adoption_witness :
  mainFileLoop (FS := disk sourcesAndEntries) "main/{PARENT}.js" ([] ++ xJs :: [yJs]) =
    ("main/a.js", ([] ++ xJs :: [yJs]) ++ [mainAJs]) /\
  _addMainFileToFiles (FS := disk sourcesAndEntries) (CO := consumer "") entryByParent
    ([] ++ xJs :: [yJs]) =
    (Some "main/a.js", ([] ++ xJs :: [yJs]) ++ [mainAJs]).
Proof.
  refine (proj2 (main_file_is_the_first_adoption (FS := disk sourcesAndEntries)
                   (CO := consumer "") entryByParent (pattern := "main/{PARENT}.js")
                   [] [yJs] xJs eq_refl eq_refl eq_refl eq_refl _ _) eq_refl eq_refl).
  - intros x [].
  - intro info. reflexivity.
Defined.

(** [add a b], two directories and no identifier: two paths were given, and
    each component has a root directory. *)
Lemma each_of_two_directories_has_a_root_directory :
  length (componentPaths (bare ["a"; "b"] None)) = 2 /\
  resolve twoDirectories "" (bare ["a"; "b"] None) [] = Returned [ofDirA; ofDirB] /\
  rootDir ofDirA = Some "a" /\ rootDir ofDirB = Some "b".
Proof.
  repeat split; reflexivity.
Qed.

(** C7 on the same run, for the component of [a]. *)
Lemma rootDir_only_for_a_directory_resolved_alone_witness :
  exists stats p,
    resolvePathsStats (FS := disk twoDirectories) (bare ["a"; "b"] None)
      (getIgnoreList (FS := disk twoDirectories) (CO := consumer "")
         (JsObject.empty : JsObject.t ComponentMap)) = Returned stats /\
    In p (JsObject.keys stats) /\
    isDir (FileSystem := disk twoDirectories) p = true /\
    "a" = getPathRelativeToConsumer (ConsumerOps := consumer "") p /\
    (isMultipleComponents (bare ["a"; "b"] None) stats = false -> JsObject.keys stats = [p]) /\
    (isMultipleComponents (bare ["a"; "b"] None) stats = true ->
     In p (JsObject.keys (removeTests (FS := disk twoDirectories) (CO := consumer "")
                            (bare ["a"; "b"] None)
                            (getIgnoreList (FS := disk twoDirectories) (CO := consumer "")
                               (JsObject.empty : JsObject.t ComponentMap)) stats))).
Proof.
  refine (rootDir_only_for_a_directory_resolved_alone (FS := disk twoDirectories)
            (CO := consumer "") (bare ["a"; "b"] None)
            (JsObject.empty : JsObject.t ComponentMap)
            (added := [ofDirA; ofDirB]) ofDirA (r := "a") eq_refl _ eq_refl).
  left; reflexivity.
Defined.

(** C9 on a tree with a test file only, where the test files are checked:
    [add nothing.js --id my/comp --tests foo.spec.js]. *)
Lemma tests_stand_in_for_unmatched_paths_witness :
  resolvePathsStats (FS := diskCheckingTests onlyATest) testsOnly [] =
    validatePaths (FS := diskCheckingTests onlyATest) ["foo.spec.js"] /\
  resolveComponents (FS := diskCheckingTests onlyATest) (CO := consumer "") testsOnly
    (JsObject.empty : JsObject.t ComponentMap) =
    Returned [mkAdded (Some "my/comp") [mkFile "foo.spec.js" true "foo.spec.js"] None None].
Proof.
  destruct (tests_stand_in_for_unmatched_paths (FS := diskCheckingTests onlyATest)
              (CO := consumer "") (IX := index) testsOnly []) as (Hstats & _ & Hres).
  - discriminate.
  - reflexivity.
  - reflexivity.
  - split; [exact Hstats|].
    exact (eq_trans (Hres (JsObject.empty : JsObject.t ComponentMap) eq_refl) eq_refl).
Defined.

(** C9 does not hold when a test file is missing:
    [add nothing.js --id my/comp --tests foo.spec.js gone.spec.js] on a tree
    with [foo.spec.js] only.  The three conditions hold and the matches of
    the test patterns pass the validator, but the run has thrown
    [PathsNotExist] of the missing test file before the patterns are
    globbed. *)
Lemma missing_test_file_throws_before_the_tests_stand_in :
  tests oneTestGone <> [] /\
  truthy (id oneTestGone) = true /\
  concat (map (glob (FileSystem := diskCheckingTests onlyATest))
            (componentPaths oneTestGone)) = [] /\
  validatePaths (FS := diskCheckingTests onlyATest)
    (concat (map (glob (FileSystem := diskCheckingTests onlyATest)) (tests oneTestGone))) =
    Returned [("foo.spec.js", false)] /\
  add (FS := diskCheckingTests onlyATest) (CO := consumer "") oneTestGone (fresh []) =
    (Thrown (PathsNotExist ["gone.spec.js"]), fresh []).
Proof.
  repeat split; try reflexivity. discriminate.
Qed.

(** C3 on [add a b]: two components are resolved and reconciled, and the
    run returns with the index written once. *)
Lemma add_writes_index_once_at_the_end_witness :
  let results := [mkAddResult "work/a" [mkFile "a/x.js" false "x.js"];
                  mkAddResult "work/b" [mkFile "b/y.js" false "y.js"]] in
  let m1 := snd (reconcileComponents (FS := disk twoDirectories) (CO := consumer "")
                   (bare ["a"; "b"] None) [ofDirA; ofDirB] (fresh [])) in
  run twoDirectories "" (bare ["a"; "b"] None) [] =
    (Returned (mkResults results (warnings m1)), write m1) /\
  storage m1 = [] /\
  storage (write m1) = [bitMap m1].
Proof.
  exact (proj1 (add_writes_index_once_at_the_end (FS := disk twoDirectories)
                  (CO := consumer "") (bare ["a"; "b"] None) (fresh []))
           [ofDirA; ofDirB] _ _ eq_refl eq_refl).
Defined.

(** [add a b] returns and has written once; [add src/foo.js --id lib/util]
    on the vendored tree throws and has written nothing. *)
Lemma add_two_directories_writes_once :
  fst (run twoDirectories "" (bare ["a"; "b"] None) []) =
    Returned (mkResults [mkAddResult "work/a" [mkFile "a/x.js" false "x.js"];
                         mkAddResult "work/b" [mkFile "b/y.js" false "y.js"]] []) /\
  storage (snd (run twoDirectories "" (bare ["a"; "b"] None) [])) =
    [bitMap (snd (run twoDirectories "" (bare ["a"; "b"] None) []))] /\
  storage (snd (run vendoredTree "" (bare ["src/foo.js"] (Some "lib/util")) vendoredIndex)) = [].
Proof.
  repeat split; reflexivity.
Qed.

(** C10 does not hold of the code: [add a.spec.js a.js --tests a.spec.js] run
    from the directory [src] of the consumer.  The test file matches the
    test pattern, but the match is turned into a path from the consumer,
    [src/a.spec.js], and the key of the path is [a.spec.js]: nothing is
    removed, the test file is resolved as a component of its own, and it is
    added as such.  Run from the directory of the consumer, where the two
    strings are the same, the path is removed. *)
Theorem test_path_stays_when_run_from_a_subdirectory :
  JsObject.keys (removeTests (PL := paths "src/") (FS := disk sourceAndTest)
                   (CO := consumer "src/") testAmongPaths []
                   [("a.spec.js", false); ("a.js", false)]) = ["a.spec.js"; "a.js"] /\
  resolve sourceAndTest "src/" testAmongPaths [] =
    Returned [mkAdded (Some "src/a.spec") [mkFile "src/a.spec.js" true "a.spec.js"] None None;
              mkAdded (Some "src/a")
                [mkFile "src/a.spec.js" true "a.spec.js"; mkFile "src/a.js" false "a.js"]
                None None] /\
  fst (run sourceAndTest "src/" testAmongPaths []) =
    Returned (mkResults
                [mkAddResult "src/a.spec" [mkFile "src/a.spec.js" true "a.spec.js"];
                 mkAddResult "src/a" [mkFile "src/a.js" false "a.js"]]
                [("src/a.spec", ["src/a.spec.js"])]) /\
  JsObject.keys (removeTests (FS := disk sourceAndTest) (CO := consumer "") testAmongPaths []
                   [("a.spec.js", false); ("a.js", false)]) = ["a.js"].
Proof.
  repeat split; reflexivity.
Qed.

(** ** More runs *)

(** X1 on a list that names a file twice and the file [__proto__]. *)
Lemma validatePaths_returns_stats_of_the_paths_witness :
  exists stats,
    validatePaths (FS := disk withProtoFile) ["a.js"; "__proto__"; "a.js"] = Returned stats /\
    NoDup (JsObject.keys stats) /\
    (forall p, In p (JsObject.keys stats) <->
               In p ["a.js"; "__proto__"; "a.js"] /\ p <> "__proto__") /\
    (forall p, In p ["a.js"; "__proto__"; "a.js"] -> p <> "__proto__" ->
               JsObject.get stats p = Some (isDir (FileSystem := disk withProtoFile) p)).
Proof.
  apply (validatePaths_returns_stats_of_the_paths (FS := disk withProtoFile)). reflexivity.
Defined.

(** The stats of that list have the one key [a.js]; and [add __proto__]
    alone resolves to a component without files and without identifier. *)
Lemma a_path_named_proto_gets_no_key :
  validatePaths (FS := disk withProtoFile) ["a.js"; "__proto__"; "a.js"] =
    Returned [("a.js", false)] /\
  resolve withProtoFile "" (bare ["__proto__"] None) [] =
    Returned [mkAdded None [] None None].
Proof. split; reflexivity. Qed.

(** X2 on the components of two directories, and on two components of one
    identifier. *)
Lemma validateNoDuplicateIds_returns_iff_distinct_witness :
  validateNoDuplicateIds [ofDirA; ofDirB] = Returned tt /\
  exists d, d <> [] /\ validateNoDuplicateIds [ofAJs; ofATs] = Thrown (DuplicateIds d).
Proof.
  split.
  - apply (proj1 (validateNoDuplicateIds_returns_iff_distinct [ofDirA; ofDirB])).
    repeat constructor; simpl; intuition discriminate.
  - apply (proj2 (validateNoDuplicateIds_returns_iff_distinct [ofAJs; ofATs])).
    intro H. inversion H as [|x l Hx Hl]. apply Hx. now left.
Defined.

(** X3: the test of [a.js] is found by the pattern of [testFirst]. *)
Lemma getFilesAccordingToDsl_matches_witness :
  In "a.spec.js"
     (getFilesAccordingToDsl (FS := disk sourceAndTest) (CO := consumer "") []
        ["a.spec.js"; "a.js"] ["{FILE_NAME}.spec.js"]).
Proof.
  apply (getFilesAccordingToDsl_matches (FS := disk sourceAndTest) (CO := consumer "")).
  exists "{FILE_NAME}.spec.js", "a.js", "a.spec.js".
  repeat split; try reflexivity; simpl; auto.
Defined.

(** X4 on the files [a.spec.js] and [a.js] with the pattern of [testFirst]:
    the test found replaces the plain entry of [a.spec.js]. *)
Lemma merged_files_are_distinct_and_tests_win_witness :
  NoDup (map relativePath
           (_mergeTestFilesWithFiles (FS := disk sourceAndTest) (CO := consumer "") testFirst []
              [aSpecJs false; aJs])) /\
  aSpecJs true = mkFile (relativePath (aSpecJs true)) true
                        (path_basename (relativePath (aSpecJs true))).
Proof.
  destruct (merged_files_are_distinct_and_tests_win (FS := disk sourceAndTest)
              (CO := consumer "") testFirst [] [aSpecJs false; aJs])
    as (Hnd & _ & Htest & _ & _).
  split; [exact Hnd|]. apply Htest; left; reflexivity.
Defined.

(** X5 on the files of [add src --main "main/{PARENT}.js"]. *)
Lemma main_file_resolution_only_appends_witness :
  exists extra,
    snd (_addMainFileToFiles (FS := disk sourcesAndEntries) (CO := consumer "") entryByParent
           [xJs; yJs]) = [xJs; yJs] ++ extra /\
    Forall (appendedByMain (FS := disk sourcesAndEntries)) extra /\
    (NoDup (map relativePath [xJs; yJs]) -> NoDup (map relativePath ([xJs; yJs] ++ extra))).
Proof.
  exact (proj1 (main_file_resolution_only_appends (FS := disk sourcesAndEntries)
                  (CO := consumer "") entryByParent [xJs; yJs])).
Defined.

(** X6 on [add a b]. *)
Lemma resolved_components_have_distinct_paths_witness :
  NoDup (map relativePath (files ofDirA)).
Proof.
  refine (resolved_components_have_distinct_paths (FS := disk twoDirectories)
            (CO := consumer "") (bare ["a"; "b"] None)
            (JsObject.empty : JsObject.t ComponentMap) (added := [ofDirA; ofDirB]) ofDirA
            eq_refl _).
  left; reflexivity.
Defined.

(** X7 on [add a b]. *)
Lemma multiple_components_have_distinct_ids_witness :
  NoDup (map componentIdKey [ofDirA; ofDirB]).
Proof.
  exact (multiple_components_have_distinct_ids (FS := disk twoDirectories)
           (CO := consumer "") (bare ["a"; "b"] None)
           (JsObject.empty : JsObject.t ComponentMap)
           (stats := [("a", true); ("b", true)]) (added := [ofDirA; ofDirB])
           eq_refl eq_refl eq_refl).
Defined.

(** X8 on [add a.spec.js a.js --id my/comp]. *)
Lemma resolved_components_have_an_identifier_witness :
  exists i, componentId (mkAdded (Some "my/comp") [aSpecJs true; aJs] None None) = Some i /\
            (forall userId, id testFirst = Some userId -> truthy (id testFirst) = true ->
                            _getIdAccordingToExistingComponent
                              (JsObject.empty : JsObject.t ComponentMap) userId = Returned i).
Proof.
  refine (resolved_components_have_an_identifier (FS := disk sourceAndTest)
            (CO := consumer "") testFirst (JsObject.empty : JsObject.t ComponentMap)
            (added := [mkAdded (Some "my/comp") [aSpecJs true; aJs] None None])
            (mkAdded (Some "my/comp") [aSpecJs true; aJs] None None) eq_refl _ _).
  - left; reflexivity.
  - discriminate.
Defined.

(** X9: a component of [src/foo.js], which belongs to [my/other], and
    [src/bar.js]: it is stored with [src/bar.js] only. *)
Lemma plain_component_is_stored_without_foreign_files_witness :
  addOrUpdateComponentInBitMap (FS := disk vendoredTree) (CO := consumer "")
    (bare ["src/foo.js"; "src/bar.js"] (Some "src/comp")) fooAndBar (fresh authoredIndex) =
    (Returned (Some (mkAddResult "src/comp" [barJs])),
     mkMem (IX := index)
       (JsObject.set authoredIndex "src/comp" (mkComponentMap AUTHORED None [barJs] None))
       [("my/other", ["src/foo.js"])] []).
Proof.
  refine (proj2 (plain_component_is_stored_without_foreign_files (FS := disk vendoredTree)
                   (CO := consumer "") (bare ["src/foo.js"; "src/bar.js"] (Some "src/comp"))
                   fooAndBar (fresh authoredIndex) (pid := "src/comp") eq_refl _) _).
  - intros f [E|[E|[]]]; subst f; reflexivity.
  - vm_compute. discriminate.
Defined.

(** X10 on [add src/foo.js] on the vendored tree. *)
Lemma add_only_appends_warnings_witness :
  exists more,
    warned (warnings (snd (run vendoredTree "" (bare ["src/foo.js"] None) vendoredIndex)))
           "my/other" =
      warned (warnings (fresh vendoredIndex)) "my/other" ++ more /\
    forall p, In p more ->
      exists added c,
        resolve vendoredTree "" (bare ["src/foo.js"] None) vendoredIndex = Returned added /\
        In c added /\ In p (map relativePath (files c)).
Proof.
  exact (proj1 (add_only_appends_warnings (FS := disk vendoredTree) (CO := consumer "")
                  (bare ["src/foo.js"] None) (fresh vendoredIndex) "my/other")).
Defined.

(** X11 on a tree without files: [add x.js]. *)
Lemma add_reports_missing_unmatched_and_ignored_paths_witness :
  run emptyTree "" (bare ["x.js"] None) [] =
    (Thrown (PathsNotExist ["x.js"]), fresh []).
Proof.
  refine (proj1 (proj2 (add_reports_missing_unmatched_and_ignored_paths
                          (FS := disk emptyTree) (CO := consumer "") (bare ["x.js"] None)
                          (fresh []))) eq_refl eq_refl _).
  left; reflexivity.
Defined.

(** X12: [add a.js --id dep/lib], where [dep/lib] came as a dependency. *)
Lemma add_refuses_the_id_of_a_nested_component_witness :
  run sourceAndTest "" (bare ["a.js"] (Some "dep/lib")) nestedIndex =
    (Thrown (NamespaceTaken "dep/lib"), fresh nestedIndex).
Proof.
  exact (add_refuses_the_id_of_a_nested_component (FS := disk sourceAndTest)
           (CO := consumer "") (bare ["a.js"] (Some "dep/lib")) (fresh nestedIndex)
           (userId := "dep/lib") (existing := "dep/lib")
           (cm := mkComponentMap NESTED (Some "components/.dependencies/dep/lib") [] None)
           (stats := [("a.js", false)])
           eq_refl eq_refl eq_refl eq_refl eq_refl eq_refl eq_refl).
Defined.

(** X13 on the vendored index. *)
Lemma getIgnoreList_extends_the_base_list_witness :
  exists extra,
    getIgnoreList (FS := disk vendoredTree) (CO := consumer "") (IX := index) vendoredIndex =
      retrieveIgnoreList (FileSystem := disk vendoredTree)
        (getPath (ConsumerOps := consumer "")) ++ extra /\
    (distTarget (ConsumerOps := consumer "") = true -> extra = []) /\
    (distTarget (ConsumerOps := consumer "") = false ->
     length extra = length (getAllComponents (IndexOps := index) vendoredIndex IMPORTED)).
Proof.
  exact (getIgnoreList_extends_the_base_list (FS := disk vendoredTree) (CO := consumer "")
           (IX := index) vendoredIndex).
Defined.

(** X14 on [add a b]. *)
Lemma results_are_of_resolved_components_with_files_witness :
  exists mask,
    map resultId [mkAddResult "work/a" [mkFile "a/x.js" false "x.js"];
                  mkAddResult "work/b" [mkFile "b/y.js" false "y.js"]] =
      map componentIdKey (pick mask (withFiles [ofDirA; ofDirB])) /\
    2 <= length (withFiles [ofDirA; ofDirB]).
Proof.
  exact (results_are_of_resolved_components_with_files (FS := disk twoDirectories)
           (CO := consumer "") (bare ["a"; "b"] None) [ofDirA; ofDirB] (fresh [])
           (m' := snd (reconcileComponents (FS := disk twoDirectories) (CO := consumer "")
                         (bare ["a"; "b"] None) [ofDirA; ofDirB] (fresh [])))
           eq_refl).
Defined.

(** X15 on the paths of [add a.spec.js a.js --tests a.spec.js], run from the
    directory of the consumer. *)
Lemma removeTests_leaves_the_other_keys_witness :
  In "a.js" (JsObject.keys (removeTests (FS := disk sourceAndTest) (CO := consumer "")
                              testAmongPaths [] [("a.spec.js", false); ("a.js", false)])) <->
  In "a.js" (JsObject.keys [("a.spec.js", false); ("a.js", false)]) /\
  forall t, In t (testToRemove (FS := disk sourceAndTest) (CO := consumer "") testAmongPaths []
                    [("a.spec.js", false); ("a.js", false)]) ->
            path_normalize t <> "a.js".
Proof.
  apply (removeTests_leaves_the_other_keys (FS := disk sourceAndTest) (CO := consumer "")).
  repeat constructor; simpl; intuition discriminate.
Defined.

(** X16: the only file of the component is an auto-generated file of the
    imported component [lib/util], and no identifier was given. *)
Lemma generated_files_are_never_stored_witness :
  addOrUpdateComponentInBitMap
    (FS := diskWithGenerated vendoredTree ["/work/components/lib/util/index.js"])
    (CO := consumer "") (bare ["components/lib/util/index.js"] None)
    (mkAdded (Some "util/index") [utilIndexJs] None None) (fresh vendoredIndex) =
    (Returned None, fresh vendoredIndex).
Proof.
  apply (generated_files_are_never_stored
           (FS := diskWithGenerated vendoredTree ["/work/components/lib/util/index.js"])
           (CO := consumer "")).
  intros f [E|[]]. subst f. reflexivity.
Defined.

(** X17 on [add a.js --id my/comp --exclude a.js]. *)
Lemma add_without_files_returns_nothing_and_writes_witness :
  run twoFiles "" onlyFileExcluded [] = (Returned (mkResults [] []), write (fresh [])).
Proof.
  refine (add_without_files_returns_nothing_and_writes (FS := disk twoFiles)
            (CO := consumer "") onlyFileExcluded (fresh [])
            (added := [mkAdded (Some "my/comp") [] None None]) eq_refl _).
  intros c [E|[]]. now subst c.
Defined.

(** X18 on a directory without files: [add empty]. *)
Lemma add_throws_on_an_empty_directory_witness :
  run emptyDirectory "" (bare ["empty"] None) [] = (Thrown EmptyDirectory, fresh []).
Proof.
  refine (add_throws_on_an_empty_directory (FS := disk emptyDirectory) (CO := consumer "")
            (bare ["empty"] None) (fresh []) (stats := [("empty", true)]) (p := "empty")
            (rest := []) eq_refl eq_refl eq_refl eq_refl eq_refl _).
  intros userId H. discriminate.
Defined.

(** X19 on [add a.js]. *)
Lemma one_file_gives_a_component_of_that_file_witness :
  addOneComponent (FS := disk sourceAndTest) (CO := consumer "") (bare ["a.js"] None)
    (JsObject.empty : JsObject.t ComponentMap) [] (JsObject.set JsObject.empty "a.js" false) =
    Returned (mkAdded (Some "work/a") [aJs] None None).
Proof.
  exact (eq_trans
           (one_file_gives_a_component_of_that_file (FS := disk sourceAndTest)
              (CO := consumer "") (bare ["a.js"] None)
              (JsObject.empty : JsObject.t ComponentMap) [] "a.js"
              eq_refl eq_refl eq_refl eq_refl)
           eq_refl).
Defined.

(** X20 on [add x/a.js x/a.ts]: both paths give the identifier [x/a]. *)
Lemma add_throws_on_duplicate_ids_witness :
  exists d, d <> [] /\
    run sameName "" (bare ["x/a.js"; "x/a.ts"] None) [] = (Thrown (DuplicateIds d), fresh []).
Proof.
  refine (add_throws_on_duplicate_ids (FS := disk sameName) (CO := consumer "")
            (bare ["x/a.js"; "x/a.ts"] None) (fresh [])
            (stats := [("x/a.js", false); ("x/a.ts", false)]) (cs := [ofAJs; ofATs])
            eq_refl eq_refl eq_refl _).
  intro H. inversion H as [|x l Hx Hl]. apply Hx. now left.
Defined.

(** X21 with CI enabled and no function path: one worker is started. *)
Lemma ciHook_returns_its_component_witness :
  ciHook (CE := ciEnabled) "my/comp" "/work/.bit" [] =
    (Some "my/comp",
     [mkSpawned "node" ["./ci-worker.js"] true
        [("__id__", "my/comp"); ("__scope__", "/work/.bit")]
        ["ignore"; "ignore"; "ignore"] true]).
Proof.
  exact (proj1 (proj2 (ciHook_returns_its_component (CE := ciEnabled) "my/comp" "/work/.bit" []))
               eq_refl).
Defined.
